(** * Wallet analysis and staking recommendation engine

    A shallow embedding of the wallet analyzer of the ElizaOS vault
    management plugin (the later, testnet-aware variant of
    [wallet-analyzer.ts], with the earlier variant's strategy function kept
    in [Module Earlier]) together with the properties of its TTL cache,
    balance aggregation, scoring pipeline and recommendation generator.

    Conventions of the embedding.
    - A JavaScript [number] that carries a balance, a share or a percentage
      is an exact rational ([Q]); [parseFloat (formatUnits raw d)] is the
      exact quotient [raw / 10^d].  Integer valued scores are [Z].
    - A JavaScript object used as a string-keyed map with observable key
      order ([Record<string, string>]) is an association list in insertion
      order; the [Map] inside [Cache] is a [gmap].
    - [async] functions are run to completion one after the other; the
      chains of one aggregation are visited in the order of the chain list,
      and [Date.now()] reads the same instant throughout one call of
      [analyzeWallet].
    - [throw] is the [Err] constructor of [result]. *)

From Stdlib Require Import ZArith QArith Qround Lqa Lia List String Ascii Bool.
From Stdlib Require Import Sorted Permutation.
From stdpp Require Import base option gmap strings fin_maps.

Import ListNotations.
Local Open Scope Z_scope.

(** ** JavaScript numbers as rationals *)

Definition Qgtb (a b : Q) : bool := negb (Qle_bool a b).
Definition Qgeb (a b : Q) : bool := Qle_bool b a.
Definition Qltb (a b : Q) : bool := negb (Qle_bool b a).

Definition Qmin (a b : Q) : Q := if Qle_bool a b then a else b.
Definition Qmax (a b : Q) : Q := if Qle_bool a b then b else a.

Fixpoint pow10 (d : nat) : positive :=
  match d with
  | O => 1%positive
  | S d' => (10 * pow10 d')%positive
  end.

(** viem's [formatUnits] followed by [parseFloat]. *)
Definition formatUnits (raw : Z) (decimals : nat) : Q := raw # pow10 decimals.

(** [Number.prototype.toFixed(6)]: the nearest multiple of [10^-6], the
    larger one on a tie. *)
Definition toFixed6 (x : Q) : Q :=
  Qfloor (x * 1000000 + (1 # 2)) # 1000000.

(** ** Results of fallible calls *)

Inductive result (A : Type) : Type :=
| Ok (a : A)
| Err (msg : string).
Arguments Ok {A} a.
Arguments Err {A} msg.

Definition bind {A B : Type} (r : result A) (k : A -> result B) : result B :=
  match r with
  | Ok a => k a
  | Err m => Err m
  end.

(** ** The TTL cache ([class Cache<T>]) *)

Module Cache.
Section WithValue.
Context {T : Type}.

Record entry : Type := { data : T; timestamp : Z }.

Record t : Type := { cache : gmap string entry; ttl : Z }.

Definition new (ttl_ms : Z) : t := {| cache := ∅; ttl := ttl_ms |}.

(** [get(key)] at wall-clock time [now]: the value read and the cache
    after the call. *)
Definition get (now : Z) (key : string) (c : t) : option T * t :=
  match cache c !! key with
  | None => (None, c)
  | Some item =>
      if now - timestamp item >? ttl c
      then (None, {| cache := delete key (cache c); ttl := ttl c |})
      else (Some (data item), c)
  end.

Definition set (now : Z) (key : string) (v : T) (c : t) : t :=
  {| cache := <[key := {| data := v; timestamp := now |}]> (cache c);
     ttl := ttl c |}.

(** The only two operations the class offers. *)
Inductive op : Type :=
| OpGet (key : string)
| OpSet (key : string) (v : T).

Definition step (now : Z) (o : op) (c : t) : t :=
  match o with
  | OpGet k => snd (get now k c)
  | OpSet k v => set now k v c
  end.

(** The entry under [key] is older than the TTL at time [now]. *)
Definition expired (now : Z) (key : string) (c : t) : Prop :=
  exists item, cache c !! key = Some item /\ now - timestamp item > ttl c.

End WithValue.
Arguments entry : clear implicits.
Arguments t : clear implicits.
Arguments op : clear implicits.
End Cache.

(** ** Data model *)

(** The string-literal union ["LOW" | "MEDIUM" | "HIGH"], used for option
    risk levels, recommendation priorities, diversification levels and the
    staking risk tolerance. *)
Inductive Level : Type := LOW | MEDIUM | HIGH.

Inductive StakingType : Type := LIQUID | LOCKED | RESTAKING | YIELD_FARMING.

Inductive RiskTolerance : Type :=
  CONSERVATIVE | MODERATE | AGGRESSIVE | DEGENERATE | UNKNOWN.

Definition Level_eqb (a b : Level) : bool :=
  match a, b with
  | LOW, LOW | MEDIUM, MEDIUM | HIGH, HIGH => true
  | _, _ => false
  end.

(** [minAmount] is the parsed decimal string; the free-text [description]
    is left out. *)
Record StakingOption : Type := {
  protocol : string;
  type : StakingType;
  expectedApr : Q;
  minAmount : Q;
  lockPeriod : option Z;
  riskLevel : Level;
  so_chainName : string;
}.

Record TokenHolding : Type := {
  symbol : string;
  th_address : string;
  balance : Q;
  decimals : nat;
  chainName : string;
  isStakeable : bool;
  stakingOptions : list StakingOption;
  isTestnet : bool;
}.

Record TokenBalanceData : Type := {
  tb_address : string;
  tb_chainName : string;
  nativeBalance : Q;
  tokenHoldings : list TokenHolding;
  tb_isTestnet : bool;
}.

(** [recommendedAmount] and [expectedReturn] are the numbers printed by
    [toFixed(6)]; the prose fields [reasoning] and [riskAssessment] are left
    out. *)
Record StakingRecommendation : Type := {
  recommendedAmount : Q;
  token : string;
  options : list StakingOption;
  expectedReturn : Q;
  priority : Level;
  sr_isTestnet : bool;
}.

Record StakingStrategy : Type := {
  recommendedAllocation : Q;
  preferredProtocols : list string;
  ss_riskTolerance : RiskTolerance;
  liquidityBuffer : Q;
  stakingHorizon : Z;
  diversificationGoal : Z;
}.

Record TokenAnalysis : Type := {
  totalTokens : nat;
  majorHoldings : list TokenHolding;
  stablecoins : list TokenHolding;
  defiTokens : list TokenHolding;
  governanceTokens : list TokenHolding;
  stakeableAssets : list TokenHolding;
  concentrationRisk : Q;
  diversificationLevel : Level;
}.

Record WalletRiskProfile : Type := {
  riskScore : Z;
  riskTolerance : RiskTolerance;
  maxSinglePosition : Q;
  rp_diversificationLevel : Level;
  lockPeriodTolerance : Z;
  rp_concentrationRisk : Q;
  liquidityRisk : Q;
  stakingRiskTolerance : Level;
}.

Record LiquidityProfile : Type := {
  liquidityRatio : Q;
  withdrawalFrequency : Z;
  emergencyBuffer : Q;
  preferredLockPeriods : list Z;
  liquidAssets : list TokenHolding;
  stakedAssets : list TokenHolding;
  stakingCapacity : Q;
}.

(** [Record<string, string>] of formatted native balances, in insertion
    order. *)
Definition NativeBalances : Type := list (string * Q).

(** The aggregate root.  The presentation-only fields ([behaviorPatterns],
    [preferredAssets], [evmCapabilities], the constant [transactionCount]
    and [totalUsdValue]) are left out. *)
Record WalletAnalysis : Type := {
  wa_address : string;
  totalBalance : Q;
  wa_tokenHoldings : list TokenHolding;
  nativeBalances : NativeBalances;
  diversificationScore : Z;
  stakingRecommendations : list StakingRecommendation;
  currentStakingPositions : list TokenHolding;
  tokenAnalysis : TokenAnalysis;
  riskProfile : WalletRiskProfile;
  stakingStrategy : StakingStrategy;
  liquidityNeeds : LiquidityProfile;
}.

(** [Array.prototype.includes] on a list of string literals. *)
Definition includes (l : list string) (s : string) : bool :=
  existsb (String.eqb s) l.

(** Assignment [obj[key] = value] on a string-keyed object: an existing key
    keeps its position, a new key goes last. *)
Fixpoint record_set {V : Type} (key : string) (v : V) (o : list (string * V))
  : list (string * V) :=
  match o with
  | [] => [(key, v)]
  | (k, w) :: rest =>
      if String.eqb k key then (k, v) :: rest else (k, w) :: record_set key v rest
  end.

Fixpoint record_get {V : Type} (key : string) (o : list (string * V)) : option V :=
  match o with
  | [] => None
  | (k, w) :: rest => if String.eqb k key then Some w else record_get key rest
  end.

Definition keys {V : Type} (o : list (string * V)) : list string := map fst o.

(** [Array.prototype.sort] with a comparator is stable; [before a b] says
    that the comparator orders [a] strictly before [b]. *)
Section StableSort.
Context {A : Type} (before : A -> A -> bool).

Fixpoint insert_sorted (x : A) (l : list A) : list A :=
  match l with
  | [] => [x]
  | y :: rest => if before y x then y :: insert_sorted x rest else x :: y :: rest
  end.

Definition stable_sort (l : list A) : list A := fold_right insert_sorted [] l.

End StableSort.

(** ** InternalTokenBalanceProvider: the chain registry and the catalogs *)

Local Open Scope string_scope.
Local Open Scope Z_scope.

Record ChainConfig : Type := {
  id : Z;
  name : string;
  cc_isTestnet : bool;
  nativeSymbol : string;
}.

Definition chain (i : Z) (n : string) (t : bool) (sym : string) : ChainConfig :=
  {| id := i; name := n; cc_isTestnet := t; nativeSymbol := sym |}.

(** [CHAIN_CONFIG], in the key order of the object literal (the RPC
    endpoints are not part of the model). *)
Definition CHAIN_CONFIG : list (string * ChainConfig) :=
  [ ("mainnet", chain 1 "Ethereum" false "ETH");
    ("base", chain 8453 "Base" false "ETH");
    ("arbitrum", chain 42161 "Arbitrum One" false "ETH");
    ("polygon", chain 137 "Polygon" false "MATIC");
    ("sepolia", chain 11155111 "Sepolia" true "ETH");
    ("holesky", chain 17000 "Holesky" true "ETH");
    ("baseSepolia", chain 84532 "Base Sepolia" true "ETH");
    ("arbitrumSepolia", chain 421614 "Arbitrum Sepolia" true "ETH");
    ("polygonAmoy", chain 80002 "Polygon Amoy" true "MATIC");
    ("optimismSepolia", chain 11155420 "Optimism Sepolia" true "ETH") ].

Definition isTestnetChain (chainName : string) : bool :=
  match record_get chainName CHAIN_CONFIG with
  | Some c => cc_isTestnet c
  | None => false
  end.

Definition getTestnetChains : list string :=
  List.filter (fun chainName => isTestnetChain chainName) (keys CHAIN_CONFIG).

Definition getMainnetChains : list string :=
  List.filter (fun chainName => negb (isTestnetChain chainName)) (keys CHAIN_CONFIG).

(** An entry of a token catalog; a missing [isTestnet] or [stakingOptions]
    field reads as [false] and [[]] through [||]. *)
Record TokenConfig : Type := {
  tc_address : string;
  tc_symbol : string;
  tc_decimals : nat;
  tc_isStakeable : bool;
  tc_isTestnet : bool;
  tc_stakingOptions : list StakingOption;
}.

Definition opt (p : string) (t : StakingType) (apr minA : Q) (r : Level)
    (c : string) : StakingOption :=
  {| protocol := p; type := t; expectedApr := apr; minAmount := minA;
     lockPeriod := None; riskLevel := r; so_chainName := c |}.

Definition locked (p : string) (t : StakingType) (apr minA : Q) (days : Z)
    (r : Level) (c : string) : StakingOption :=
  {| protocol := p; type := t; expectedApr := apr; minAmount := minA;
     lockPeriod := Some days; riskLevel := r; so_chainName := c |}.

Definition tok (a s : string) (d : nat) (st tn : bool) (os : list StakingOption)
  : TokenConfig :=
  {| tc_address := a; tc_symbol := s; tc_decimals := d; tc_isStakeable := st;
     tc_isTestnet := tn; tc_stakingOptions := os |}.

Local Open Scope Q_scope.

Definition TESTNET_TOKEN_DATABASE : list (string * list TokenConfig) :=
  [ ("sepolia",
     [ tok "0x1f9840a85d5af5bf1d1762f925bdaddc4201f984" "UNI" 18 true true
         [ opt "Testnet Uniswap" YIELD_FARMING 8.0 1 MEDIUM "sepolia" ];
       tok "0x779877A7B0D9E8603169DdbD7836e478b4624789" "LINK" 18 true true
         [ opt "Testnet Aave" LIQUID 5.0 1 LOW "sepolia";
           opt "Testnet Compound" LIQUID 4.2 0.5 LOW "sepolia" ];
       tok "0x6f14C02Fc1F78322cFd7d707ab90f18baD3B54f5" "USDC" 6 true true
         [ opt "Testnet Compound" LIQUID 3.5 1 LOW "sepolia";
           opt "Testnet Aave" LIQUID 4.0 1 LOW "sepolia" ];
       tok "0xfFf9976782d46CC05630D1f6eBAb18b2324d6B14" "WETH" 18 true true
         [ opt "Testnet Lido" LIQUID 2.5 0.001 LOW "sepolia";
           opt "Testnet Uniswap" YIELD_FARMING 6.0 0.01 MEDIUM "sepolia" ];
       tok "0x25a233c2C94b62C3532a0BCA0186cfEfb6908D0A" "DAI" 18 true true
         [ opt "Testnet MakerDAO" LIQUID 4.0 1 LOW "sepolia";
           opt "Testnet Aave" LIQUID 3.8 1 LOW "sepolia" ] ]);
    ("holesky",
     [ tok "0x94373a4919B3240D86eA41593D5eBa789FEF3848" "WETH" 18 true true
         [ opt "Holesky Lido" LIQUID 2.8 0.001 LOW "holesky" ] ]);
    ("baseSepolia",
     [ tok "0x036CbD53842c5426634e7929541eC2318f3dCF7e" "USDC" 6 true true
         [ opt "Base Sepolia Moonwell" LIQUID 3.2 1 MEDIUM "baseSepolia" ] ]);
    ("arbitrumSepolia",
     [ tok "0x75faf114eafb1BDbe2F0316DF893fd58CE46AA4d" "USDC" 6 true true
         [ opt "Arbitrum Sepolia Radiant" LIQUID 3.8 1 MEDIUM "arbitrumSepolia" ] ]);
    ("polygonAmoy",
     [ tok "0x360ad4f9a9A8EFe9A8DCB5f461c4Cc1047E1Dcf9" "WMATIC" 18 true true
         [ opt "Amoy Staking" LIQUID 6.0 1 MEDIUM "polygonAmoy" ] ]);
    ("optimismSepolia",
     [ tok "0x5fd84259d66Cd46123540766Be93DFE6D43130D7" "USDC" 6 true true
         [ opt "Optimism Sepolia Aave" LIQUID 3.5 1 LOW "optimismSepolia" ] ]) ].

Definition TOKEN_DATABASE : list (string * list TokenConfig) :=
  [ ("mainnet",
     [ tok "0xA0b86a33E6Db485E0f65b2f8b4b92c0e7b9c2c1e" "USDC" 6 true false
         [ opt "Aave" LIQUID 4.5 100 LOW "mainnet";
           opt "Compound" LIQUID 3.8 50 LOW "mainnet" ];
       tok "0xdAC17F958D2ee523a2206206994597C13D831ec7" "USDT" 6 true false
         [ opt "Aave" LIQUID 4.2 100 LOW "mainnet" ];
       tok "0x6B175474E89094C44Da98b954EedeAC495271d0F" "DAI" 18 true false
         [ opt "MakerDAO DSR" LIQUID 5.0 1 LOW "mainnet";
           opt "Aave" LIQUID 4.3 50 LOW "mainnet" ];
       tok "0x1f9840a85d5af5bf1d1762f925bdaddc4201f984" "UNI" 18 false false [];
       tok "0xae7ab96520de3a18e5e111b5eaab095312d7fe84" "stETH" 18 false false [] ]);
    ("base",
     [ tok "0x833589fCD6eDb6E08f4c7C32D4f71b54bdA02913" "USDC" 6 true false
         [ opt "Moonwell" LIQUID 3.5 50 MEDIUM "base" ];
       tok "0x4200000000000000000000000000000000000006" "WETH" 18 true false
         [ opt "Moonwell" LIQUID 2.8 0.1 MEDIUM "base" ] ]);
    ("arbitrum",
     [ tok "0xaf88d065e77c8cC2239327C5EDb3A432268e5831" "USDC" 6 true false
         [ opt "Radiant" LIQUID 4.0 50 MEDIUM "arbitrum" ];
       tok "0x82aF49447D8a07e3bd95BD0d56f35241523fBab1" "WETH" 18 true false
         [ opt "Radiant" LIQUID 2.5 0.1 MEDIUM "arbitrum" ] ]) ].

Definition TESTNET_ETH_STAKING_OPTIONS : list StakingOption :=
  [ opt "Testnet Lido" LIQUID 2.5 0.001 LOW "sepolia";
    opt "Testnet Rocket Pool" LIQUID 2.3 0.001 LOW "sepolia";
    locked "Sepolia Beacon Chain" LOCKED 3.0 0.1 1 MEDIUM "sepolia";
    opt "Testnet Frax" LIQUID 2.8 0.001 MEDIUM "sepolia" ].

Definition ETH_STAKING_OPTIONS : list StakingOption :=
  [ opt "Lido" LIQUID 3.2 0.01 LOW "mainnet";
    opt "Rocket Pool" LIQUID 3.1 0.01 LOW "mainnet";
    opt "Coinbase Wrapped Staked ETH" LIQUID 3.0 0.001 LOW "mainnet";
    locked "EigenLayer" RESTAKING 4.5 32 21 HIGH "mainnet" ].

Local Close Scope Q_scope.

(** ** The chain query service *)

(** A viem public client as the aggregator uses it; [None] is a rejected
    call.  [getBalance owner] is the native balance in wei, [readContract
    token owner] the ERC-20 [balanceOf]. *)
Record PublicClient : Type := {
  getBalance : string -> option Z;
  readContract : string -> string -> option Z;
}.

(** The wallet provider of the EVM plugin.  [getSupportedChains] is [None]
    when the call yields a falsy value, [getPublicClient] is [None] when it
    throws. *)
Record WalletProvider : Type := {
  getAddress : string;
  getSupportedChains : option (list string);
  getPublicClient : string -> option PublicClient;
}.

(** What one call of the analyzer meets outside the process:
    [initWalletProvider] is [None] when the EVM plugin could not be
    imported, otherwise it answers each attempt; [rpc c] is the client that
    [createPublicClient] builds on the RPC endpoint of chain [c];
    [fetchTimesOut k] tells whether the 60 second timer wins the race
    against the [k]-th balance fetch. *)
Record Env : Type := {
  initWalletProvider : option (nat -> result WalletProvider);
  rpc : string -> PublicClient;
  fetchTimesOut : nat -> bool;
}.

Definition createPublicClient (env : Env) (chainName : string) : result PublicClient :=
  match record_get chainName CHAIN_CONFIG with
  | None => Err ("Unsupported chain: " +:+ chainName)
  | Some _ => Ok (rpc env chainName)
  end.

Definition balancesCacheKey (address : string) (testnetOnly : bool) : string :=
  address +:+ "_token_balances_" +:+ (if testnetOnly then "testnet" else "all").

(** The body of the [tokens.map] callback: the holding pushed for one
    catalog token, if any. *)
Definition tokenHoldingOf (client : PublicClient) (address chainName : string)
    (isTestnet : bool) (tokenConfig : TokenConfig) : list TokenHolding :=
  match readContract client (tc_address tokenConfig) address with
  | None => []
  | Some balance =>
      if (balance >? 0)%Z then
        let formattedBalance := formatUnits balance (tc_decimals tokenConfig) in
        let minThreshold := (if isTestnet then 0.00001 else 0.001)%Q in
        if Qgtb formattedBalance minThreshold then
          [ {| symbol := tc_symbol tokenConfig;
               th_address := tc_address tokenConfig;
               balance := formattedBalance;
               decimals := tc_decimals tokenConfig;
               chainName := chainName;
               isStakeable := tc_isStakeable tokenConfig;
               stakingOptions := tc_stakingOptions tokenConfig;
               isTestnet := tc_isTestnet tokenConfig || isTestnet |} ]
        else []
      else []
  end.

Definition catalogFor (chainName : string) (isTestnet : bool) : list TokenConfig :=
  match record_get chainName
          (if isTestnet then TESTNET_TOKEN_DATABASE else TOKEN_DATABASE) with
  | Some tokens => tokens
  | None => []
  end.

(** The client of a chain: the wallet provider's, or on its failure the
    analyzer's own fallback client. *)
Definition clientFor (env : Env) (walletProvider : WalletProvider)
    (chainName : string) : result PublicClient :=
  match getPublicClient walletProvider chainName with
  | Some client => Ok client
  | None => createPublicClient env chainName
  end.

Definition getTokenBalancesForChain (env : Env) (walletProvider : WalletProvider)
    (address chainName : string) : result TokenBalanceData :=
  let isTestnet := isTestnetChain chainName in
  bind (clientFor env walletProvider chainName)
    (fun client =>
       let nativeBalance :=
         match getBalance client address with
         | Some wei => wei
         | None => 0%Z
         end in
       let nativeBalanceFormatted := formatUnits nativeBalance 18 in
       let tokens := catalogFor chainName isTestnet in
       let tokenHoldings :=
         flat_map (tokenHoldingOf client address chainName isTestnet) tokens in
       Ok {| tb_address := address;
             tb_chainName := chainName;
             nativeBalance := nativeBalanceFormatted;
             tokenHoldings := tokenHoldings;
             tb_isTestnet := isTestnet |}).

Definition chainsToCheck (walletProvider : WalletProvider) (testnetOnly : bool)
  : list string :=
  if testnetOnly then getTestnetChains
  else match getSupportedChains walletProvider with
       | Some supportedChains => supportedChains
       | None => keys CHAIN_CONFIG
       end.

(** The test that decides whether a snapshot is pushed. *)
Definition contributes (testnetOnly : bool) (chainData : TokenBalanceData) : bool :=
  (0 <? length (tokenHoldings chainData))%nat
  || Qgtb (nativeBalance chainData) 0
  || testnetOnly.

(** The body of the [chainsToCheck.map] callback: the snapshot pushed for
    one chain, if any; a failure of the chain is caught and logged. *)
Definition chainContribution (env : Env) (walletProvider : WalletProvider)
    (address : string) (testnetOnly : bool) (chainName : string)
  : list TokenBalanceData :=
  match getTokenBalancesForChain env walletProvider address chainName with
  | Ok chainData => if contributes testnetOnly chainData then [chainData] else []
  | Err _ => []
  end.

Definition aggregate (env : Env) (walletProvider : WalletProvider)
    (address : string) (testnetOnly : bool) : list TokenBalanceData :=
  flat_map (chainContribution env walletProvider address testnetOnly)
    (chainsToCheck walletProvider testnetOnly).

(** [getTokenBalances] on a cache miss runs [aggregate] and stores its
    result; the cache is the provider's own 5 minute cache. *)
Definition getTokenBalances (now : Z) (env : Env) (walletProvider : WalletProvider)
    (address : string) (testnetOnly : bool)
    (c : Cache.t (list TokenBalanceData))
  : list TokenBalanceData * Cache.t (list TokenBalanceData) :=
  let cacheKey := balancesCacheKey address testnetOnly in
  match Cache.get now cacheKey c with
  | (Some cached, c') => (cached, c')
  | (None, c') =>
      let tokenBalances := aggregate env walletProvider address testnetOnly in
      (tokenBalances, Cache.set now cacheKey tokenBalances c')
  end.

(** ** WalletAnalyzer: the scoring pipeline *)

Definition Qlen {A : Type} (l : list A) : Q := inject_Z (Z.of_nat (length l)).

Definition analyzeTokenHoldings (tokenHoldings : list TokenHolding) : TokenAnalysis :=
  let stablecoins :=
    List.filter (fun token =>
      includes ["USDC"; "USDT"; "DAI"; "BUSD"; "FRAX"] (symbol token)) tokenHoldings in
  let defiTokens :=
    List.filter (fun token =>
      includes ["UNI"; "SUSHI"; "AAVE"; "COMP"; "CRV"; "YFI"; "stETH"] (symbol token))
      tokenHoldings in
  let governanceTokens :=
    List.filter (fun token =>
      includes ["UNI"; "COMP"; "AAVE"; "YFI"; "MKR"] (symbol token)) tokenHoldings in
  let stakeableAssets := List.filter (fun token => isStakeable token) tokenHoldings in
  let sortedHoldings :=
    stable_sort (fun a b => Qgtb (balance a) (balance b)) tokenHoldings in
  let majorHoldings := firstn 5 sortedHoldings in
  let totalValue :=
    fold_left (fun sum token => sum + balance token)%Q tokenHoldings 0%Q in
  let concentrationRisk :=
    fold_left (fun risk token =>
                 let share := (balance token / totalValue)%Q in
                 (risk + share * share)%Q) tokenHoldings 0%Q in
  let diversificationLevel :=
    if Qgtb concentrationRisk 0.5 then LOW
    else if Qgtb concentrationRisk 0.25 then MEDIUM
    else HIGH in
  {| totalTokens := length tokenHoldings;
     majorHoldings := majorHoldings;
     stablecoins := stablecoins;
     defiTokens := defiTokens;
     governanceTokens := governanceTokens;
     stakeableAssets := stakeableAssets;
     concentrationRisk := concentrationRisk;
     diversificationLevel := diversificationLevel |}.

Inductive TokenType : Type := TT_stablecoin | TT_defi | TT_other.

Definition TokenType_eq_dec (a b : TokenType) : {a = b} + {a <> b}.
Proof. decide equality. Defined.

Definition tokenTypeOf (token : TokenHolding) : TokenType :=
  if includes ["USDC"; "USDT"; "DAI"] (symbol token) then TT_stablecoin
  else if includes ["UNI"; "SUSHI"; "AAVE"] (symbol token) then TT_defi
  else TT_other.

Definition calculateDiversificationScore (tokenHoldings : list TokenHolding)
    (nativeBalances : NativeBalances) : Z :=
  let totalAssets := Z.of_nat (length tokenHoldings + length (keys nativeBalances)) in
  let chainCount := Z.of_nat (length (keys nativeBalances)) in
  let score := Z.min (totalAssets * 5) 50 in
  let score := score + Z.min (chainCount * 10) 30 in
  let tokenTypes := nodup TokenType_eq_dec (map tokenTypeOf tokenHoldings) in
  let score := score + Z.of_nat (length tokenTypes) * 5 in
  Z.min score 100.

Definition mapRiskScoreToTolerance (score : Z) : RiskTolerance :=
  if score <? 25 then CONSERVATIVE
  else if score <? 50 then MODERATE
  else if score <? 75 then AGGRESSIVE
  else DEGENERATE.

Definition getMaxPositionRatio (riskScore : Z) : Q :=
  if riskScore <? 25 then 0.1%Q
  else if riskScore <? 50 then 0.2%Q
  else if riskScore <? 75 then 0.4%Q
  else 0.6%Q.

Definition calculateLockPeriodTolerance (riskScore : Z) : Z :=
  if riskScore <? 25 then 7
  else if riskScore <? 50 then 30
  else if riskScore <? 75 then 90
  else 365.

Definition calculateLiquidityRisk (tokenHoldings : list TokenHolding) : Q :=
  let liquidTokens :=
    List.filter (fun token =>
      includes ["USDC"; "USDT"; "DAI"; "WETH"; "UNI"] (symbol token)) tokenHoldings in
  if (0 <? length tokenHoldings)%nat
  then (1 - Qlen liquidTokens / Qlen tokenHoldings)%Q
  else 0%Q.

(** The three portfolio-size branches of the risk score. *)
Definition sizeAdjustment (nativeBalance : Q) (tokenHoldings : list TokenHolding) : Z :=
  if Qgtb (nativeBalance + Qlen tokenHoldings) 100 then 15
  else if Qgtb (nativeBalance + Qlen tokenHoldings) 10 then 10
  else if Qltb (nativeBalance + Qlen tokenHoldings) 1 then -15
  else 0.

Definition stablecoinRatio (tokenHoldings : list TokenHolding)
    (tokenAnalysis : TokenAnalysis) : Q :=
  (Qlen (stablecoins tokenAnalysis)
   / inject_Z (Z.max (Z.of_nat (length tokenHoldings)) 1))%Q.

Definition stablecoinAdjustment (tokenHoldings : list TokenHolding)
    (tokenAnalysis : TokenAnalysis) : Z :=
  if Qgtb (stablecoinRatio tokenHoldings tokenAnalysis) 0.5 then -10
  else if Qltb (stablecoinRatio tokenHoldings tokenAnalysis) 0.1 then 10
  else 0.

Definition assessComprehensiveRisk (nativeBalance : Q)
    (tokenHoldings : list TokenHolding) (tokenAnalysis : TokenAnalysis)
  : WalletRiskProfile :=
  let riskScore := 50 in
  let riskScore := riskScore + sizeAdjustment nativeBalance tokenHoldings in
  let riskScore := riskScore + Z.min (Z.of_nat (length tokenHoldings) * 2) 20 in
  let riskScore := riskScore + stablecoinAdjustment tokenHoldings tokenAnalysis in
  let riskScore :=
    if Qgtb (concentrationRisk tokenAnalysis) 0.5 then riskScore + 15 else riskScore in
  let riskScore := Z.max 0 (Z.min 100 riskScore) in
  let stakingRiskTolerance :=
    if riskScore <? 30 then LOW else if riskScore >? 70 then HIGH else MEDIUM in
  {| riskScore := riskScore;
     riskTolerance := mapRiskScoreToTolerance riskScore;
     maxSinglePosition := (nativeBalance * getMaxPositionRatio riskScore)%Q;
     rp_diversificationLevel := diversificationLevel tokenAnalysis;
     lockPeriodTolerance := calculateLockPeriodTolerance riskScore;
     rp_concentrationRisk := concentrationRisk tokenAnalysis;
     liquidityRisk := calculateLiquidityRisk tokenHoldings;
     stakingRiskTolerance := stakingRiskTolerance |}.

Definition assessLiquidityProfile (tokenHoldings : list TokenHolding)
    (nativeBalance : Q) : LiquidityProfile :=
  let liquidTokens :=
    List.filter (fun token =>
      includes ["USDC"; "USDT"; "DAI"; "WETH"] (symbol token)
      && Qgtb (balance token) 0) tokenHoldings in
  let stakedTokens :=
    List.filter (fun token =>
      includes ["stETH"; "rETH"; "cbETH"] (symbol token)
      && Qgtb (balance token) 0) tokenHoldings in
  let totalValue :=
    (nativeBalance
     + fold_left (fun sum token => sum + balance token) tokenHoldings 0)%Q in
  let liquidityRatio :=
    (Qlen liquidTokens / inject_Z (Z.max (Z.of_nat (length tokenHoldings)) 1))%Q in
  let stakingCapacity :=
    Qmax 0 (totalValue * (1 - Qmax liquidityRatio 0.2))%Q in
  {| liquidityRatio := liquidityRatio;
     withdrawalFrequency := if Qgtb liquidityRatio 0.5 then 4 else 1;
     emergencyBuffer := (totalValue * 0.1)%Q;
     preferredLockPeriods :=
       if Qgtb liquidityRatio 0.3 then [0; 7; 30] else [30; 90; 365];
     liquidAssets := liquidTokens;
     stakedAssets := stakedTokens;
     stakingCapacity := stakingCapacity |}.

(** ** WalletAnalyzer: strategy and recommendations *)

Definition generateStakingStrategy (riskProfile : WalletRiskProfile)
    (liquidityNeeds : LiquidityProfile) (totalBalance : Q) (isTestnet : bool)
  : StakingStrategy :=
  let free := (1 - liquidityRatio liquidityNeeds)%Q in
  let '(recommendedAllocation, preferredProtocols, stakingHorizon, diversificationGoal) :=
    if isTestnet && Qgtb totalBalance 0.01 then (40%Q, [], 90, 1)
    else if negb isTestnet then
      match riskTolerance riskProfile with
      | CONSERVATIVE =>
          (Qmin 40 (free * 60), ["Lido"; "Coinbase Wrapped Staked ETH"], 180, 1)
      | MODERATE =>
          (Qmin 60 (free * 70), ["Lido"; "Rocket Pool"; "Aave"], 365, 2)
      | AGGRESSIVE =>
          (Qmin 80 (free * 85), ["Lido"; "Rocket Pool"; "EigenLayer"; "Aave"], 730, 3)
      | DEGENERATE =>
          (Qmin 90 (free * 95), ["EigenLayer"; "Rocket Pool"; "Radiant"; "Moonwell"],
           1095, 4)
      | UNKNOWN => (30%Q, ["Lido"], 365, 2)
      end
    else (0%Q, [], 365, 2) in
  {| recommendedAllocation := recommendedAllocation;
     preferredProtocols := preferredProtocols;
     ss_riskTolerance := riskTolerance riskProfile;
     liquidityBuffer := (liquidityRatio liquidityNeeds * 100)%Q;
     stakingHorizon := stakingHorizon;
     diversificationGoal := diversificationGoal |}.

(** The earlier variant of the analyzer ([src/wallet-analyzer.ts]), which
    has no testnet mode and adjusts the allocation by portfolio size. *)
Module Earlier.

Definition baseAllocation (riskProfile : WalletRiskProfile)
    (liquidityNeeds : LiquidityProfile) : Q :=
  let free := (1 - liquidityRatio liquidityNeeds)%Q in
  match riskTolerance riskProfile with
  | CONSERVATIVE => Qmin 40 (free * 60)
  | MODERATE => Qmin 60 (free * 70)
  | AGGRESSIVE => Qmin 80 (free * 85)
  | DEGENERATE => Qmin 90 (free * 95)
  | UNKNOWN => 30%Q
  end.

Definition adjustForPortfolioSize (recommendedAllocation totalBalance : Q) : Q :=
  if Qltb totalBalance 1 then Qmax (recommendedAllocation - 20) 10
  else if Qgtb totalBalance 50 then Qmin (recommendedAllocation + 10) 90
  else recommendedAllocation.

Definition generateStakingStrategy (riskProfile : WalletRiskProfile)
    (liquidityNeeds : LiquidityProfile) (totalBalance : Q) : StakingStrategy :=
  let '(preferredProtocols, stakingHorizon, diversificationGoal) :=
    match riskTolerance riskProfile with
    | CONSERVATIVE => (["Lido"; "Coinbase Wrapped Staked ETH"], 180, 1)
    | MODERATE => (["Lido"; "Rocket Pool"; "Aave"], 365, 2)
    | AGGRESSIVE => (["Lido"; "Rocket Pool"; "EigenLayer"; "Aave"], 730, 3)
    | DEGENERATE => (["EigenLayer"; "Rocket Pool"; "Radiant"; "Moonwell"], 1095, 4)
    | UNKNOWN => (["Lido"], 365, 2)
    end in
  {| recommendedAllocation :=
       adjustForPortfolioSize (baseAllocation riskProfile liquidityNeeds) totalBalance;
     preferredProtocols := preferredProtocols;
     ss_riskTolerance := riskTolerance riskProfile;
     liquidityBuffer := (liquidityRatio liquidityNeeds * 100)%Q;
     stakingHorizon := stakingHorizon;
     diversificationGoal := diversificationGoal |}.

End Earlier.

(** The callback of the three [filter] calls on staking options. *)
Definition riskCompatible (tolerance : RiskTolerance) (option : StakingOption) : bool :=
  match tolerance with
  | CONSERVATIVE => Level_eqb (riskLevel option) LOW
  | MODERATE => negb (Level_eqb (riskLevel option) HIGH)
  | _ => true
  end.

(** [options[0]?.expectedApr || 3.2] *)
Definition firstAprOr (options : list StakingOption) : Q :=
  match options with
  | o :: _ => if Qeq_bool (expectedApr o) 0 then 3.2%Q else expectedApr o
  | [] => 3.2%Q
  end.

(** The body of the [Object.entries(nativeBalances).forEach] callback. *)
Definition ethRecommendation (strategy : StakingStrategy) (testnetOnly : bool)
    (entry : string * Q) : list StakingRecommendation :=
  let '(chainName, ethBalance) := entry in
  let isTestnet := isTestnetChain chainName in
  if testnetOnly && negb isTestnet then []
  else if negb testnetOnly && isTestnet then []
  else
    let minThreshold := (if isTestnet then 0.01 else 0.1)%Q in
    if Qgtb ethBalance minThreshold then
      let recommendedEthAmount :=
        (if isTestnet then ethBalance * 0.4
         else ethBalance * (recommendedAllocation strategy / 100))%Q in
      let minRecommendation := (if isTestnet then 0.005 else 0.05)%Q in
      if Qgeb recommendedEthAmount minRecommendation then
        let ethOptions :=
          List.filter (riskCompatible (ss_riskTolerance strategy))
            (if isTestnet then TESTNET_ETH_STAKING_OPTIONS else ETH_STAKING_OPTIONS) in
        if (0 <? length ethOptions)%nat then
          [ {| recommendedAmount := toFixed6 recommendedEthAmount;
               token := "ETH";
               options := ethOptions;
               expectedReturn :=
                 toFixed6 (recommendedEthAmount * firstAprOr ethOptions / 100)%Q;
               priority :=
                 if Qgtb ethBalance 5 then HIGH
                 else if Qgtb ethBalance 1 then MEDIUM else LOW;
               sr_isTestnet := isTestnet |} ]
        else []
      else []
    else [].

Definition isStakeableToken (testnetOnly : bool) (token : TokenHolding) : bool :=
  let hasBalance := Qgtb (balance token) 0 in
  let isStakeable := isStakeable token && (0 <? length (stakingOptions token))%nat in
  if testnetOnly then isTestnet token && hasBalance && isStakeable
  else hasBalance && isStakeable && negb (isTestnet token).

(** The body of the [for (const token of stakeableTokens)] loop. *)
Definition tokenRecommendation (strategy : StakingStrategy) (token : TokenHolding)
  : list StakingRecommendation :=
  let balance := balance token in
  let minStakeAmount :=
    match stakingOptions token with
    | o :: _ => minAmount o
    | [] => 0%Q
    end in
  let minRecommendAmount := (if isTestnet token then 1.0 else 50)%Q in
  if Qgtb balance (Qmax minStakeAmount 0.1) && Qgeb balance minRecommendAmount then
    let recommendedAmount := (balance * 0.7)%Q in
    let suitableOptions :=
      List.filter (riskCompatible (ss_riskTolerance strategy)) (stakingOptions token) in
    match suitableOptions with
    | first :: _ =>
        [ {| recommendedAmount := toFixed6 recommendedAmount;
             token := symbol token;
             options := suitableOptions;
             expectedReturn :=
               toFixed6 (recommendedAmount * (expectedApr first / 100))%Q;
             priority :=
               if Qgtb balance 1000 then HIGH
               else if Qgtb balance 100 then MEDIUM else LOW;
             sr_isTestnet := isTestnet token |} ]
    | [] => []
    end
  else [].

Definition priorityOrder (p : Level) : Z :=
  match p with HIGH => 3 | MEDIUM => 2 | LOW => 1 end.

Definition generateRealStakingRecommendations (nativeBalances : NativeBalances)
    (tokenHoldings : list TokenHolding) (strategy : StakingStrategy)
    (riskProfile : WalletRiskProfile) (testnetOnly : bool)
  : list StakingRecommendation :=
  let ethRecommendations :=
    flat_map (ethRecommendation strategy testnetOnly) nativeBalances in
  let stakeableTokens := List.filter (isStakeableToken testnetOnly) tokenHoldings in
  let tokenRecommendations := flat_map (tokenRecommendation strategy) stakeableTokens in
  stable_sort
    (fun a b => priorityOrder (priority b) - priorityOrder (priority a) <? 0)
    (ethRecommendations ++ tokenRecommendations).

(** ** WalletAnalyzer: the orchestrator *)

Definition isSpace (c : ascii) : bool :=
  match nat_of_ascii c with
  | 9%nat | 10%nat | 11%nat | 12%nat | 13%nat | 32%nat => true
  | _ => false
  end.

Definition isHexDigit (c : ascii) : bool :=
  let n := nat_of_ascii c in
  ((48 <=? n) && (n <=? 57) || (65 <=? n) && (n <=? 70)
   || (97 <=? n) && (n <=? 102))%nat.

Fixpoint dropSpaces (l : list ascii) : list ascii :=
  match l with
  | c :: rest => if isSpace c then dropSpaces rest else l
  | [] => []
  end.

(** [String.prototype.trim] on ASCII white space. *)
Definition trim (s : string) : list ascii :=
  rev (dropSpaces (rev (dropSpaces (list_ascii_of_string s)))).

Definition normalizePrivateKey (privateKey : string) : option string :=
  let cleanKey := trim privateKey in
  let cleanKey :=
    match cleanKey with
    | "0"%char :: "x"%char :: rest => rest
    | _ => cleanKey
    end in
  if negb (length cleanKey =? 64)%nat then None
  else if negb (forallb isHexDigit cleanKey) then None
  else Some ("0x" +:+ string_of_list_ascii cleanKey).

(** The two caches of the analyzer object and the one runtime setting the
    analysis reads and writes. *)
Record State : Type := {
  analysisCache : Cache.t WalletAnalysis;
  balanceCache : Cache.t (list TokenBalanceData);
  EVM_PRIVATE_KEY : option string;
}.

(** [new WalletAnalyzer()] on a runtime with the given key setting. *)
Definition initialState (key : option string) : State :=
  {| analysisCache := Cache.new (10 * 60 * 1000);
     balanceCache := Cache.new (5 * 60 * 1000);
     EVM_PRIVATE_KEY := key |}.

Definition withAnalysisCache (st : State) (c : Cache.t WalletAnalysis) : State :=
  {| analysisCache := c; balanceCache := balanceCache st;
     EVM_PRIVATE_KEY := EVM_PRIVATE_KEY st |}.

Definition withBalanceCache (st : State) (c : Cache.t (list TokenBalanceData)) : State :=
  {| analysisCache := analysisCache st; balanceCache := c;
     EVM_PRIVATE_KEY := EVM_PRIVATE_KEY st |}.

Definition validateEvmConfigurationStrict (st : State) : result unit * State :=
  match EVM_PRIVATE_KEY st with
  | None | Some "" =>
      (Err "EVM_PRIVATE_KEY not found in runtime settings. Please configure EVM_PRIVATE_KEY environment variable.",
       st)
  | Some evmPrivateKey =>
      match normalizePrivateKey evmPrivateKey with
      | None =>
          (Err "Invalid EVM_PRIVATE_KEY format. Must be 64 character hex string (with or without 0x prefix).",
           st)
      | Some fixedKey =>
          (Ok tt,
           {| analysisCache := analysisCache st; balanceCache := balanceCache st;
              EVM_PRIVATE_KEY := Some fixedKey |})
      end
  end.

(** The retry loop of [initWalletProviderWithRetry]: [remaining] attempts
    are left and the next one is number [attempt]. *)
Fixpoint initAttempts (init : nat -> result WalletProvider) (remaining attempt : nat)
    (lastError : string) : result WalletProvider :=
  match remaining with
  | O => Err ("Failed to initialize wallet provider after 3 attempts: " +:+ lastError)
  | S remaining' =>
      match init attempt with
      | Ok provider => Ok provider
      | Err m => initAttempts init remaining' (S attempt) m
      end
  end.

Definition initWalletProviderWithRetry (init : nat -> result WalletProvider)
  : result WalletProvider :=
  initAttempts init 3 1 "".

(** One pass of the loop body of [getTokenBalancesWithRetry]: the fetch
    races a timer.  A cache hit resolves at once; a fetch that loses the
    race is abandoned after its initial cache lookup. *)
Definition fetchOnce (now : Z) (env : Env) (walletProvider : WalletProvider)
    (address : string) (testnetOnly : bool) (attempt : nat)
    (c : Cache.t (list TokenBalanceData))
  : result (list TokenBalanceData) * Cache.t (list TokenBalanceData) :=
  match Cache.get now (balancesCacheKey address testnetOnly) c with
  | (Some cached, c') => (Ok cached, c')
  | (None, c') =>
      if fetchTimesOut env attempt then (Err "Token balance fetch timeout", c')
      else
        let '(tokenBalances, c'') :=
          getTokenBalances now env walletProvider address testnetOnly c in
        (Ok tokenBalances, c'')
  end.

Fixpoint fetchAttempts (now : Z) (env : Env) (walletProvider : WalletProvider)
    (address : string) (testnetOnly : bool) (remaining attempt : nat)
    (lastError : string) (c : Cache.t (list TokenBalanceData))
  : result (list TokenBalanceData) * Cache.t (list TokenBalanceData) :=
  match remaining with
  | O => (Err ("Failed to fetch token balances after 3 attempts: " +:+ lastError), c)
  | S remaining' =>
      match fetchOnce now env walletProvider address testnetOnly attempt c with
      | (Ok tokenBalances, c') => (Ok tokenBalances, c')
      | (Err m, c') =>
          fetchAttempts now env walletProvider address testnetOnly remaining'
            (S attempt) m c'
      end
  end.

Definition getTokenBalancesWithRetry (now : Z) (env : Env)
    (walletProvider : WalletProvider) (address : string) (testnetOnly : bool)
    (c : Cache.t (list TokenBalanceData))
  : result (list TokenBalanceData) * Cache.t (list TokenBalanceData) :=
  fetchAttempts now env walletProvider address testnetOnly 3 1 "" c.

(** Everything [performComprehensiveAnalysisWithStaking] computes once the
    per-chain snapshots are there. *)
Definition buildAnalysis (address : string) (testnetOnly : bool)
    (tokenBalances : list TokenBalanceData) : WalletAnalysis :=
  let allTokenHoldings := flat_map tokenHoldings tokenBalances in
  let nativeBalances :=
    fold_left (fun acc chain => record_set (tb_chainName chain) (nativeBalance chain) acc)
      tokenBalances [] in
  let totalNativeBalance :=
    fold_left (fun sum entry => sum + snd entry)%Q nativeBalances 0%Q in
  let currentStakingPositions :=
    List.filter (fun token =>
      includes ["stETH"; "rETH"; "cbETH"; "sfrxETH"] (symbol token)
      && Qgtb (balance token) 0) allTokenHoldings in
  let tokenAnalysis := analyzeTokenHoldings allTokenHoldings in
  let diversificationScore :=
    calculateDiversificationScore allTokenHoldings nativeBalances in
  let riskProfile :=
    assessComprehensiveRisk totalNativeBalance allTokenHoldings tokenAnalysis in
  let liquidityNeeds := assessLiquidityProfile allTokenHoldings totalNativeBalance in
  let stakingStrategy :=
    generateStakingStrategy riskProfile liquidityNeeds totalNativeBalance testnetOnly in
  let stakingRecommendations :=
    generateRealStakingRecommendations nativeBalances allTokenHoldings
      stakingStrategy riskProfile testnetOnly in
  {| wa_address := address;
     totalBalance := totalNativeBalance;
     wa_tokenHoldings := allTokenHoldings;
     nativeBalances := nativeBalances;
     diversificationScore := diversificationScore;
     stakingRecommendations := stakingRecommendations;
     currentStakingPositions := currentStakingPositions;
     tokenAnalysis := tokenAnalysis;
     riskProfile := riskProfile;
     stakingStrategy := stakingStrategy;
     liquidityNeeds := liquidityNeeds |}.

Definition performComprehensiveAnalysisWithStaking (now : Z) (env : Env)
    (address : string) (testnetOnly : bool) (st : State)
  : result WalletAnalysis * State :=
  match initWalletProvider env with
  | None => (Err "EVM plugin not available - cannot perform wallet analysis", st)
  | Some init =>
      match validateEvmConfigurationStrict st with
      | (Err m, st1) => (Err m, st1)
      | (Ok _, st1) =>
          match initWalletProviderWithRetry init with
          | Err m => (Err ("Wallet provider initialization failed: " +:+ m), st1)
          | Ok walletProvider =>
              match getTokenBalancesWithRetry now env walletProvider address
                      testnetOnly (balanceCache st1) with
              | (Err m, c) => (Err m, withBalanceCache st1 c)
              | (Ok tokenBalances, c) =>
                  (Ok (buildAnalysis address testnetOnly tokenBalances),
                   withBalanceCache st1 c)
              end
          end
      end
  end.

Definition analysisCacheKey (address : string) (testnetOnly : bool) : string :=
  address +:+ "_analysis_" +:+ (if testnetOnly then "testnet" else "all").

Definition analyzeWallet (now : Z) (env : Env) (address : string)
    (testnetOnly : bool) (st : State) : result WalletAnalysis * State :=
  let cacheKey := analysisCacheKey address testnetOnly in
  match Cache.get now cacheKey (analysisCache st) with
  | (Some cached, c) => (Ok cached, withAnalysisCache st c)
  | (None, c) =>
      match performComprehensiveAnalysisWithStaking now env address testnetOnly
              (withAnalysisCache st c) with
      | (Ok analysis, st') =>
          (Ok analysis,
           withAnalysisCache st' (Cache.set now cacheKey analysis (analysisCache st')))
      | (Err m, st') => (Err ("Failed to analyze wallet: " +:+ m), st')
      end
  end.

(** ** Sums used to state the bounds on the concentration risk *)

Fixpoint sumBalances (l : list TokenHolding) : Q :=
  match l with
  | [] => 0%Q
  | t :: rest => (balance t + sumBalances rest)%Q
  end.


(** ** Runs of the analyzer *)

(** The states an analyzer object can be in: the one [new WalletAnalyzer()]
    creates, and the one any call of [analyzeWallet] leaves behind. *)
Inductive reachable : State -> Prop :=
| reach_new (key : option string) : reachable (initialState key)
| reach_call (st : State) (now : Z) (env : Env) (address : string)
    (testnetOnly : bool) :
    reachable st -> reachable (snd (analyzeWallet now env address testnetOnly st)).

(** The run gets a wallet provider: the plugin is loaded, the key setting
    is well formed and one of the three initialisation attempts succeeds. *)
Definition ready (env : Env) (st : State) (walletProvider : WalletProvider) : Prop :=
  exists init evmPrivateKey fixedKey,
    initWalletProvider env = Some init /\
    initWalletProviderWithRetry init = Ok walletProvider /\
    EVM_PRIVATE_KEY st = Some evmPrivateKey /\ evmPrivateKey <> "" /\
    normalizePrivateKey evmPrivateKey = Some fixedKey.

(** One of the three balance fetches beats its timer. *)
Definition fetchCompletes (env : Env) : Prop :=
  fetchTimesOut env 1 = false \/ fetchTimesOut env 2 = false
  \/ fetchTimesOut env 3 = false.

(** Neither cache serves the request at time [now]. *)
Definition uncached (now : Z) (address : string) (testnetOnly : bool) (st : State)
  : Prop :=
  fst (Cache.get now (analysisCacheKey address testnetOnly) (analysisCache st)) = None /\
  fst (Cache.get now (balancesCacheKey address testnetOnly) (balanceCache st)) = None.

(** The account holds nothing: every client the run can obtain answers
    zero to the native balance query and to every token balance query. *)
Definition holdsNothing (env : Env) (walletProvider : WalletProvider)
    (address : string) : Prop :=
  forall chain client,
    clientFor env walletProvider chain = Ok client ->
    getBalance client address = Some 0 /\
    forall tokenAddress, readContract client tokenAddress address = Some 0.


(** The snapshot of a testnet chain on which nothing is held. *)
Definition zeroSnapshot (address chain : string) : TokenBalanceData :=
  {| tb_address := address; tb_chainName := chain; nativeBalance := formatUnits 0 18;
     tokenHoldings := []; tb_isTestnet := true |}.

(** The dust threshold of a chain. *)
Definition dustThreshold (chainName : string) : Q :=
  if isTestnetChain chainName then 0.00001%Q else 0.001%Q.

(** A snapshot that lies wholly on a testnet chain. *)
Definition testnetSnapshot (d : TokenBalanceData) : Prop :=
  isTestnetChain (tb_chainName d) = true /\
  forall h, In h (tokenHoldings d) ->
            isTestnetChain (chainName h) = true /\ isTestnet h = true.

(** What the [testnetOnly] flag guarantees about an analysis: the
    recommendations are all of the requested kind, and in testnet mode so
    are the native balances and the holdings. *)
Definition partitioned (testnetOnly : bool) (a : WalletAnalysis) : Prop :=
  (forall rec, In rec (stakingRecommendations a) -> sr_isTestnet rec = testnetOnly) /\
  (testnetOnly = true ->
   (forall chainName b, In (chainName, b) (nativeBalances a) ->
                        isTestnetChain chainName = true) /\
   (forall h, In h (wa_tokenHoldings a) ->
              isTestnetChain (chainName h) = true /\ isTestnet h = true)).

(** Every entry of a cache satisfies [P] (of its key and its value). *)
Definition cache_all {T : Type} (P : string -> T -> Prop) (c : Cache.t T) : Prop :=
  forall k item, Cache.cache c !! k = Some item -> P k (Cache.data item).

Definition partitionedAt (k : string) (a : WalletAnalysis) : Prop :=
  forall address testnetOnly,
    k = analysisCacheKey address testnetOnly -> partitioned testnetOnly a.

Definition testnetAt (k : string) (tokenBalances : list TokenBalanceData) : Prop :=
  forall address, k = balancesCacheKey address true ->
                  Forall testnetSnapshot tokenBalances.

Definition cachesPartitioned (st : State) : Prop :=
  cache_all partitionedAt (analysisCache st) /\ cache_all testnetAt (balanceCache st).

Fixpoint lastChar (s : string) : option ascii :=
  match s with
  | EmptyString => None
  | String c rest =>
      match lastChar rest with
      | Some x => Some x
      | None => Some c
      end
  end.

(** ** Example worlds *)

Definition demoAddress : string := "0x742d35Cc6634C0532925a3b844Bc454e4438f44e".

Definition demoKey : string :=
  "0x4c0883a69102937d6231471b5dbb6204fe5129617082792ae468d01a3f362318".

(** A reachable chain on which the account holds nothing. *)
Definition idleClient : PublicClient :=
  {| getBalance := fun _ => Some 0; readContract := fun _ _ => Some 0 |}.

(** A chain none of whose queries gets an answer. *)
Definition downClient : PublicClient :=
  {| getBalance := fun _ => None; readContract := fun _ _ => None |}.

(** A chain on which the account holds [wei] of the native currency and no
    tokens. *)
Definition fundedClient (wei : Z) : PublicClient :=
  {| getBalance := fun _ => Some wei; readContract := fun _ _ => Some 0 |}.

Definition providerOf (chains : list string) (clients : string -> PublicClient)
  : WalletProvider :=
  {| getAddress := demoAddress;
     getSupportedChains := Some chains;
     getPublicClient := fun chainName => Some (clients chainName) |}.

Definition worldOf (chains : list string) (clients : string -> PublicClient) : Env :=
  {| initWalletProvider := Some (fun _ => Ok (providerOf chains clients));
     rpc := clients;
     fetchTimesOut := fun _ => false |}.

(** Nothing is held anywhere. *)
Definition idleWorld : Env :=
  worldOf ["mainnet"; "base"; "arbitrum"; "polygon"] (fun _ => idleClient).

(** No chain answers. *)
Definition downWorld : Env :=
  worldOf ["mainnet"; "base"; "arbitrum"; "polygon"] (fun _ => downClient).


(** The provider is configured for mainnet and Sepolia, and the account
    holds one Sepolia ether. *)
Definition sepoliaClients (chainName : string) : PublicClient :=
  if String.eqb chainName "sepolia" then fundedClient 1000000000000000000
  else idleClient.

Definition sepoliaProvider : WalletProvider :=
  providerOf ["mainnet"; "sepolia"] sepoliaClients.

Definition sepoliaWorld : Env := worldOf ["mainnet"; "sepolia"] sepoliaClients.

(** ** Notions used by the further properties *)

(** The recommendations in the order the generator finds them, before it
    sorts them: the native ones chain by chain, then the token ones. *)
Definition discoveredRecommendations (nativeBalances : NativeBalances)
    (tokenHoldings : list TokenHolding) (strategy : StakingStrategy)
    (testnetOnly : bool) : list StakingRecommendation :=
  flat_map (ethRecommendation strategy testnetOnly) nativeBalances
  ++ flat_map (tokenRecommendation strategy)
       (List.filter (isStakeableToken testnetOnly) tokenHoldings).

(** What the caches of a reachable analyzer hold: under the key of a
    request, what the pipeline computed for that request from some
    observation of the chains. *)
Definition observedAt (k : string) (tokenBalances : list TokenBalanceData) : Prop :=
  exists address testnetOnly env walletProvider,
    k = balancesCacheKey address testnetOnly /\
    tokenBalances = aggregate env walletProvider address testnetOnly.

Definition builtAt (k : string) (a : WalletAnalysis) : Prop :=
  exists address testnetOnly env walletProvider,
    k = analysisCacheKey address testnetOnly /\
    a = buildAnalysis address testnetOnly
          (aggregate env walletProvider address testnetOnly).

(** ** Validator *)

(** Texts are byte strings; the patterns below only look at ASCII
    characters. *)

Fixpoint startsWith (p l : list ascii) : bool :=
  match p, l with
  | [], _ => true
  | a :: p', b :: l' => Ascii.eqb a b && startsWith p' l'
  | _ :: _, [] => false
  end.

(** [0x[a-fA-F0-9]{40}] matches at the head of the text: the two literal
    characters, then forty hexadecimal digits. *)
Definition addressAtHead (l : list ascii) : bool :=
  startsWith ["0"; "x"]%char l
  && (42 <=? length l)%nat
  && forallb isHexDigit (firstn 40 (skipn 2 l)).

(** [text.match(/0x[a-fA-F0-9]{40}/)]: the leftmost match. *)
Fixpoint matchAddress (l : list ascii) : option (list ascii) :=
  match l with
  | [] => None
  | _ :: rest => if addressAtHead l then Some (firstn 42 l) else matchAddress rest
  end.

Definition toLowerChar (c : ascii) : ascii :=
  let n := nat_of_ascii c in
  if ((65 <=? n) && (n <=? 90))%nat then ascii_of_nat (n + 32) else c.


Definition toLowerCase (s : string) : string :=
  string_of_list_ascii (map toLowerChar (list_ascii_of_string s)).


Fixpoint occursIn (p l : list ascii) : bool :=
  startsWith p l
  || match l with
     | [] => false
     | _ :: rest => occursIn p rest
     end.

(** [String.prototype.includes] *)
Definition textIncludes (text part : string) : bool :=
  occursIn (list_ascii_of_string part) (list_ascii_of_string text).

Module Validator.

Definition extractWalletAddress (text : string) : option string :=
  option_map string_of_list_ascii (matchAddress (list_ascii_of_string text)).

(** [/^0x[a-fA-F0-9]{40}$/]: the match at the head is the whole text. *)
Definition isValidAddress (address : string) : bool :=
  let l := list_ascii_of_string address in
  addressAtHead l && (length l =? 42)%nat.

Definition isTestnetRequest (text : string) : bool :=
  let lowerText := toLowerCase text in
  textIncludes lowerText "testnet"
  || textIncludes lowerText "sepolia"
  || textIncludes lowerText "goerli"
  || textIncludes lowerText "mumbai"
  || textIncludes lowerText "test "
  || textIncludes lowerText "testing".

End Validator.

(** ** WalletAnalyzer: the provider entry point *)

Module WalletAnalyzer.

(** [get] on a message whose text is [text] ([None] when the message has
    none).  The result is the [data] field of the provider result; its
    [text] and [values] fields are renderings of it. *)
Definition get (now : Z) (env : Env) (text : option string) (st : State)
  : result WalletAnalysis * State :=
  let text := match text with Some t => t | None => "" end in
  match Validator.extractWalletAddress text with
  | None => (Err "Invalid wallet address provided", st)
  | Some walletAddress =>
      if negb (Validator.isValidAddress walletAddress)
      then (Err "Invalid wallet address provided", st)
      else analyzeWallet now env walletAddress (Validator.isTestnetRequest text) st
  end.

End WalletAnalyzer.

(** ** WalletAnalyzer: asset preferences *)






(** ** The analysis action: personalised scoring, insights and warnings *)

Module Action.

Inductive UrgencyLevel : Type :=
  Urgency_LOW | Urgency_MEDIUM | Urgency_HIGH | Urgency_CRITICAL.

(** The prose field [compatibilityReason] is left out. *)
Record EnhancedStakingRecommendation : Type := {
  recommendation : StakingRecommendation;
  personalizedScore : Q;
  urgencyLevel : UrgencyLevel;
}.

Definition getRiskAlignment (rec : StakingRecommendation)
    (riskProfile : WalletRiskProfile) : Q :=
  let recRisk :=
    match options rec with
    | o :: _ => riskLevel o
    | [] => MEDIUM
    end in
  let userRisk := stakingRiskTolerance riskProfile in
  if Level_eqb recRisk userRisk then 1%Q
  else
    match recRisk, userRisk with
    | LOW, MEDIUM | MEDIUM, HIGH | MEDIUM, LOW => 0.7%Q
    | _, _ => 0.3%Q
    end.

Definition getAssetPreferenceMatch (rec : StakingRecommendation)
    (analysis : WalletAnalysis) : Q :=
  let hasToken :=
    existsb (fun holding => String.eqb (symbol holding) (token rec))
      (wa_tokenHoldings analysis) in
  let tokenAmount :=
    List.find (fun holding => String.eqb (symbol holding) (token rec))
      (wa_tokenHoldings analysis) in
  if negb hasToken then 0%Q
  else
    match tokenAmount with
    | Some holding =>
        if Qgtb (balance holding) (recommendedAmount rec) then 1%Q else 0.5%Q
    | None => 0.5%Q
    end.

Definition getLiquidityMatch (rec : StakingRecommendation)
    (analysis : WalletAnalysis) : Q :=
  let lockPeriod :=
    match options rec with
    | o :: _ => match lockPeriod o with Some days => days | None => 0 end
    | [] => 0
    end in
  let tolerance := lockPeriodTolerance (riskProfile analysis) in
  if lockPeriod =? 0 then 1%Q
  else if lockPeriod <=? tolerance then 0.8%Q
  else if lockPeriod <=? tolerance * 2 then 0.4%Q
  else 0.1%Q.

Definition calculatePersonalizedScore (rec : StakingRecommendation)
    (analysis : WalletAnalysis) : Q :=
  let score := 50%Q in
  let score := (score + getRiskAlignment rec (riskProfile analysis) * 20)%Q in
  let score := (score + getAssetPreferenceMatch rec analysis * 15)%Q in
  let score := (score + getLiquidityMatch rec analysis * 15)%Q in
  let score := (score + Qmin (expectedReturn rec * 2) 10)%Q in
  let score := if sr_isTestnet rec then (score + 5)%Q else score in
  Qmin (Qmax score 0) 100.

(** The callback of [analysis.stakingRecommendations.map] in the handler. *)
Definition enhance (analysis : WalletAnalysis) (rec : StakingRecommendation)
  : EnhancedStakingRecommendation :=
  let score := calculatePersonalizedScore rec analysis in
  {| recommendation := rec;
     personalizedScore := score;
     urgencyLevel :=
       if Qgtb score 80 then Urgency_HIGH
       else if Qgtb score 60 then Urgency_MEDIUM
       else Urgency_LOW |}.

(** The handler's enhanced recommendations, best score first. *)
Definition enhancedRecommendations (analysis : WalletAnalysis)
  : list EnhancedStakingRecommendation :=
  stable_sort (fun a b => Qltb (personalizedScore b - personalizedScore a) 0)
    (map (enhance analysis) (stakingRecommendations analysis)).

(** The insights and the warnings, named after what their sentences say. *)
Inductive Insight : Type :=
| LargeHoldings | GoodStartingBalance | TestnetPractice
| LowDiversification | ExcellentDiversification
| TestnetStablecoins | StablecoinYield
| BlueChipFocus | RestakingOpportunities
| MultiChainPresence
| TestnetActivity | TestnetExperience.

Inductive RiskWarning : Type :=
| HighConcentration | LimitedLiquidity | LowLockTolerance
| SmallPortfolio | GasCosts
| TestnetNoValue | TestnetResets | TestnetRpc.

Definition generateActionableInsights (analysis : WalletAnalysis) : list Insight :=
  let hasTestnetTokens := existsb isTestnet (wa_tokenHoldings analysis) in
  let totalBalance := totalBalance analysis in
  let stablecoins :=
    List.filter (fun holding => includes ["USDC"; "USDT"; "DAI"] (symbol holding))
      (wa_tokenHoldings analysis) in
  let chainCount := length (keys (nativeBalances analysis)) in
  (if Qgtb totalBalance 5 then [LargeHoldings]
   else if Qgtb totalBalance 0.1 then [GoodStartingBalance]
   else if hasTestnetTokens then [TestnetPractice]
   else [])
  ++ (if diversificationScore analysis <? 30 then [LowDiversification]
      else if diversificationScore analysis >? 70 then [ExcellentDiversification]
      else [])
  ++ (if (0 <? length stablecoins)%nat then
        if (0 <? length (List.filter isTestnet stablecoins))%nat
        then [TestnetStablecoins] else [StablecoinYield]
      else [])
  ++ match riskTolerance (riskProfile analysis) with
     | CONSERVATIVE => [BlueChipFocus]
     | AGGRESSIVE => [RestakingOpportunities]
     | _ => []
     end
  ++ (if (2 <? chainCount)%nat then [MultiChainPresence] else [])
  ++ (if hasTestnetTokens then [TestnetActivity; TestnetExperience] else []).

Definition generateRiskWarnings (analysis : WalletAnalysis) : list RiskWarning :=
  let hasTestnetTokens := existsb isTestnet (wa_tokenHoldings analysis) in
  let totalBalance := totalBalance analysis in
  (if Qgtb (rp_concentrationRisk (riskProfile analysis)) 0.7
   then [HighConcentration] else [])
  ++ (if Qgtb (liquidityRisk (riskProfile analysis)) 0.6
      then [LimitedLiquidity] else [])
  ++ (if lockPeriodTolerance (riskProfile analysis) <? 30
      then [LowLockTolerance] else [])
  ++ (if Qltb totalBalance 0.1 && negb hasTestnetTokens
      then [SmallPortfolio] else [])
  ++ (if Qltb totalBalance 1 && (5 <? length (wa_tokenHoldings analysis))%nat
      then [GasCosts] else [])
  ++ (if hasTestnetTokens then [TestnetNoValue; TestnetResets; TestnetRpc] else []).

End Action.

(** * Properties *)

Section CacheFacts.
Context {T : Type}.
Implicit Types (c : Cache.t T) (k : string) (v : T).

Lemma get_absent now k c :
  Cache.cache c !! k = None -> Cache.get now k c = (None, c).
Proof. intros H. unfold Cache.get. by rewrite H. Qed.

Lemma get_expired now k c item :
  Cache.cache c !! k = Some item ->
  now - Cache.timestamp item > Cache.ttl c ->
  Cache.get now k c =
  (None, {| Cache.cache := delete k (Cache.cache c); Cache.ttl := Cache.ttl c |}).
Proof.
  intros H Hage. unfold Cache.get. rewrite H.
  destruct (Z.gtb_spec (now - Cache.timestamp item) (Cache.ttl c)); [done | lia].
Qed.

Lemma get_fresh now k c item :
  Cache.cache c !! k = Some item ->
  now - Cache.timestamp item <= Cache.ttl c ->
  Cache.get now k c = (Some (Cache.data item), c).
Proof.
  intros H Hage. unfold Cache.get. rewrite H.
  destruct (Z.gtb_spec (now - Cache.timestamp item) (Cache.ttl c)); [lia | done].
Qed.

Lemma get_ttl now k c : Cache.ttl (snd (Cache.get now k c)) = Cache.ttl c.
Proof.
  unfold Cache.get. destruct (Cache.cache c !! k) as [item|]; [|done].
  by destruct (_ >? _).
Qed.

Lemma get_other now k k' c :
  k <> k' ->
  Cache.cache (snd (Cache.get now k c)) !! k' = Cache.cache c !! k'.
Proof.
  intros Hne. unfold Cache.get. destruct (Cache.cache c !! k) as [item|]; [|done].
  destruct (_ >? _); [|done]. simpl. by rewrite lookup_delete_ne.
Qed.

Lemma get_none_lookup now k c c' :
  Cache.get now k c = (None, c') -> Cache.cache c' !! k = None.
Proof.
  unfold Cache.get. destruct (Cache.cache c !! k) as [item|] eqn:E.
  - destruct (_ >? _); [|done]. intros [= <-]. simpl. apply lookup_delete_eq.
  - by intros [= <-].
Qed.

Lemma get_some_same now k c c' v :
  Cache.get now k c = (Some v, c') -> c' = c.
Proof.
  unfold Cache.get. destruct (Cache.cache c !! k) as [item|]; [|done].
  destruct (_ >? _); [done|]. by intros [= _ <-].
Qed.

End CacheFacts.

(** C8. Lazy expiry of the TTL cache: a [get] on an entry older than the TTL
    deletes it and returns absent; a [get] within the TTL of the latest
    [set] returns exactly the value set last and leaves the cache as it is;
    and no operation of the class removes an entry except a [get] on that
    very key finding it expired (there is no sweep and no eviction). *)
Theorem cache_lazy_expiry {T : Type} (c : Cache.t T) (k : string) :
  (forall now item,
      Cache.cache c !! k = Some item ->
      now - Cache.timestamp item > Cache.ttl c ->
      fst (Cache.get now k c) = None /\
      Cache.cache (snd (Cache.get now k c)) = delete k (Cache.cache c)) /\
  (forall t0 now v,
      now - t0 <= Cache.ttl c ->
      Cache.get now k (Cache.set t0 k v c) = (Some v, Cache.set t0 k v c)) /\
  (forall now o k',
      is_Some (Cache.cache c !! k') ->
      Cache.cache (Cache.step now o c) !! k' = None ->
      o = Cache.OpGet k' /\ Cache.expired now k' c).
Proof.
  split; [|split].
  - intros now item Hk Hage. by rewrite (get_expired now k c item Hk Hage).
  - intros t0 now v Hage.
    apply (get_fresh now k _ {| Cache.data := v; Cache.timestamp := t0 |}).
    + simpl. apply lookup_insert_eq.
    + simpl. lia.
  - intros now o k' [item Hk'] Hgone. destruct o as [k0|k0 v]; simpl in Hgone.
    + destruct (decide (k0 = k')) as [->|Hne].
      * split; [done|]. exists item. split; [done|].
        unfold Cache.get in Hgone. rewrite Hk' in Hgone.
        destruct (Z.gtb_spec (now - Cache.timestamp item) (Cache.ttl c)); [lia|].
        simpl in Hgone. congruence.
      * rewrite get_other in Hgone by done. congruence.
    + destruct (decide (k0 = k')) as [->|Hne].
      * rewrite lookup_insert_eq in Hgone. done.
      * rewrite lookup_insert_ne in Hgone by done. congruence.
Qed.

(** An expired read, a fresh read and the only removal of a key, on a cache
    with a 5 minute TTL. *)
Lemma cache_lazy_expiry_witness :
  let c := Cache.set 1000 "k" 7%nat (Cache.new 300000) in
  (fst (Cache.get 400000 "k" c) = None /\
   Cache.cache (snd (Cache.get 400000 "k" c)) = delete "k" (Cache.cache c)) /\
  Cache.get 300500 "k" (Cache.set 500 "k" 8%nat c)
    = (Some 8%nat, Cache.set 500 "k" 8%nat c) /\
  (@Cache.OpGet nat "k" = Cache.OpGet "k" /\ Cache.expired 400000 "k" c).
Proof.
  intros c.
  destruct (cache_lazy_expiry c "k") as (Hexp & Hfresh & Honly).
  split; [|split].
  - apply (Hexp 400000 {| Cache.data := 7%nat; Cache.timestamp := 1000 |}).
    + reflexivity.
    + simpl. lia.
  - apply (Hfresh 500 300500 8%nat). simpl. lia.
  - apply (Honly 400000 (Cache.OpGet "k") "k").
    + exists {| Cache.data := 7%nat; Cache.timestamp := 1000 |}. reflexivity.
    + reflexivity.
Defined.

(** ** Comparisons on rationals *)

Lemma Qgtb_true a b : Qgtb a b = true <-> (b < a)%Q.
Proof.
  unfold Qgtb. rewrite negb_true_iff, <- not_true_iff_false, Qle_bool_iff.
  split; [apply Qnot_le_lt | apply Qlt_not_le].
Qed.

Lemma Qgtb_false a b : Qgtb a b = false <-> (a <= b)%Q.
Proof. unfold Qgtb. rewrite negb_false_iff. apply Qle_bool_iff. Qed.

Lemma Qltb_true a b : Qltb a b = true <-> (a < b)%Q.
Proof. apply Qgtb_true. Qed.

Lemma Qgeb_true a b : Qgeb a b = true <-> (b <= a)%Q.
Proof. apply Qle_bool_iff. Qed.

Lemma Qmin_le_l a b : (Qmin a b <= a)%Q.
Proof.
  unfold Qmin. destruct (Qle_bool a b) eqn:E; [apply Qle_refl|].
  apply not_true_iff_false in E. rewrite Qle_bool_iff in E.
  apply Qlt_le_weak. by apply Qnot_le_lt.
Qed.

Lemma Qmin_le_r a b : (Qmin a b <= b)%Q.
Proof.
  unfold Qmin. destruct (Qle_bool a b) eqn:E; [by apply Qle_bool_iff | apply Qle_refl].
Qed.

Lemma Qmin_glb a b c : (c <= a)%Q -> (c <= b)%Q -> (c <= Qmin a b)%Q.
Proof. intros. unfold Qmin. by destruct (Qle_bool a b). Qed.

Lemma Qmax_ge_l a b : (a <= Qmax a b)%Q.
Proof.
  unfold Qmax. destruct (Qle_bool a b) eqn:E; [by apply Qle_bool_iff | apply Qle_refl].
Qed.

Lemma Qmax_ge_r a b : (b <= Qmax a b)%Q.
Proof.
  unfold Qmax. destruct (Qle_bool a b) eqn:E; [apply Qle_refl|].
  apply not_true_iff_false in E. rewrite Qle_bool_iff in E.
  apply Qlt_le_weak. by apply Qnot_le_lt.
Qed.

Lemma Qmax_lub a b c : (a <= c)%Q -> (b <= c)%Q -> (Qmax a b <= c)%Q.
Proof. intros. unfold Qmax. by destruct (Qle_bool a b). Qed.

Lemma Qlen_nonneg {A : Type} (l : list A) : (0 <= Qlen l)%Q.
Proof. unfold Qlen, Qle. simpl. lia. Qed.

Lemma Qlen_cons {A : Type} (x : A) (l : list A) : (Qlen (x :: l) == 1 + Qlen l)%Q.
Proof.
  unfold Qlen. rewrite <- (inject_Z_plus 1). apply inject_Z_injective.
  simpl length. lia.
Qed.


(** ** The risk profiler *)

Lemma sizeAdjustment_bounds nativeBalance tokenHoldings :
  -15 <= sizeAdjustment nativeBalance tokenHoldings <= 15.
Proof. unfold sizeAdjustment. repeat destruct (_ : bool); lia. Qed.

Lemma stablecoinAdjustment_bounds tokenHoldings ta :
  -10 <= stablecoinAdjustment tokenHoldings ta <= 10.
Proof. unfold stablecoinAdjustment. repeat destruct (_ : bool); lia. Qed.

Lemma mapRiskScoreToTolerance_conservative score :
  mapRiskScoreToTolerance score = CONSERVATIVE <-> score < 25.
Proof.
  unfold mapRiskScoreToTolerance.
  destruct (Z.ltb_spec score 25); [tauto|].
  destruct (score <? 50), (score <? 75); split; (discriminate || lia).
Qed.

Lemma riskScore_lower nativeBalance tokenHoldings ta :
  25 <= riskScore (assessComprehensiveRisk nativeBalance tokenHoldings ta).
Proof.
  unfold assessComprehensiveRisk. cbn [riskScore].
  pose proof (sizeAdjustment_bounds nativeBalance tokenHoldings).
  pose proof (stablecoinAdjustment_bounds tokenHoldings ta).
  destruct (Qgtb (concentrationRisk ta) 0.5); lia.
Qed.

(** C9. Whatever the native balance, the holdings and the token analysis,
    the risk score of [assessComprehensiveRisk] is at least 25 and the
    tolerance tier it maps to is not CONSERVATIVE, so no analysis the
    pipeline builds carries that tier; and on a holdings snapshot
    (non-negative native balance, token analysis taken from the same
    holdings) the small-portfolio penalty of 15 and the stablecoin penalty of
    10 never apply together. *)
Theorem risk_score_lower_bound :
  (forall nativeBalance tokenHoldings tokenAnalysis,
      let profile := assessComprehensiveRisk nativeBalance tokenHoldings tokenAnalysis in
      25 <= riskScore profile /\ riskTolerance profile <> CONSERVATIVE) /\
  (forall address testnetOnly tokenBalances,
      riskTolerance (riskProfile (buildAnalysis address testnetOnly tokenBalances))
      <> CONSERVATIVE) /\
  (forall nativeBalance tokenHoldings,
      (0 <= nativeBalance)%Q ->
      ~ (sizeAdjustment nativeBalance tokenHoldings = -15 /\
         stablecoinAdjustment tokenHoldings (analyzeTokenHoldings tokenHoldings) = -10)).
Proof.
  assert (Htier : forall nativeBalance tokenHoldings tokenAnalysis,
             riskTolerance (assessComprehensiveRisk nativeBalance tokenHoldings
                              tokenAnalysis) <> CONSERVATIVE).
  { intros nativeBalance tokenHoldings tokenAnalysis.
    pose proof (riskScore_lower nativeBalance tokenHoldings tokenAnalysis) as Hlow.
    unfold assessComprehensiveRisk in *. cbn [riskTolerance riskScore] in *.
    rewrite mapRiskScoreToTolerance_conservative. lia. }
  split; [|split].
  - intros nativeBalance tokenHoldings tokenAnalysis profile.
    split; [apply riskScore_lower | apply Htier].
  - intros address testnetOnly tokenBalances. unfold buildAnalysis.
    cbn [riskProfile]. apply Htier.
  - intros nativeBalance tokenHoldings Hnn [Hsize Hstable].
    assert (Hempty : tokenHoldings = []).
    { destruct tokenHoldings as [|t l]; [done|]. exfalso.
      unfold sizeAdjustment in Hsize.
      destruct (Qgtb _ 100); [lia|]. destruct (Qgtb _ 10); [lia|].
      destruct (Qltb _ 1) eqn:E; [|lia].
      apply Qltb_true in E. rewrite Qlen_cons in E.
      pose proof (Qlen_nonneg l). lra. }
    subst tokenHoldings. unfold stablecoinAdjustment in Hstable.
    vm_compute in Hstable. lia.
Qed.

(** A wallet with 0.3 ETH and one USDC holding: only the stablecoin penalty
    applies. *)
Lemma risk_score_lower_bound_witness :
  let usdc := {| symbol := "USDC"; th_address := "0xA0b8"; balance := 120%Q;
                 decimals := 6; chainName := "mainnet"; isStakeable := true;
                 stakingOptions := []; isTestnet := false |} in
  ~ (sizeAdjustment 0.3%Q [usdc] = -15 /\
     stablecoinAdjustment [usdc] (analyzeTokenHoldings [usdc]) = -10).
Proof.
  intros usdc. destruct risk_score_lower_bound as (_ & _ & Hboth).
  apply (Hboth 0.3%Q [usdc]). unfold Qle. simpl. lia.
Defined.

(** ** The Herfindahl index *)

Section Herfindahl.
Local Open Scope Q_scope.

Lemma fold_total l acc :
  fold_left (fun sum token => sum + balance token) l acc == acc + sumBalances l.
Proof.
  revert acc. induction l as [|t l IH]; intros acc; simpl.
  - ring.
  - rewrite IH. ring.
Qed.










End Herfindahl.



(** ** The staking strategy *)

Section Strategy.
Local Open Scope Q_scope.

Lemma baseAllocation_range riskProfile liquidityNeeds :
  0 <= liquidityRatio liquidityNeeds <= 1 ->
  0 <= Earlier.baseAllocation riskProfile liquidityNeeds <= 90.
Proof.
  intros [Hlo Hhi]. unfold Earlier.baseAllocation.
  destruct (riskTolerance riskProfile);
    (split; [apply Qmin_glb; lra | eapply Qle_trans; [apply Qmin_le_l | lra]])
    || lra.
Qed.

Lemma later_allocation_mainnet riskProfile liquidityNeeds totalBalance :
  recommendedAllocation
  (generateStakingStrategy riskProfile liquidityNeeds totalBalance false)
  = Earlier.baseAllocation riskProfile liquidityNeeds.
Proof.
  unfold generateStakingStrategy, Earlier.baseAllocation. cbn [andb negb].
  by destruct (riskTolerance riskProfile).
Qed.

Lemma later_allocation_testnet riskProfile liquidityNeeds totalBalance :
  recommendedAllocation
  (generateStakingStrategy riskProfile liquidityNeeds totalBalance true)
  = if Qgtb totalBalance 0.01 then 40 else 0.
Proof.
  unfold generateStakingStrategy. cbn [andb negb].
  by destruct (Qgtb totalBalance 0.01).
Qed.

(** Whatever the inputs, the later variant never allocates more than 90
percent. *)
Lemma later_allocation_le_90 riskProfile liquidityNeeds totalBalance testnetOnly :
  recommendedAllocation
  (generateStakingStrategy riskProfile liquidityNeeds totalBalance testnetOnly)
  <= 90.
Proof.
  destruct testnetOnly.
  - rewrite later_allocation_testnet. destruct (Qgtb totalBalance 0.01); lra.
  - rewrite later_allocation_mainnet. unfold Earlier.baseAllocation.
    destruct (riskTolerance riskProfile);
      (eapply Qle_trans; [apply Qmin_le_l | lra]) || lra.
Qed.

Lemma earlier_allocation riskProfile liquidityNeeds totalBalance :
  recommendedAllocation
  (Earlier.generateStakingStrategy riskProfile liquidityNeeds totalBalance)
  = Earlier.adjustForPortfolioSize
  (Earlier.baseAllocation riskProfile liquidityNeeds) totalBalance.
Proof.
  unfold Earlier.generateStakingStrategy.
  by destruct (riskTolerance riskProfile).
Qed.

End Strategy.

(** C7, as the code has it.  In the earlier variant the tier-based base
    allocation [b] becomes [max (b - 20) 10] when the total balance is below
    1 (a decrease whenever [b > 10]) and [min (b + 10) 90] when it is above
    50 (an increase whenever [b < 90]), and stays [b] in between; in the
    later variant the mainnet allocation is [b] whatever the total balance.
    For a liquidity ratio in [0,1] both variants stay within [0,100]. *)
Theorem allocation_adjustment (riskProfile : WalletRiskProfile)
    (liquidityNeeds : LiquidityProfile) (totalBalance : Q) :
  (0 <= liquidityRatio liquidityNeeds <= 1)%Q ->
  let base := Earlier.baseAllocation riskProfile liquidityNeeds in
  let earlier :=
    recommendedAllocation
      (Earlier.generateStakingStrategy riskProfile liquidityNeeds totalBalance) in
  let later testnetOnly :=
    recommendedAllocation
      (generateStakingStrategy riskProfile liquidityNeeds totalBalance testnetOnly) in
  ((totalBalance < 1 ->
    earlier = Qmax (base - 20) 10 /\ (10 < base -> earlier < base)) /\
   (50 < totalBalance ->
    earlier = Qmin (base + 10) 90 /\ (base < 90 -> base < earlier)) /\
   (1 <= totalBalance <= 50 -> earlier = base) /\
   0 <= earlier <= 100 /\
   later false = base /\
   forall testnetOnly, 0 <= later testnetOnly <= 100)%Q.
Proof.
  intros Hlr base earlier later.
  pose proof (baseAllocation_range riskProfile liquidityNeeds Hlr) as Hbase.
  fold base in Hbase.
  assert (Hearlier : earlier = Earlier.adjustForPortfolioSize base totalBalance)
    by apply earlier_allocation.
  unfold Earlier.adjustForPortfolioSize in Hearlier.
  assert (Hmax : (10 <= Qmax (base - 20) 10 <= 100)%Q).
  { split; [apply Qmax_ge_r | apply Qmax_lub; lra]. }
  assert (Hmin : (0 <= Qmin (base + 10) 90 <= 90)%Q).
  { split; [apply Qmin_glb; lra | apply Qmin_le_r]. }
  split; [|split; [|split; [|split; [|split]]]].
  - intros Hsmall. apply Qltb_true in Hsmall. rewrite Hsmall in Hearlier.
    split; [exact Hearlier|]. intros Hb. rewrite Hearlier.
    unfold Qmax. destruct (Qle_bool (base - 20) 10); lra.
  - intros Hlarge.
    assert (Qltb totalBalance 1 = false) as Hnot.
    { apply not_true_iff_false. rewrite Qltb_true. lra. }
    apply Qgtb_true in Hlarge. rewrite Hnot, Hlarge in Hearlier.
    split; [exact Hearlier|]. intros Hb. rewrite Hearlier.
    unfold Qmin. destruct (Qle_bool (base + 10) 90); lra.
  - intros [Hlo Hhi].
    assert (Qltb totalBalance 1 = false) as Hnot.
    { apply not_true_iff_false. rewrite Qltb_true. lra. }
    assert (Qgtb totalBalance 50 = false) as Hnot' by (by apply Qgtb_false).
    by rewrite Hnot, Hnot' in Hearlier.
  - rewrite Hearlier.
    destruct (Qltb totalBalance 1); [lra|].
    destruct (Qgtb totalBalance 50); lra.
  - apply later_allocation_mainnet.
  - intros testnetOnly. split.
    + unfold later. destruct testnetOnly.
      * rewrite later_allocation_testnet. destruct (Qgtb totalBalance 0.01); lra.
      * rewrite later_allocation_mainnet. apply Hbase.
    + eapply Qle_trans; [apply later_allocation_le_90 | lra].
Qed.

(** A moderate profile with nothing held in liquid tokens and half a unit
    in total. *)
Lemma allocation_adjustment_witness :
  let profile := assessComprehensiveRisk 0.5%Q [] (analyzeTokenHoldings []) in
  let needs := assessLiquidityProfile [] 0.5%Q in
  let base := Earlier.baseAllocation profile needs in
  let earlier :=
    recommendedAllocation (Earlier.generateStakingStrategy profile needs 0.5%Q) in
  (earlier = Qmax (base - 20) 10 /\ (earlier < base)%Q) /\ (0 <= earlier <= 100)%Q.
Proof.
  intros profile needs base earlier.
  assert (Hlr : (0 <= liquidityRatio needs <= 1)%Q)
    by (split; unfold Qle; simpl; lia).
  destruct (allocation_adjustment profile needs 0.5%Q Hlr)
    as (Hsmall & _ & _ & Hrange & _).
  split; [|exact Hrange].
  destruct Hsmall as [Heq Hlt]; [reflexivity|].
  split; [exact Heq | apply Hlt; reflexivity].
Defined.

(** The later variant keeps the tier-based allocation whatever the total
    balance: it is neither lowered for a wallet of half a unit nor raised
    for a wallet of a hundred units. *)
Lemma allocation_adjustment_counterexample :
  (let profile := assessComprehensiveRisk 0.5 [] (analyzeTokenHoldings []) in
   let needs := assessLiquidityProfile [] 0.5 in
   ~ (recommendedAllocation (generateStakingStrategy profile needs 0.5 false)
      < Earlier.baseAllocation profile needs)%Q) /\
  (let profile := assessComprehensiveRisk 100 [] (analyzeTokenHoldings []) in
   let needs := assessLiquidityProfile [] 100 in
   ~ (Earlier.baseAllocation profile needs
      < recommendedAllocation (generateStakingStrategy profile needs 100 false))%Q).
Proof. split; intros profile needs; vm_compute; discriminate. Qed.

(** ** The recommendation generator *)

Section Sorting.
Context {A : Type} (before : A -> A -> bool).

Lemma In_insert_sorted x y (l : list A) :
  In x (insert_sorted before y l) <-> x = y \/ In x l.
Proof.
  induction l as [|z l IH]; simpl.
  - intuition.
  - destruct (before z y); simpl; [rewrite IH|]; intuition.
Qed.

Lemma In_stable_sort x (l : list A) : In x (stable_sort before l) <-> In x l.
Proof.
  induction l as [|y l IH]; simpl; [tauto|].
  rewrite In_insert_sorted, IH. intuition.
Qed.

End Sorting.

Section Rounding.
Local Open Scope Q_scope.

Lemma toFixed6_upper x : toFixed6 x <= x + (1 # 2000000).
Proof.
  unfold toFixed6. set (y := x * 1000000 + (1 # 2)).
  pose proof (Qfloor_le y) as Hfl.
  rewrite (Qmake_Qdiv (Qfloor y) 1000000).
  apply Qle_shift_div_r; [reflexivity|].
  eapply Qle_trans; [exact Hfl|]. unfold y.
  assert ((x + (1 # 2000000)) * inject_Z (Z.pos 1000000) == x * 1000000 + (1 # 2)) as ->
    by (unfold inject_Z; ring).
  apply Qle_refl.
Qed.

Lemma toFixed6_grid x (n : Z) : inject_Z n <= x * 1000000 -> n # 1000000 <= toFixed6 x.
Proof.
  intros Hn. unfold toFixed6.
  assert (n <= Qfloor (x * 1000000 + (1 # 2)))%Z.
  { rewrite <- (Qfloor_Z n). apply Qfloor_resp_le.
    eapply Qle_trans; [exact Hn|]. lra. }
  unfold Qle. cbn [Qnum Qden]. lia.
Qed.

End Rounding.

Lemma ethRecommendation_bounds strategy testnetOnly chainName ethBalance rec :
  (recommendedAllocation strategy <= 90)%Q ->
  In rec (ethRecommendation strategy testnetOnly (chainName, ethBalance)) ->
  token rec = "ETH" /\ isTestnetChain chainName = testnetOnly /\
  sr_isTestnet rec = testnetOnly /\
  (recommendedAmount rec <= ethBalance)%Q /\
  ((if testnetOnly then 0.005 else 0.05) <= recommendedAmount rec)%Q.
Proof.
  intros Halloc. unfold ethRecommendation.
  destruct (isTestnetChain chainName) eqn:Hnet, testnetOnly; cbn [andb negb];
    try (intros []).
  - (* a testnet chain in testnet mode *)
      destruct (Qgtb ethBalance 0.01) eqn:Hmin; [|intros []].
    destruct (Qgeb (ethBalance * 0.4) 0.005) eqn:Hfloor; [|intros []].
    destruct (0 <? length _)%nat; [|intros []].
    intros [<-|[]]. cbn [token sr_isTestnet recommendedAmount].
    apply Qgtb_true in Hmin. apply Qgeb_true in Hfloor.
    repeat split.
    + eapply Qle_trans; [apply toFixed6_upper|]. lra.
    + apply Qle_trans with (y := (5000 # 1000000)%Q); [unfold Qle; simpl; lia|].
      apply toFixed6_grid. change (inject_Z 5000) with 5000%Q. lra.
  - (* a mainnet chain in mainnet mode *)
      destruct (Qgtb ethBalance 0.1) eqn:Hmin; [|intros []].
    destruct (Qgeb (ethBalance * (recommendedAllocation strategy / 100)) 0.05)
      eqn:Hfloor; [|intros []].
    destruct (0 <? length _)%nat; [|intros []].
    intros [<-|[]]. cbn [token sr_isTestnet recommendedAmount].
    apply Qgtb_true in Hmin. apply Qgeb_true in Hfloor.
    repeat split.
    + eapply Qle_trans; [apply toFixed6_upper|].
      assert (ethBalance * (recommendedAllocation strategy / 100)
              <= ethBalance * 0.9)%Q.
      { apply Qmult_le_l; [lra|]. apply Qle_shift_div_r; [reflexivity|].
        eapply Qle_trans; [exact Halloc|]. discriminate. }
      set (amount := (ethBalance * (recommendedAllocation strategy / 100))%Q) in *.
      clearbody amount. lra.
    + apply Qle_trans with (y := (50000 # 1000000)%Q); [unfold Qle; simpl; lia|].
      apply toFixed6_grid. change (inject_Z 50000) with 50000%Q.
      set (amount := (ethBalance * (recommendedAllocation strategy / 100))%Q) in *.
      clearbody amount. lra.
Qed.

Lemma tokenRecommendation_bounds strategy holding rec :
  In rec (tokenRecommendation strategy holding) ->
  token rec = symbol holding /\ sr_isTestnet rec = isTestnet holding /\
  (recommendedAmount rec <= balance holding)%Q.
Proof.
  unfold tokenRecommendation.
  destruct (Qgtb (balance holding) _) eqn:Hmin; cbn [andb]; [|intros []].
  destruct (Qgeb (balance holding) _) eqn:Hfloor; [|intros []].
  destruct (List.filter _ _) as [|first rest]; [intros []|].
  intros [<-|[]]. cbn [token sr_isTestnet recommendedAmount].
  repeat split.
  eapply Qle_trans; [apply toFixed6_upper|].
  apply Qgeb_true in Hfloor.
  assert (1 <= balance holding)%Q by (destruct (isTestnet holding); lra).
  lra.
Qed.



(** ** The balance aggregation *)

Lemma tokenHoldingOf_spec client address chain isTestnetFlag tokenConfig h :
  In h (tokenHoldingOf client address chain isTestnetFlag tokenConfig) ->
  chainName h = chain /\
  isTestnet h = tc_isTestnet tokenConfig || isTestnetFlag /\
  ((if isTestnetFlag then 0.00001 else 0.001) < balance h)%Q.
Proof.
  unfold tokenHoldingOf.
  destruct (readContract client (tc_address tokenConfig) address) as [raw|]; [|intros []].
  destruct (raw >? 0); [|intros []].
  destruct (Qgtb _ _) eqn:Hdust; [|intros []].
  intros [<-|[]]. cbn [chainName isTestnet balance].
  apply Qgtb_true in Hdust. auto.
Qed.

Lemma getTokenBalancesForChain_ok env walletProvider address chain d :
  getTokenBalancesForChain env walletProvider address chain = Ok d ->
  tb_chainName d = chain /\
  (exists client,
      clientFor env walletProvider chain = Ok client /\
      nativeBalance d
      = formatUnits (match getBalance client address with
                     | Some wei => wei
                     | None => 0
                     end) 18 /\
      tokenHoldings d
      = flat_map (tokenHoldingOf client address chain (isTestnetChain chain))
          (catalogFor chain (isTestnetChain chain))) /\
  (forall h, In h (tokenHoldings d) ->
             chainName h = chain /\
             (isTestnetChain chain = true -> isTestnet h = true) /\
             (dustThreshold chain < balance h)%Q).
Proof.
  unfold getTokenBalancesForChain.
  destruct (clientFor env walletProvider chain) as [client|m]; [|discriminate].
  cbn [bind]. intros [= <-]. cbn [tb_chainName nativeBalance tokenHoldings].
  split; [done|]. split; [by exists client|].
  intros h Hh. apply in_flat_map in Hh. destruct Hh as (tokenConfig & _ & Hh).
  apply tokenHoldingOf_spec in Hh. destruct Hh as (Hc & Ht & Hb).
  split; [done|]. split.
  - intros Hnet. rewrite Ht, Hnet. apply orb_true_r.
  - exact Hb.
Qed.

Lemma In_chainContribution env walletProvider address testnetOnly chain d :
  In d (chainContribution env walletProvider address testnetOnly chain) <->
  getTokenBalancesForChain env walletProvider address chain = Ok d /\
  contributes testnetOnly d = true.
Proof.
  unfold chainContribution.
  destruct (getTokenBalancesForChain env walletProvider address chain) as [d'|m].
  - destruct (contributes testnetOnly d') eqn:E; simpl.
    + split.
      * intros [<-|[]]. by split.
      * intros [[= ->] _]. by left.
    + split; [intros []|]. intros [[= ->] H]. congruence.
  - simpl. split; [intros []|]. intros [? _]. discriminate.
Qed.

Lemma In_aggregate env walletProvider address testnetOnly d :
  In d (aggregate env walletProvider address testnetOnly) <->
  exists chain,
    In chain (chainsToCheck walletProvider testnetOnly) /\
    getTokenBalancesForChain env walletProvider address chain = Ok d /\
    contributes testnetOnly d = true.
Proof.
  unfold aggregate. rewrite in_flat_map.
  split; intros (chain & Hc & Hd); exists chain; (split; [exact Hc|]);
    by apply In_chainContribution.
Qed.

Lemma getTokenBalances_miss now env walletProvider address testnetOnly c :
  fst (Cache.get now (balancesCacheKey address testnetOnly) c) = None ->
  getTokenBalances now env walletProvider address testnetOnly c
  = (aggregate env walletProvider address testnetOnly,
     Cache.set now (balancesCacheKey address testnetOnly)
       (aggregate env walletProvider address testnetOnly)
       (snd (Cache.get now (balancesCacheKey address testnetOnly) c))).
Proof.
  unfold getTokenBalances.
  destruct (Cache.get now _ c) as [[cached|] c']; [discriminate|]. done.
Qed.

Lemma isTestnetChain_testnets chain :
  In chain getTestnetChains -> isTestnetChain chain = true.
Proof. unfold getTestnetChains. intros H. apply filter_In in H. tauto. Qed.

(** C6, as the code has it.  On a cache miss [getTokenBalances] keeps only
    token balances above the dust threshold of their chain (0.001 on a
    mainnet chain, 0.00001 on a testnet chain); in mainnet mode a chain
    contributes a snapshot only if its native balance is positive or one of
    its token balances is above that threshold; in testnet mode every
    testnet chain whose snapshot can be taken contributes it. *)
Theorem chain_contribution_rule (now : Z) (env : Env) (walletProvider : WalletProvider)
    (address : string) (testnetOnly : bool) (c : Cache.t (list TokenBalanceData)) :
  fst (Cache.get now (balancesCacheKey address testnetOnly) c) = None ->
  let snapshots := fst (getTokenBalances now env walletProvider address testnetOnly c) in
  (forall d, In d snapshots ->
     (forall h, In h (tokenHoldings d) ->
                (dustThreshold (tb_chainName d) < balance h)%Q) /\
     (testnetOnly = false ->
      (0 < nativeBalance d)%Q \/
      exists h, In h (tokenHoldings d) /\
                (dustThreshold (tb_chainName d) < balance h)%Q)) /\
  (testnetOnly = true ->
   forall chain d,
     In chain getTestnetChains ->
     getTokenBalancesForChain env walletProvider address chain = Ok d ->
     In d snapshots).
Proof.
  intros Hmiss snapshots. unfold snapshots.
  rewrite (getTokenBalances_miss _ _ _ _ _ _ Hmiss). cbn [fst].
  split.
  - intros d Hd. apply In_aggregate in Hd. destruct Hd as (chain & _ & Hok & Hcontrib).
    apply getTokenBalancesForChain_ok in Hok. destruct Hok as (Hname & _ & Hheld).
    rewrite Hname. split.
    + intros h Hh. by apply Hheld.
    + intros ->. unfold contributes in Hcontrib.
      rewrite orb_false_r in Hcontrib. apply orb_true_iff in Hcontrib.
      destruct Hcontrib as [Hlen|Hnat].
      * right. destruct (tokenHoldings d) as [|h rest] eqn:E; [discriminate|].
        exists h. split; [by left|]. apply Hheld. by left.
      * left. by apply Qgtb_true.
  - intros -> chain d Hchain Hok. apply In_aggregate. exists chain.
    split; [exact Hchain|]. split; [exact Hok|].
    unfold contributes. apply orb_true_r.
Qed.

(** The aggregation, in mainnet mode, of an account that holds one Sepolia
    ether: the Sepolia snapshot is kept for its native balance. *)
Lemma chain_contribution_rule_witness :
  match fst (getTokenBalances 0 sepoliaWorld sepoliaProvider demoAddress false
               (Cache.new 300000)) with
  | d :: _ =>
      (forall h, In h (tokenHoldings d) ->
                 (dustThreshold (tb_chainName d) < balance h)%Q) /\
      ((0 < nativeBalance d)%Q \/
       exists h, In h (tokenHoldings d) /\
                 (dustThreshold (tb_chainName d) < balance h)%Q)
  | [] => False
  end.
Proof.
  destruct (chain_contribution_rule 0 sepoliaWorld sepoliaProvider demoAddress false
              (Cache.new 300000)) as [Hall _]; [reflexivity|].
  cbv zeta in Hall.
  destruct (fst (getTokenBalances 0 sepoliaWorld sepoliaProvider demoAddress false
                   (Cache.new 300000))) as [|d rest] eqn:E;
    [vm_compute in E; discriminate|].
  destruct (Hall d) as [Hdust Hwhy]; [by left|].
  split; [exact Hdust | by apply Hwhy].
Defined.

(** In testnet mode a chain contributes a snapshot although the account
    has no native balance and no token on it. *)
Lemma chain_contribution_rule_counterexample :
  let walletProvider :=
    providerOf ["mainnet"; "base"; "arbitrum"; "polygon"] (fun _ => idleClient) in
  exists d,
    In d (fst (getTokenBalances 0 idleWorld walletProvider demoAddress true
                 (Cache.new 300000))) /\
    tb_chainName d = "sepolia" /\
    ~ (0 < nativeBalance d)%Q /\ tokenHoldings d = [].
Proof.
  intros walletProvider.
  exists {| tb_address := demoAddress; tb_chainName := "sepolia";
            nativeBalance := formatUnits 0 18; tokenHoldings := [];
            tb_isTestnet := true |}.
  split; [vm_compute; by left|]. split; [reflexivity|]. split; [|reflexivity].
  vm_compute. discriminate.
Qed.

(** ** Cache keys *)

Lemma lastChar_none s : lastChar s = None -> s = "".
Proof.
  destruct s as [|c rest]; [done|]. simpl. by destruct (lastChar rest).
Qed.

Lemma lastChar_app a s : s <> "" -> lastChar (a +:+ s) = lastChar s.
Proof.
  intros Hs. induction a as [|c a IH]; [done|].
  simpl. rewrite IH. destruct (lastChar s) eqn:E; [done|].
  by apply lastChar_none in E.
Qed.

Lemma analysisCacheKey_mode address address' testnetOnly testnetOnly' :
  analysisCacheKey address testnetOnly = analysisCacheKey address' testnetOnly' ->
  testnetOnly = testnetOnly'.
Proof.
  unfold analysisCacheKey. intros H. apply (f_equal lastChar) in H.
  destruct testnetOnly, testnetOnly'; try done;
    rewrite !lastChar_app in H by done; discriminate.
Qed.

Lemma balancesCacheKey_mode address address' testnetOnly testnetOnly' :
  balancesCacheKey address testnetOnly = balancesCacheKey address' testnetOnly' ->
  testnetOnly = testnetOnly'.
Proof.
  unfold balancesCacheKey. intros H. apply (f_equal lastChar) in H.
  destruct testnetOnly, testnetOnly'; try done;
    rewrite !lastChar_app in H by done; discriminate.
Qed.

(** ** Invariants of a cache *)

Section CacheInvariant.
Context {T : Type} (P : string -> T -> Prop).
Implicit Types (c : Cache.t T).

Lemma cache_all_new ttl_ms : cache_all P (Cache.new ttl_ms).
Proof. intros k item H. simpl in H. by rewrite lookup_empty in H. Qed.

Lemma cache_all_get now key c :
  cache_all P c -> cache_all P (snd (Cache.get now key c)).
Proof.
  intros Hall k item. unfold Cache.get.
  destruct (Cache.cache c !! key) as [found|] eqn:E; [|apply Hall].
  destruct (_ >? _); [|apply Hall]. simpl.
  destruct (decide (key = k)) as [->|Hne].
  - by rewrite lookup_delete_eq.
  - rewrite lookup_delete_ne by done. apply Hall.
Qed.

Lemma cache_all_set now key v c :
  cache_all P c -> P key v -> cache_all P (Cache.set now key v c).
Proof.
  intros Hall Hv k item. simpl.
  destruct (decide (key = k)) as [->|Hne].
  - rewrite lookup_insert_eq. by intros [= <-].
  - rewrite lookup_insert_ne by done. apply Hall.
Qed.

Lemma cache_all_hit now key c v :
  cache_all P c -> fst (Cache.get now key c) = Some v -> P key v.
Proof.
  intros Hall. unfold Cache.get.
  destruct (Cache.cache c !! key) as [found|] eqn:E; [|done].
  destruct (_ >? _); [done|]. simpl. intros [= <-]. by apply (Hall key).
Qed.

End CacheInvariant.

(** ** The retry loops and the orchestrator *)

Lemma get_miss_again {T : Type} now key (c : Cache.t T) :
  fst (Cache.get now key c) = None ->
  Cache.get now key (snd (Cache.get now key c)) = (None, snd (Cache.get now key c)).
Proof.
  intros Hmiss. apply get_absent.
  destruct (Cache.get now key c) as [r c'] eqn:E. simpl in *. subst r.
  by apply get_none_lookup in E.
Qed.

Lemma validate_caches st :
  analysisCache (snd (validateEvmConfigurationStrict st)) = analysisCache st /\
  balanceCache (snd (validateEvmConfigurationStrict st)) = balanceCache st.
Proof.
  unfold validateEvmConfigurationStrict.
  destruct (EVM_PRIVATE_KEY st) as [[|ch key]|]; [done| |done].
  by destruct (normalizePrivateKey _).
Qed.

Lemma validate_ready env st walletProvider :
  ready env st walletProvider ->
  exists st1, validateEvmConfigurationStrict st = (Ok tt, st1).
Proof.
  intros (init & key & fixedKey & _ & _ & Hkey & Hne & Hnorm).
  unfold validateEvmConfigurationStrict. rewrite Hkey.
  destruct key as [|ch key]; [done|]. rewrite Hnorm. eauto.
Qed.

Section Fetch.
Context (now : Z) (env : Env) (walletProvider : WalletProvider)
(address : string) (testnetOnly : bool).

Lemma fetchOnce_post (P : string -> list TokenBalanceData -> Prop) attempt c :
  cache_all P c ->
  P (balancesCacheKey address testnetOnly)
  (aggregate env walletProvider address testnetOnly) ->
  cache_all P (snd (fetchOnce now env walletProvider address testnetOnly attempt c)) /\
  forall tokenBalances,
  fst (fetchOnce now env walletProvider address testnetOnly attempt c)
  = Ok tokenBalances ->
  P (balancesCacheKey address testnetOnly) tokenBalances.
Proof.
  intros Hall Hfresh. unfold fetchOnce, getTokenBalances.
  pose proof (cache_all_get P now (balancesCacheKey address testnetOnly) c Hall) as Hget.
  pose proof (cache_all_hit P now (balancesCacheKey address testnetOnly) c) as Hhit.
  destruct (Cache.get now (balancesCacheKey address testnetOnly) c) as [[cached|] c'];
    simpl in *.
  - split; [exact Hget|]. intros tokenBalances [= <-]. by apply Hhit.
  - destruct (fetchTimesOut env attempt); simpl.
    + split; [exact Hget | discriminate].
    + split; [by apply cache_all_set|]. by intros tokenBalances [= <-].
Qed.

Lemma fetchAttempts_post (P : string -> list TokenBalanceData -> Prop)
  remaining attempt lastError c :
  cache_all P c ->
  P (balancesCacheKey address testnetOnly)
  (aggregate env walletProvider address testnetOnly) ->
  cache_all P
  (snd (fetchAttempts now env walletProvider address testnetOnly remaining attempt
  lastError c)) /\
  forall tokenBalances,
  fst (fetchAttempts now env walletProvider address testnetOnly remaining attempt
  lastError c) = Ok tokenBalances ->
  P (balancesCacheKey address testnetOnly) tokenBalances.
Proof.
  intros Hall Hfresh. revert attempt lastError c Hall.
  induction remaining as [|remaining IH]; intros attempt lastError c Hall; simpl.
  - split; [exact Hall | discriminate].
  - destruct (fetchOnce_post P attempt c Hall Hfresh) as [Hc Hr].
    destruct (fetchOnce now env walletProvider address testnetOnly attempt c)
      as [[tokenBalances|m] c']; simpl in *.
    + split; [exact Hc|]. intros ? [= <-]. by apply Hr.
    + by apply IH.
Qed.

(** On a cache miss the loop returns the fresh aggregation as soon as one
fetch beats its timer. *)
Lemma fetchAttempts_fresh remaining attempt lastError c :
  fst (Cache.get now (balancesCacheKey address testnetOnly) c) = None ->
  (exists k, (attempt <= k < attempt + remaining)%nat /\ fetchTimesOut env k = false) ->
  fst (fetchAttempts now env walletProvider address testnetOnly remaining attempt
  lastError c)
  = Ok (aggregate env walletProvider address testnetOnly).
Proof.
  revert attempt lastError c.
  induction remaining as [|remaining IH]; intros attempt lastError c Hmiss (k & Hk & Hfast).
  - lia.
  - simpl. unfold fetchOnce.
    rewrite (getTokenBalances_miss now env walletProvider address testnetOnly c Hmiss).
    pose proof (get_miss_again now (balancesCacheKey address testnetOnly) c Hmiss)
      as Hagain.
    destruct (Cache.get now (balancesCacheKey address testnetOnly) c)
      as [[cached|] c'] eqn:E; [discriminate|].
    simpl in Hagain.
    destruct (fetchTimesOut env attempt) eqn:Hout; [|done].
    apply IH.
    + by rewrite Hagain.
    + exists k. split; [|exact Hfast].
      destruct (decide (k = attempt)) as [->|Hne]; [congruence | lia].
Qed.

End Fetch.

Lemma perform_analysisCache now env address testnetOnly st :
  analysisCache (snd (performComprehensiveAnalysisWithStaking now env address
                        testnetOnly st))
  = analysisCache st.
Proof.
  unfold performComprehensiveAnalysisWithStaking.
  destruct (initWalletProvider env) as [init|]; [|done].
  pose proof (validate_caches st) as [Ha _].
  destruct (validateEvmConfigurationStrict st) as [[[]|m] st1]; simpl in Ha; [|done].
  destruct (initWalletProviderWithRetry init) as [walletProvider|m]; [|done].
  by destruct (getTokenBalancesWithRetry _ _ _ _ _ _) as [[tokenBalances|m] c].
Qed.

Lemma perform_post (P : string -> list TokenBalanceData -> Prop)
    now env address testnetOnly st :
  cache_all P (balanceCache st) ->
  (forall walletProvider,
      P (balancesCacheKey address testnetOnly)
        (aggregate env walletProvider address testnetOnly)) ->
  cache_all P
    (balanceCache (snd (performComprehensiveAnalysisWithStaking now env address
                          testnetOnly st))) /\
  forall a,
    fst (performComprehensiveAnalysisWithStaking now env address testnetOnly st) = Ok a ->
    exists tokenBalances,
      a = buildAnalysis address testnetOnly tokenBalances /\
      P (balancesCacheKey address testnetOnly) tokenBalances.
Proof.
  intros Hall Hfresh. unfold performComprehensiveAnalysisWithStaking.
  destruct (initWalletProvider env) as [init|]; [|by split].
  pose proof (validate_caches st) as [_ Hb].
  destruct (validateEvmConfigurationStrict st) as [[[]|m] st1]; simpl in Hb;
    [|cbn [fst snd]; rewrite Hb; by split].
  destruct (initWalletProviderWithRetry init) as [walletProvider|m];
    [|cbn [fst snd]; rewrite Hb; by split].
  unfold getTokenBalancesWithRetry.
  destruct (fetchAttempts_post now env walletProvider address testnetOnly P 3 1 ""
              (balanceCache st1)) as [Hc Hr]; [by rewrite Hb | apply Hfresh |].
  destruct (fetchAttempts _ _ _ _ _ _ _ _ _) as [[tokenBalances|m] c]; simpl in *.
  - split; [exact Hc|]. intros a [= <-]. exists tokenBalances. split; [done|]. by apply Hr.
  - by split.
Qed.

Lemma perform_fresh now env address testnetOnly st walletProvider :
  ready env st walletProvider ->
  fst (Cache.get now (balancesCacheKey address testnetOnly) (balanceCache st)) = None ->
  fetchCompletes env ->
  fst (performComprehensiveAnalysisWithStaking now env address testnetOnly st)
  = Ok (buildAnalysis address testnetOnly
          (aggregate env walletProvider address testnetOnly)).
Proof.
  intros Hready Hmiss Hfast.
  destruct (validate_ready env st walletProvider Hready) as [st1 Hvalid].
  pose proof (validate_caches st) as [_ Hb]. rewrite Hvalid in Hb. simpl in Hb.
  destruct Hready as (init & key & fixedKey & Hplugin & Hinit & _).
  unfold performComprehensiveAnalysisWithStaking.
  rewrite Hplugin, Hvalid, Hinit. unfold getTokenBalancesWithRetry.
  pose proof (fetchAttempts_fresh now env walletProvider address testnetOnly 3 1 ""
                (balanceCache st1)) as Hfetch.
  rewrite Hb in Hfetch. specialize (Hfetch Hmiss).
  rewrite Hb.
  destruct (fetchAttempts _ _ _ _ _ _ _ _ _) as [r c]. simpl in Hfetch.
  rewrite Hfetch; [done|].
  destruct Hfast as [H|[H|H]]; [exists 1%nat | exists 2%nat | exists 3%nat];
    (split; [lia | exact H]).
Qed.

Lemma analyzeWallet_fresh now env address testnetOnly st walletProvider :
  ready env st walletProvider ->
  uncached now address testnetOnly st ->
  fetchCompletes env ->
  fst (analyzeWallet now env address testnetOnly st)
  = Ok (buildAnalysis address testnetOnly
          (aggregate env walletProvider address testnetOnly)).
Proof.
  intros Hready [Hmiss Hmiss'] Hfast. unfold analyzeWallet.
  destruct (Cache.get now _ (analysisCache st)) as [[cached|] c]; [discriminate|].
  pose proof (perform_fresh now env address testnetOnly (withAnalysisCache st c)
                walletProvider Hready Hmiss' Hfast) as Hrun.
  destruct (performComprehensiveAnalysisWithStaking _ _ _ _ _) as [r st'].
  simpl in Hrun. by rewrite Hrun.
Qed.

(** ** What an analysis contains *)

Lemma In_record_set {V : Type} k (v : V) key x o :
  In (k, v) (record_set key x o) -> (k = key /\ v = x) \/ In (k, v) o.
Proof.
  induction o as [|[k0 w] o IH]; simpl.
  - intros [[= <- <-]|[]]. by left.
  - destruct (String.eqb_spec k0 key) as [->|Hne]; simpl.
    + intros [[= <- <-]|H]; [by left | right; by right].
    + intros [H|H]; [right; by left|].
      destruct (IH H) as [?|?]; [by left | right; by right].
Qed.

Lemma In_nativeBalances chain b tokenBalances (acc : NativeBalances) :
  In (chain, b)
    (fold_left (fun acc d => record_set (tb_chainName d) (nativeBalance d) acc)
       tokenBalances acc) ->
  In (chain, b) acc \/
  exists d, In d tokenBalances /\ tb_chainName d = chain /\ nativeBalance d = b.
Proof.
  revert acc. induction tokenBalances as [|d rest IH]; intros acc; simpl; [by left|].
  intros H. destruct (IH _ H) as [Hacc|(d' & Hd' & Heq)].
  - apply In_record_set in Hacc. destruct Hacc as [[-> ->]|Hacc]; [|by left].
    right. exists d. split; [by left | done].
  - right. exists d'. split; [by right | done].
Qed.

Lemma buildAnalysis_nativeBalances address testnetOnly tokenBalances chain b :
  In (chain, b) (nativeBalances (buildAnalysis address testnetOnly tokenBalances)) ->
  exists d, In d tokenBalances /\ tb_chainName d = chain /\ nativeBalance d = b.
Proof.
  unfold buildAnalysis. cbn [nativeBalances]. intros H.
  apply In_nativeBalances in H. by destruct H as [[]|H].
Qed.

Lemma buildAnalysis_holdings address testnetOnly tokenBalances :
  wa_tokenHoldings (buildAnalysis address testnetOnly tokenBalances)
  = flat_map tokenHoldings tokenBalances.
Proof. reflexivity. Qed.

Lemma isStakeableToken_mode testnetOnly holding :
  isStakeableToken testnetOnly holding = true -> isTestnet holding = testnetOnly.
Proof.
  unfold isStakeableToken. destruct testnetOnly, (isTestnet holding); try done.
  - by rewrite !andb_false_r.
Qed.

Lemma recommendations_partition nativeBalances tokenHoldings riskProfile
    liquidityNeeds totalBalance testnetOnly rec :
  In rec (generateRealStakingRecommendations nativeBalances tokenHoldings
            (generateStakingStrategy riskProfile liquidityNeeds totalBalance testnetOnly)
            riskProfile testnetOnly) ->
  sr_isTestnet rec = testnetOnly.
Proof.
  unfold generateRealStakingRecommendations. intros Hin.
  apply In_stable_sort, in_app_or in Hin. destruct Hin as [Hin|Hin].
  - apply in_flat_map in Hin. destruct Hin as ([chain ethBalance] & _ & Hrec).
    eapply ethRecommendation_bounds in Hrec; [tauto | apply later_allocation_le_90].
  - apply in_flat_map in Hin. destruct Hin as (holding & Hheld & Hrec).
    apply filter_In in Hheld. destruct Hheld as [_ Hmode].
    apply tokenRecommendation_bounds in Hrec. destruct Hrec as (_ & -> & _).
    by apply isStakeableToken_mode.
Qed.

Lemma buildAnalysis_partitioned address testnetOnly tokenBalances :
  (testnetOnly = true -> Forall testnetSnapshot tokenBalances) ->
  partitioned testnetOnly (buildAnalysis address testnetOnly tokenBalances).
Proof.
  intros Hsnap. split.
  - intros rec Hrec. unfold buildAnalysis in Hrec. cbn [stakingRecommendations] in Hrec.
    by apply recommendations_partition in Hrec.
  - intros Hmode. specialize (Hsnap Hmode). rewrite List.Forall_forall in Hsnap. split.
    + intros chain b Hin. apply buildAnalysis_nativeBalances in Hin.
      destruct Hin as (d & Hd & <- & _). by destruct (Hsnap d Hd).
    + intros h Hh. rewrite buildAnalysis_holdings in Hh. apply in_flat_map in Hh.
      destruct Hh as (d & Hd & Hh). destruct (Hsnap d Hd) as [_ Hheld]. by apply Hheld.
Qed.

Lemma aggregate_testnet env walletProvider address :
  Forall testnetSnapshot (aggregate env walletProvider address true).
Proof.
  apply List.Forall_forall. intros d Hd. apply In_aggregate in Hd.
  destruct Hd as (chain & Hchain & Hok & _).
  apply isTestnetChain_testnets in Hchain.
  apply getTokenBalancesForChain_ok in Hok. destruct Hok as (Hname & _ & Hheld).
  split; [by rewrite Hname|].
  intros h Hh. destruct (Hheld h Hh) as (-> & Htest & _). auto.
Qed.

Lemma aggregate_testnetAt env walletProvider address testnetOnly :
  testnetAt (balancesCacheKey address testnetOnly)
    (aggregate env walletProvider address testnetOnly).
Proof.
  intros address' Hkey. apply balancesCacheKey_mode in Hkey. subst testnetOnly.
  apply aggregate_testnet.
Qed.

Lemma analyzeWallet_partitioned now env address testnetOnly st :
  cachesPartitioned st ->
  cachesPartitioned (snd (analyzeWallet now env address testnetOnly st)) /\
  forall a, fst (analyzeWallet now env address testnetOnly st) = Ok a ->
            partitioned testnetOnly a.
Proof.
  intros [Ha Hb]. unfold analyzeWallet.
  pose proof (cache_all_get partitionedAt now (analysisCacheKey address testnetOnly)
                (analysisCache st) Ha) as Hget.
  pose proof (cache_all_hit partitionedAt now (analysisCacheKey address testnetOnly)
                (analysisCache st)) as Hhit.
  destruct (Cache.get now _ (analysisCache st)) as [[cached|] c]; simpl in Hget, Hhit.
  - split; [by split|]. intros a [= <-]. by apply (Hhit cached Ha eq_refl address).
  - pose proof (perform_analysisCache now env address testnetOnly
                  (withAnalysisCache st c)) as Hsame.
    destruct (perform_post testnetAt now env address testnetOnly (withAnalysisCache st c))
      as [Hb' Hrun]; [exact Hb | intros; apply aggregate_testnetAt |].
    destruct (performComprehensiveAnalysisWithStaking _ _ _ _ _) as [[analysis|m] st'];
      simpl in *.
    + destruct (Hrun analysis eq_refl) as (tokenBalances & -> & Htest).
      assert (Hgood : partitioned testnetOnly
                        (buildAnalysis address testnetOnly tokenBalances)).
      { apply buildAnalysis_partitioned. intros ->. by apply (Htest address). }
      split; [|by intros a [= <-]].
      split; [|exact Hb']. simpl. apply cache_all_set; [by rewrite Hsame|].
      intros address' testnetOnly' Hkey.
      apply analysisCacheKey_mode in Hkey. by subst testnetOnly'.
    + split; [|discriminate]. split; [by rewrite Hsame | exact Hb'].
Qed.

Lemma reachable_partitioned st : reachable st -> cachesPartitioned st.
Proof.
  induction 1 as [key|st now env address testnetOnly _ IH].
  - split; apply cache_all_new.
  - by apply analyzeWallet_partitioned.
Qed.

(** C1, as the code has it.  In every state an analyzer can reach, an
    analysis returned for [testnetOnly = true] lists only testnet chains
    among its native balances and only testnet holdings, and in both modes
    every staking recommendation is of the requested kind (testnet in
    testnet mode, mainnet in mainnet mode).  Nothing is said of the native
    balances and holdings of a mainnet-mode analysis: they come from every
    chain the wallet provider supports. *)
Theorem testnet_partition (st : State) (now : Z) (env : Env) (address : string)
    (testnetOnly : bool) (a : WalletAnalysis) :
  reachable st ->
  fst (analyzeWallet now env address testnetOnly st) = Ok a ->
  (forall rec, In rec (stakingRecommendations a) -> sr_isTestnet rec = testnetOnly) /\
  (testnetOnly = true ->
   (forall chain b, In (chain, b) (nativeBalances a) -> isTestnetChain chain = true) /\
   (forall h, In h (wa_tokenHoldings a) ->
              isTestnetChain (chainName h) = true /\ isTestnet h = true)).
Proof.
  intros Hreach Hrun. apply reachable_partitioned in Hreach.
  by apply (analyzeWallet_partitioned now env address testnetOnly st Hreach).
Qed.

(** A testnet-mode analysis of the account with one Sepolia ether. *)
Lemma testnet_partition_witness :
  match fst (analyzeWallet 0 sepoliaWorld demoAddress true (initialState (Some demoKey)))
  with
  | Ok a =>
      (forall rec, In rec (stakingRecommendations a) -> sr_isTestnet rec = true) /\
      (true = true ->
       (forall chain b, In (chain, b) (nativeBalances a) -> isTestnetChain chain = true) /\
       (forall h, In h (wa_tokenHoldings a) ->
                  isTestnetChain (chainName h) = true /\ isTestnet h = true))
  | Err _ => False
  end.
Proof.
  destruct (fst (analyzeWallet 0 sepoliaWorld demoAddress true
                   (initialState (Some demoKey)))) as [a|m] eqn:E;
    [|vm_compute in E; discriminate].
  apply (testnet_partition (initialState (Some demoKey)) 0 sepoliaWorld demoAddress true a);
    [apply reach_new | exact E].
Defined.

(** A mainnet-mode analysis lists the Sepolia balance of the account: the
    flag does not partition the aggregation. *)
Lemma testnet_partition_counterexample :
  match fst (analyzeWallet 0 sepoliaWorld demoAddress false (initialState (Some demoKey)))
  with
  | Ok a =>
      exists chain b, In (chain, b) (nativeBalances a) /\ isTestnetChain chain = true
  | Err _ => False
  end.
Proof.
  destruct (fst (analyzeWallet 0 sepoliaWorld demoAddress false
                   (initialState (Some demoKey)))) as [a|m] eqn:E;
    vm_compute in E; [|discriminate].
  injection E as <-. cbn [nativeBalances].
  exists "sepolia", (1000000000000000000 # 1000000000000000000)%Q.
  split; [by left | reflexivity].
Qed.

(** ** Failing chains *)

Lemma flat_map_nil {A B : Type} (f : A -> list B) (l : list A) :
  (forall x, In x l -> f x = []) -> flat_map f l = [].
Proof.
  induction l as [|x l IH]; intros H; simpl; [done|].
  rewrite (H x) by (by left). apply IH. intros y Hy. apply H. by right.
Qed.









(** ** An account that holds nothing *)

Lemma clientFor_configured env walletProvider chain :
  In chain (keys CHAIN_CONFIG) ->
  exists client, clientFor env walletProvider chain = Ok client.
Proof.
  intros Hin. unfold clientFor.
  destruct (getPublicClient walletProvider chain) as [client|]; [by exists client|].
  exists (rpc env chain). unfold createPublicClient.
  simpl in Hin. repeat (destruct Hin as [<-|Hin]; [reflexivity|]). destruct Hin.
Qed.

Lemma tokenHoldingOf_zero client address chain isTestnetFlag tokenConfig :
  readContract client (tc_address tokenConfig) address = Some 0 ->
  tokenHoldingOf client address chain isTestnetFlag tokenConfig = [].
Proof. intros H. unfold tokenHoldingOf. by rewrite H. Qed.

Lemma snapshot_of_nothing env walletProvider address chain d :
  holdsNothing env walletProvider address ->
  getTokenBalancesForChain env walletProvider address chain = Ok d ->
  d = {| tb_address := address; tb_chainName := chain;
         nativeBalance := formatUnits 0 18; tokenHoldings := [];
         tb_isTestnet := isTestnetChain chain |}.
Proof.
  intros Hzero. unfold getTokenBalancesForChain.
  destruct (clientFor env walletProvider chain) as [client|m] eqn:E; [|discriminate].
  destruct (Hzero chain client E) as [Hnative Htokens].
  cbn [bind]. rewrite Hnative. intros [= <-]. f_equal.
  apply flat_map_nil. intros tokenConfig _. by apply tokenHoldingOf_zero.
Qed.

Lemma aggregate_of_nothing_mainnet env walletProvider address :
  holdsNothing env walletProvider address ->
  aggregate env walletProvider address false = [].
Proof.
  intros Hzero. apply flat_map_nil. intros chain _. unfold chainContribution.
  destruct (getTokenBalancesForChain env walletProvider address chain) as [d|m] eqn:E;
    [|done].
  by rewrite (snapshot_of_nothing _ _ _ _ _ Hzero E).
Qed.

Lemma chainContribution_of_nothing_testnet env walletProvider address chain :
  holdsNothing env walletProvider address ->
  In chain getTestnetChains ->
  chainContribution env walletProvider address true chain = [zeroSnapshot address chain].
Proof.
  intros Hzero Hchain. unfold chainContribution.
  destruct (getTokenBalancesForChain env walletProvider address chain) as [d|m] eqn:E.
  - rewrite (snapshot_of_nothing _ _ _ _ _ Hzero E).
    by rewrite (isTestnetChain_testnets chain Hchain).
  - exfalso. unfold getTokenBalancesForChain in E.
    destruct (clientFor_configured env walletProvider chain) as [client Hclient].
    + unfold getTestnetChains in Hchain. apply filter_In in Hchain. tauto.
    + by rewrite Hclient in E.
Qed.

Lemma aggregate_of_nothing_testnet env walletProvider address :
  holdsNothing env walletProvider address ->
  aggregate env walletProvider address true
  = map (zeroSnapshot address) getTestnetChains.
Proof.
  intros Hzero. unfold aggregate. cbn [chainsToCheck].
  assert (Hall : forall chains,
             (forall chain, In chain chains -> In chain getTestnetChains) ->
             flat_map (chainContribution env walletProvider address true) chains
             = map (zeroSnapshot address) chains).
  { induction chains as [|chain chains IH]; intros Hsub; [done|]. simpl.
    rewrite chainContribution_of_nothing_testnet; [|exact Hzero|apply Hsub; by left].
    simpl. f_equal. apply IH. intros c Hc. apply Hsub. by right. }
  by apply Hall.
Qed.

(** C3, as the code has it.  For an account with a zero native balance on
    every chain and no tokens, a run that reaches the aggregation and is
    not served from a cache returns an analysis with no staking
    recommendation and a risk score of exactly 45: the base 50, minus 15
    for the very small portfolio, plus 10 because the stablecoin share is
    below 0.1.  Its diversification score is 0 in mainnet mode and 60 in
    testnet mode, where the six testnet chains are listed with their zero
    balances. *)
Theorem zero_holdings_baseline (now : Z) (env : Env) (address : string)
    (testnetOnly : bool) (st : State) (walletProvider : WalletProvider) :
  ready env st walletProvider ->
  uncached now address testnetOnly st ->
  fetchCompletes env ->
  holdsNothing env walletProvider address ->
  exists a,
    fst (analyzeWallet now env address testnetOnly st) = Ok a /\
    stakingRecommendations a = [] /\
    riskScore (riskProfile a) = 50 - 15 + 10 /\
    diversificationScore a = if testnetOnly then 60 else 0.
Proof.
  intros Hready Hmiss Hfast Hzero.
  exists (buildAnalysis address testnetOnly
            (aggregate env walletProvider address testnetOnly)).
  split; [by apply analyzeWallet_fresh|].
  destruct testnetOnly.
  - rewrite (aggregate_of_nothing_testnet _ _ _ Hzero). by vm_compute.
  - rewrite (aggregate_of_nothing_mainnet _ _ _ Hzero). by vm_compute.
Qed.

(** An idle account on a fresh analyzer, in mainnet mode. *)
Lemma zero_holdings_baseline_witness :
  exists a,
    fst (analyzeWallet 0 idleWorld demoAddress false (initialState (Some demoKey)))
    = Ok a /\
    stakingRecommendations a = [] /\
    riskScore (riskProfile a) = 50 - 15 + 10 /\
    diversificationScore a = 0.
Proof.
  apply (zero_holdings_baseline 0 idleWorld demoAddress false
           (initialState (Some demoKey))
           (providerOf ["mainnet"; "base"; "arbitrum"; "polygon"] (fun _ => idleClient))).
  - exists (fun _ => Ok (providerOf ["mainnet"; "base"; "arbitrum"; "polygon"]
                           (fun _ => idleClient))), demoKey,
      "0x4c0883a69102937d6231471b5dbb6204fe5129617082792ae468d01a3f362318".
    repeat split; try reflexivity. discriminate.
  - split; reflexivity.
  - left. reflexivity.
  - intros chain client Hclient. unfold clientFor in Hclient. simpl in Hclient.
    injection Hclient as <-. split; [reflexivity|]. intros tokenAddress. reflexivity.
Defined.

(** The risk score of an idle account is 45, not 35, and in testnet mode
    its diversification score is 60, not 0. *)
Lemma zero_holdings_baseline_counterexample :
  (exists a,
      fst (analyzeWallet 0 idleWorld demoAddress false (initialState (Some demoKey)))
      = Ok a /\ riskScore (riskProfile a) = 45 /\ riskScore (riskProfile a) <> 35) /\
  (exists a,
      fst (analyzeWallet 0 idleWorld demoAddress true (initialState (Some demoKey)))
      = Ok a /\ diversificationScore a = 60 /\ diversificationScore a <> 0).
Proof.
  split.
  - destruct (fst (analyzeWallet 0 idleWorld demoAddress false
                     (initialState (Some demoKey)))) as [a|m] eqn:E;
      vm_compute in E; [|discriminate].
    exists a. injection E as <-. by repeat split.
  - destruct (fst (analyzeWallet 0 idleWorld demoAddress true
                     (initialState (Some demoKey)))) as [a|m] eqn:E;
      vm_compute in E; [|discriminate].
    exists a. injection E as <-. by repeat split.
Qed.

(** ** Failure of an analysis *)

(** C10. When the comprehensive analysis throws, [analyzeWallet] fails with
    its message wrapped, and the failure writes nothing to the analysis
    cache: the cache is what the initial lookup left, which holds no entry
    under the key of the call, keeps every other entry, and is the very
    cache from before the call unless the key held an expired entry (which
    that lookup evicted); whatever time a later call comes, the cache does
    not serve it. *)
Theorem failure_atomicity (now : Z) (env : Env) (address : string)
    (testnetOnly : bool) (st st' : State) (m : string) :
  analyzeWallet now env address testnetOnly st = (Err m, st') ->
  let key := analysisCacheKey address testnetOnly in
  (exists cause st1,
      performComprehensiveAnalysisWithStaking now env address testnetOnly
        (withAnalysisCache st (snd (Cache.get now key (analysisCache st))))
      = (Err cause, st1) /\
      m = "Failed to analyze wallet: " +:+ cause) /\
  analysisCache st' = snd (Cache.get now key (analysisCache st)) /\
  Cache.cache (analysisCache st') !! key = None /\
  (forall k, k <> key ->
             Cache.cache (analysisCache st') !! k = Cache.cache (analysisCache st) !! k) /\
  (~ Cache.expired now key (analysisCache st) -> analysisCache st' = analysisCache st) /\
  (forall later, fst (Cache.get later key (analysisCache st')) = None).
Proof.
  intros Hrun key. unfold analyzeWallet in Hrun. fold key in Hrun.
  destruct (Cache.get now key (analysisCache st)) as [[cached|] c] eqn:Hget;
    [discriminate|].
  pose proof (perform_analysisCache now env address testnetOnly (withAnalysisCache st c))
    as Hsame.
  destruct (performComprehensiveAnalysisWithStaking now env address testnetOnly
              (withAnalysisCache st c)) as [[analysis|cause] st1] eqn:Hperform;
    [discriminate|].
  injection Hrun as <- <-. simpl in Hsame.
  assert (Hnone : Cache.cache c !! key = None) by (by apply get_none_lookup in Hget).
  split; [by exists cause, st1|]. simpl. rewrite Hsame.
  split; [done|]. split; [exact Hnone|]. split; [|split].
  - intros k Hne. pose proof (get_other now key k (analysisCache st)) as Hother.
    rewrite Hget in Hother. by apply Hother.
  - intros Hfresh. unfold Cache.get in Hget.
    destruct (Cache.cache (analysisCache st) !! key) as [item|] eqn:Hitem;
      [|by injection Hget as <-].
    destruct (Z.gtb_spec (now - Cache.timestamp item) (Cache.ttl (analysisCache st)));
      [|discriminate].
    exfalso. apply Hfresh. exists item. split; [done | lia].
  - intros later. by rewrite get_absent.
Qed.

(** The EVM plugin is missing: the analysis throws on a fresh analyzer. *)
Lemma failure_atomicity_witness :
  let env := {| initWalletProvider := None; rpc := fun _ => downClient;
                fetchTimesOut := fun _ => false |} in
  let st := initialState (Some demoKey) in
  let st' := snd (analyzeWallet 0 env demoAddress false st) in
  analysisCache st' = snd (Cache.get 0 (analysisCacheKey demoAddress false)
                             (analysisCache st)) /\
  Cache.cache (analysisCache st') !! analysisCacheKey demoAddress false = None.
Proof.
  intros env st st'.
  destruct (failure_atomicity 0 env demoAddress false st st'
              "Failed to analyze wallet: EVM plugin not available - cannot perform wallet analysis")
    as (_ & Hsame & Hnone & _).
  - reflexivity.
  - split; [exact Hsame | exact Hnone].
Defined.


(** * Further properties of the analyzer *)

(** ** The caches *)

(** X1. A lookup never changes what a later lookup returns: the eviction
    done by [get] at time [now] cannot be observed by any [get] at a time
    [now'] that is not earlier. *)
Theorem cache_get_unobservable {T : Type} (c : Cache.t T) (now now' : Z)
    (k k' : string) :
  now <= now' ->
  fst (Cache.get now' k' (snd (Cache.get now k c))) = fst (Cache.get now' k' c).
Proof.
  intros Hlater. unfold Cache.get at 2.
  destruct (Cache.cache c !! k) as [item|] eqn:Hk; [|done].
  destruct (Z.gtb_spec (now - Cache.timestamp item) (Cache.ttl c)) as [Hold|Hyoung];
    [|done].
  cbn [snd]. unfold Cache.get. cbn [Cache.cache Cache.ttl].
  destruct (decide (k = k')) as [<-|Hne].
  - rewrite lookup_delete_eq, Hk.
    destruct (Z.gtb_spec (now' - Cache.timestamp item) (Cache.ttl c)); [done | lia].
  - rewrite lookup_delete_ne by done.
    destruct (Cache.cache c !! k') as [item'|]; [|done].
    by destruct (_ >? _).
Qed.

(** An entry written at time 0 and read at the TTL plus one, then again
    later. *)
Lemma cache_get_unobservable_witness :
  let c := Cache.set 0 "k" 7%nat (Cache.new 300000) in
  fst (Cache.get 400000 "k" (snd (Cache.get 300001 "k" c)))
  = fst (Cache.get 400000 "k" c).
Proof.
  intros c. apply (cache_get_unobservable c 300001 400000 "k" "k"). lia.
Defined.

Lemma list_ascii_of_append a b :
  list_ascii_of_string (a +:+ b) = (list_ascii_of_string a ++ list_ascii_of_string b)%list.
Proof. induction a as [|ch a IH]; simpl; [done|]. by rewrite IH. Qed.

Lemma list_ascii_of_string_inj a b :
  list_ascii_of_string a = list_ascii_of_string b -> a = b.
Proof.
  intros H. rewrite <- (string_of_list_ascii_of_string a),
    <- (string_of_list_ascii_of_string b). by rewrite H.
Qed.

Lemma append_cancel_r a b s : a +:+ s = b +:+ s -> a = b.
Proof.
  intros H. apply (f_equal list_ascii_of_string) in H.
  rewrite !list_ascii_of_append in H. apply app_inv_tail in H.
  by apply list_ascii_of_string_inj.
Qed.

(** X2. Distinct requests never share a cache entry: the key of the
    analysis cache and the key of the balance cache determine both the
    address and the mode. *)
Theorem cache_keys_injective (address address' : string) (testnetOnly testnetOnly' : bool) :
  (analysisCacheKey address testnetOnly = analysisCacheKey address' testnetOnly' <->
   address = address' /\ testnetOnly = testnetOnly') /\
  (balancesCacheKey address testnetOnly = balancesCacheKey address' testnetOnly' <->
   address = address' /\ testnetOnly = testnetOnly').
Proof.
  split; split.
  - intros H. pose proof (analysisCacheKey_mode _ _ _ _ H) as <-.
    split; [|done]. unfold analysisCacheKey in H. by apply append_cancel_r in H.
  - by intros [-> ->].
  - intros H. pose proof (balancesCacheKey_mode _ _ _ _ H) as <-.
    split; [|done]. unfold balancesCacheKey in H. by apply append_cancel_r in H.
  - by intros [-> ->].
Qed.

Lemma analyzeWallet_ttl now env address testnetOnly st :
  Cache.ttl (analysisCache (snd (analyzeWallet now env address testnetOnly st)))
  = Cache.ttl (analysisCache st).
Proof.
  unfold analyzeWallet.
  pose proof (get_ttl now (analysisCacheKey address testnetOnly) (analysisCache st))
    as Hget.
  destruct (Cache.get now _ (analysisCache st)) as [[cached|] c]; simpl in Hget;
    [done|].
  pose proof (perform_analysisCache now env address testnetOnly (withAnalysisCache st c))
    as Hsame.
  destruct (performComprehensiveAnalysisWithStaking _ _ _ _ _) as [[analysis|m] st'];
    simpl in *; by rewrite Hsame.
Qed.

Lemma reachable_ttl st : reachable st -> Cache.ttl (analysisCache st) = 600000.
Proof.
  induction 1 as [key|st now env address testnetOnly _ IH]; [reflexivity|].
  by rewrite analyzeWallet_ttl.
Qed.

(** X3. Replay.  Once [analyzeWallet] has computed an analysis at time
    [t0], every call for the same address and mode up to ten minutes later
    returns that very analysis and leaves the analyzer as it is, whatever
    the plugin, the settings and the chains do by then. *)
Theorem analysis_replayed_within_ttl (st st' : State) (t0 t : Z) (env env' : Env)
    (address : string) (testnetOnly : bool) (a : WalletAnalysis) :
  reachable st ->
  fst (Cache.get t0 (analysisCacheKey address testnetOnly) (analysisCache st)) = None ->
  analyzeWallet t0 env address testnetOnly st = (Ok a, st') ->
  t - t0 <= 10 * 60 * 1000 ->
  analyzeWallet t env' address testnetOnly st' = (Ok a, st').
Proof.
  intros Hreach Hmiss Hrun Hsoon.
  pose proof (reachable_ttl st Hreach) as Httl.
  pose proof (get_ttl t0 (analysisCacheKey address testnetOnly) (analysisCache st))
    as Hget.
  unfold analyzeWallet in Hrun.
  destruct (Cache.get t0 _ (analysisCache st)) as [[cached|] c]; [discriminate|].
  simpl in Hget.
  pose proof (perform_analysisCache t0 env address testnetOnly (withAnalysisCache st c))
    as Hsame.
  destruct (performComprehensiveAnalysisWithStaking _ _ _ _ _) as [[analysis|m] st1];
    [|discriminate].
  simpl in Hsame. injection Hrun as <- <-.
  unfold analyzeWallet.
  rewrite (get_fresh t (analysisCacheKey address testnetOnly) _
             {| Cache.data := analysis; Cache.timestamp := t0 |}).
  - reflexivity.
  - cbn. apply lookup_insert_eq.
  - cbn. rewrite Hsame, Hget, Httl. lia.
Qed.

(** An idle account analysed on a new analyzer, and asked for again five
    minutes later while no chain answers any more. *)
Lemma analysis_replayed_within_ttl_witness :
  let st := initialState (Some demoKey) in
  let r := analyzeWallet 0 idleWorld demoAddress false st in
  match fst r with
  | Ok a => analyzeWallet 300000 downWorld demoAddress false (snd r) = (Ok a, snd r)
  | Err _ => False
  end.
Proof.
  intros st r.
  destruct (fst r) as [a|m] eqn:E; [|vm_compute in E; discriminate].
  apply (analysis_replayed_within_ttl st (snd r) 0 300000 idleWorld downWorld
           demoAddress false a).
  - apply reach_new.
  - reflexivity.
  - rewrite <- E. apply surjective_pairing.
  - lia.
Defined.

(** ** Ranges of the scores *)

Lemma tokenTypes_at_most_three (l : list TokenType) :
  (length (nodup TokenType_eq_dec l) <= 3)%nat.
Proof.
  apply (NoDup_incl_length (l' := [TT_stablecoin; TT_defi; TT_other])).
  - apply NoDup_nodup.
  - intros [] _; simpl; auto.
Qed.

(** X4. The diversification score lies between 0 and 95, so its clamp to
    100 never acts; it is 0 exactly for a wallet with no holding and no
    chain. *)
Theorem diversification_score_range (tokenHoldings : list TokenHolding)
    (nativeBalances : NativeBalances) :
  0 <= calculateDiversificationScore tokenHoldings nativeBalances <= 95 /\
  (calculateDiversificationScore tokenHoldings nativeBalances = 0 <->
   tokenHoldings = [] /\ nativeBalances = []).
Proof.
  unfold calculateDiversificationScore, keys.
  pose proof (tokenTypes_at_most_three (map tokenTypeOf tokenHoldings)) as Htypes.
  rewrite length_map.
  set (types := length (nodup TokenType_eq_dec (map tokenTypeOf tokenHoldings))) in *.
  split; [lia|]. split.
  - intros Hzero.
    destruct tokenHoldings as [|t l], nativeBalances as [|e o]; simpl in *; try lia.
    done.
  - intros [-> ->]. reflexivity.
Qed.

Lemma filter_none {A : Type} (f : A -> bool) (l : list A) :
  (forall x, In x l -> f x = false) -> List.filter f l = [].
Proof.
  induction l as [|x l IH]; intros H; simpl; [done|].
  rewrite (H x) by (by left). apply IH. intros y Hy. apply H. by right.
Qed.

Lemma filter_Qlen_le {A : Type} (f : A -> bool) (l : list A) :
  (Qlen (List.filter f l) <= Qlen l)%Q.
Proof.
  unfold Qlen. rewrite <- Zle_Qle. apply inj_le. apply filter_length_le.
Qed.

Lemma ratio_range (n m : Q) : (0 <= n)%Q -> (n <= m)%Q -> (0 < m)%Q ->
  (0 <= n / m <= 1)%Q.
Proof.
  intros Hn Hnm Hm. split.
  - apply Qle_shift_div_l; [exact Hm | lra].
  - apply Qle_shift_div_r; [exact Hm | lra].
Qed.

Lemma Qlen_max_1 {A : Type} (l : list A) :
  (Qlen l <= inject_Z (Z.max (Z.of_nat (length l)) 1))%Q /\
  (0 < inject_Z (Z.max (Z.of_nat (length l)) 1))%Q.
Proof.
  unfold Qlen. rewrite <- Zle_Qle. split; [lia|].
  change 0%Q with (inject_Z 0). rewrite <- Zlt_Qlt. lia.
Qed.

(** X5. The liquidity risk is a fraction: it lies between 0 and 1, it is
    0 for a wallet without tokens and 1 for a wallet none of whose tokens is
    a liquid one. *)
Theorem liquidity_risk_range (tokenHoldings : list TokenHolding) :
  (0 <= calculateLiquidityRisk tokenHoldings <= 1)%Q /\
  (tokenHoldings = [] -> calculateLiquidityRisk tokenHoldings = 0%Q) /\
  (tokenHoldings <> [] ->
   (forall t, In t tokenHoldings ->
              includes ["USDC"; "USDT"; "DAI"; "WETH"; "UNI"] (symbol t) = false) ->
   (calculateLiquidityRisk tokenHoldings == 1)%Q).
Proof.
  unfold calculateLiquidityRisk.
  set (liquid := List.filter _ tokenHoldings).
  split; [|split].
  - destruct (Nat.ltb_spec 0 (length tokenHoldings)) as [Hsome|Hnone]; [|lra].
    assert (Hpos : (0 < Qlen tokenHoldings)%Q).
    { unfold Qlen. change 0%Q with (inject_Z 0). rewrite <- Zlt_Qlt. lia. }
    destruct (ratio_range (Qlen liquid) (Qlen tokenHoldings)) as [Hlo Hhi];
      [apply Qlen_nonneg | apply filter_Qlen_le | exact Hpos |].
    lra.
  - by intros ->.
  - intros Hne Hnone.
    assert (liquid = []) as -> by (by apply filter_none).
    destruct tokenHoldings as [|t l]; [done|].
    assert ((0 <? length (t :: l))%nat = true) as -> by done.
    change (Qlen (@nil TokenHolding)) with 0%Q. unfold Qdiv. lra.
Qed.

(** A wallet that holds one LINK position. *)
Lemma liquidity_risk_range_witness :
  let link := {| symbol := "LINK"; th_address := "0x7798"; balance := 3%Q;
                 decimals := 18; chainName := "sepolia"; isStakeable := true;
                 stakingOptions := []; isTestnet := true |} in
  (calculateLiquidityRisk [link] == 1)%Q.
Proof.
  intros link. destruct (liquidity_risk_range [link]) as (_ & _ & Hone).
  apply Hone; [discriminate|]. intros t [<-|[]]. reflexivity.
Defined.

(** X6. The liquidity profile keeps a reserve: the liquidity ratio lies
    between 0 and 1, and for a portfolio of non-negative value the staking
    capacity is never negative and never more than 80 percent of the total
    value (native balance plus token balances), while the emergency buffer
    is a tenth of it. *)
Theorem liquidity_profile_reserve (tokenHoldings : list TokenHolding) (nativeBalance : Q) :
  (0 <= nativeBalance + sumBalances tokenHoldings)%Q ->
  let profile := assessLiquidityProfile tokenHoldings nativeBalance in
  let totalValue := (nativeBalance + sumBalances tokenHoldings)%Q in
  (0 <= liquidityRatio profile <= 1)%Q /\
  (0 <= stakingCapacity profile <= totalValue * 0.8)%Q /\
  (emergencyBuffer profile == totalValue * 0.1)%Q.
Proof.
  intros Hvalue profile totalValue. unfold profile, assessLiquidityProfile.
  cbn [liquidityRatio stakingCapacity emergencyBuffer].
  set (liquid := List.filter _ tokenHoldings).
  set (ratio := (Qlen liquid / inject_Z (Z.max (Z.of_nat (length tokenHoldings)) 1))%Q).
  assert (Hratio : (0 <= ratio <= 1)%Q).
  { destruct (Qlen_max_1 tokenHoldings) as [Hle Hpos].
    apply ratio_range; [apply Qlen_nonneg | | exact Hpos].
    eapply Qle_trans; [apply filter_Qlen_le | exact Hle]. }
  assert (Htotal : (nativeBalance
                    + fold_left (fun sum token => sum + balance token) tokenHoldings 0
                    == totalValue)%Q).
  { rewrite fold_total. unfold totalValue. ring. }
  split; [exact Hratio|]. split.
  - split; [apply Qmax_ge_l|].
    apply Qmax_lub; [unfold totalValue in *; lra|].
    rewrite Htotal.
    pose proof (Qmax_ge_r ratio 0.2) as Hreserve.
    pose proof (Qmax_lub ratio 0.2 1) as Hcap.
    set (reserve := Qmax ratio 0.2) in *. clearbody reserve.
    assert (Hscaled : ((1 - reserve) * totalValue <= (1 - 0.2) * totalValue)%Q)
      by (apply Qmult_le_compat_r; unfold totalValue in *; lra).
    assert (Hcomm : (totalValue * (1 - reserve) == (1 - reserve) * totalValue)%Q) by ring.
    rewrite Hcomm. eapply Qle_trans; [exact Hscaled|].
    assert (Heq : ((1 - 0.2) * totalValue == totalValue * 0.8)%Q) by ring.
    rewrite Heq. apply Qle_refl.
  - rewrite Htotal. reflexivity.
Qed.

(** Two ether and a hundred USDC. *)
Lemma liquidity_profile_reserve_witness :
  let usdc := {| symbol := "USDC"; th_address := "0xA0b8"; balance := 100%Q;
                 decimals := 6; chainName := "mainnet"; isStakeable := true;
                 stakingOptions := []; isTestnet := false |} in
  let profile := assessLiquidityProfile [usdc] 2 in
  (0 <= liquidityRatio profile <= 1)%Q /\
  (0 <= stakingCapacity profile <= (2 + sumBalances [usdc]) * 0.8)%Q /\
  (emergencyBuffer profile == (2 + sumBalances [usdc]) * 0.1)%Q.
Proof.
  intros usdc. apply (liquidity_profile_reserve [usdc] 2). vm_compute. discriminate.
Defined.

(** ** The risk profile *)

(** X7. The fields of a risk profile agree with one another: the score
    lies between 25 and 100, the tolerance tier, the lock period tolerance
    and the maximal single position are those of one and the same tier, and
    the staking risk tolerance is LOW only in the moderate tier and HIGH only
    in the two highest tiers. *)
Theorem risk_profile_coherent (nativeBalance : Q) (tokenHoldings : list TokenHolding)
    (tokenAnalysis : TokenAnalysis) :
  let profile := assessComprehensiveRisk nativeBalance tokenHoldings tokenAnalysis in
  25 <= riskScore profile <= 100 /\
  match riskTolerance profile with
  | CONSERVATIVE => False
  | MODERATE =>
      riskScore profile < 50 /\ lockPeriodTolerance profile = 30 /\
      maxSinglePosition profile = (nativeBalance * 0.2)%Q /\
      stakingRiskTolerance profile <> HIGH
  | AGGRESSIVE =>
      50 <= riskScore profile < 75 /\ lockPeriodTolerance profile = 90 /\
      maxSinglePosition profile = (nativeBalance * 0.4)%Q /\
      stakingRiskTolerance profile <> LOW
  | DEGENERATE =>
      75 <= riskScore profile /\ lockPeriodTolerance profile = 365 /\
      maxSinglePosition profile = (nativeBalance * 0.6)%Q /\
      stakingRiskTolerance profile = HIGH
  | UNKNOWN => False
  end.
Proof.
  intros profile.
  pose proof (riskScore_lower nativeBalance tokenHoldings tokenAnalysis) as Hlow.
  fold profile in Hlow.
  assert (Hhigh : riskScore profile <= 100).
  { unfold profile, assessComprehensiveRisk. cbn [riskScore]. lia. }
  split; [lia|].
  unfold profile, assessComprehensiveRisk in *.
  cbn [riskScore riskTolerance lockPeriodTolerance maxSinglePosition
         stakingRiskTolerance] in *.
  set (score := Z.max 0 (Z.min 100 _)) in *. clearbody score.
  unfold mapRiskScoreToTolerance, calculateLockPeriodTolerance, getMaxPositionRatio.
  destruct (Z.ltb_spec score 25); [lia|].
  destruct (Z.ltb_spec score 50).
  - repeat split; try lia. destruct (Z.ltb_spec score 30); [done|].
    destruct (Z.gtb_spec score 70); [lia | done].
  - destruct (Z.ltb_spec score 75).
    + repeat split; try lia. destruct (Z.ltb_spec score 30); [lia|].
      by destruct (score >? 70).
    + repeat split; try lia. destruct (Z.ltb_spec score 30); [lia|].
      destruct (Z.gtb_spec score 70); [done | lia].
Qed.

Lemma sizeAdjustment_nonempty nativeBalance t l :
  (0 <= nativeBalance)%Q -> 0 <= sizeAdjustment nativeBalance (t :: l).
Proof.
  intros Hnn. unfold sizeAdjustment.
  destruct (Qgtb _ 100); [lia|]. destruct (Qgtb _ 10); [lia|].
  destruct (Qltb _ 1) eqn:E; [|lia].
  apply Qltb_true in E. rewrite Qlen_cons in E. pose proof (Qlen_nonneg l). lra.
Qed.

(** X8. On a holdings snapshot (non-negative native balance, token
    analysis taken from the same holdings) the risk score is at least 42:
    the staking risk tolerance is then never LOW and the lock period
    tolerance is 30 days or more. *)
Theorem snapshot_risk_floor (nativeBalance : Q) (tokenHoldings : list TokenHolding) :
  (0 <= nativeBalance)%Q ->
  let profile :=
    assessComprehensiveRisk nativeBalance tokenHoldings
      (analyzeTokenHoldings tokenHoldings) in
  42 <= riskScore profile /\
  stakingRiskTolerance profile <> LOW /\
  30 <= lockPeriodTolerance profile.
Proof.
  intros Hnn profile.
  assert (Hfloor : 42 <= riskScore profile).
  { unfold profile, assessComprehensiveRisk. cbn [riskScore].
    pose proof (stablecoinAdjustment_bounds tokenHoldings
                  (analyzeTokenHoldings tokenHoldings)) as Hstable.
    destruct tokenHoldings as [|t l].
    - pose proof (sizeAdjustment_bounds nativeBalance []) as Hsize.
      assert (stablecoinAdjustment [] (analyzeTokenHoldings []) = 10) as -> by reflexivity.
      destruct (Qgtb _ 0.5); simpl length; lia.
    - pose proof (sizeAdjustment_nonempty nativeBalance t l Hnn) as Hsize.
      destruct (Qgtb _ 0.5); simpl length; lia. }
  split; [exact Hfloor|].
  unfold profile, assessComprehensiveRisk in *.
  cbn [riskScore stakingRiskTolerance lockPeriodTolerance] in *.
  set (score := Z.max 0 (Z.min 100 _)) in *. clearbody score.
  unfold calculateLockPeriodTolerance. split.
  - destruct (Z.ltb_spec score 30); [lia|]. by destruct (score >? 70).
  - destruct (Z.ltb_spec score 25); [lia|].
    destruct (score <? 50); [lia|]. destruct (score <? 75); lia.
Qed.

(** Two equal stablecoin positions and no native balance: the score is 44. *)
Lemma snapshot_risk_floor_witness :
  let h (s : string) :=
    {| symbol := s; th_address := s; balance := 10%Q; decimals := 6;
       chainName := "mainnet"; isStakeable := true; stakingOptions := [];
       isTestnet := false |} in
  let profile :=
    assessComprehensiveRisk 0 [h "USDC"; h "USDT"]
      (analyzeTokenHoldings [h "USDC"; h "USDT"]) in
  42 <= riskScore profile /\
  stakingRiskTolerance profile <> LOW /\
  30 <= lockPeriodTolerance profile.
Proof.
  intros h. apply (snapshot_risk_floor 0 [h "USDC"; h "USDT"]). discriminate.
Defined.

(** ** The order of the recommendations *)

Section StableSortFacts.
Context {A : Type} (before : A -> A -> bool).

Lemma insert_sorted_perm x (l : list A) :
  Permutation (insert_sorted before x l) (x :: l).
Proof.
  induction l as [|y l IH]; simpl; [done|].
  destruct (before y x); [|done].
  rewrite IH. apply perm_swap.
Qed.

Lemma stable_sort_perm (l : list A) : Permutation (stable_sort before l) l.
Proof.
  induction l as [|x l IH]; simpl; [done|].
  rewrite insert_sorted_perm. by constructor.
Qed.

(** Elements none of which goes strictly before another keep their order. *)
Lemma insert_sorted_filter (P : A -> bool) x (l : list A) :
  (forall y, P y = true -> P x = true -> before y x = false) ->
  List.filter P (insert_sorted before x l) = List.filter P (x :: l).
Proof.
  intros Hclass. induction l as [|y l IH]; [done|]. simpl.
  destruct (before y x) eqn:Hyx; [|done]. simpl. simpl in IH. rewrite IH.
  destruct (P y) eqn:Hy, (P x) eqn:Hx; try done.
  rewrite Hclass in Hyx by done. discriminate.
Qed.

Lemma stable_sort_filter (P : A -> bool) (l : list A) :
  (forall x y, P x = true -> P y = true -> before x y = false) ->
  List.filter P (stable_sort before l) = List.filter P l.
Proof.
  intros Hclass. induction l as [|x l IH]; [done|]. simpl stable_sort.
  rewrite insert_sorted_filter by (intros; by apply Hclass).
  simpl. by rewrite IH.
Qed.

Context (Hasym : forall x y, before x y = true -> before y x = false)
  (Htrans : forall x y z, before y x = false -> before z y = false ->
                          before z x = false).

Lemma insert_sorted_sorted x (l : list A) :
  StronglySorted (fun a b => before b a = false) l ->
  StronglySorted (fun a b => before b a = false) (insert_sorted before x l).
Proof.
  induction 1 as [|y l Hsorted IH Hall]; simpl; [by repeat constructor|].
  destruct (before y x) eqn:Hyx.
  - constructor; [exact IH|].
    apply List.Forall_forall. intros z Hz.
    apply In_insert_sorted in Hz. destruct Hz as [->|Hz]; [by apply Hasym|].
    rewrite List.Forall_forall in Hall. by apply Hall.
  - constructor; [by constructor|].
    constructor; [exact Hyx|].
    apply List.Forall_forall. intros z Hz.
    rewrite List.Forall_forall in Hall. eapply Htrans; [exact Hyx | by apply Hall].
Qed.

Lemma stable_sort_sorted (l : list A) :
  StronglySorted (fun a b => before b a = false) (stable_sort before l).
Proof.
  induction l as [|x l IH]; simpl; [constructor|]. by apply insert_sorted_sorted.
Qed.

End StableSortFacts.

Lemma StronglySorted_weaken {A : Type} (R R' : A -> A -> Prop) (l : list A) :
  (forall a b, R a b -> R' a b) -> StronglySorted R l -> StronglySorted R' l.
Proof.
  intros Himpl. induction 1 as [|x l Hsorted IH Hall]; constructor; [exact IH|].
  eapply List.Forall_impl; [|exact Hall]. intros b. apply Himpl.
Qed.

(** X9. The recommendations come out ranked: the list returned is a
    rearrangement of the recommendations found, no recommendation is
    followed by one of a higher priority, and the recommendations of one
    priority keep the order in which they were found (native ones chain by
    chain, then token ones). *)
Theorem recommendations_ranked (nativeBalances : NativeBalances)
    (tokenHoldings : list TokenHolding) (strategy : StakingStrategy)
    (riskProfile : WalletRiskProfile) (testnetOnly : bool) :
  let found :=
    discoveredRecommendations nativeBalances tokenHoldings strategy testnetOnly in
  let ranked :=
    generateRealStakingRecommendations nativeBalances tokenHoldings strategy
      riskProfile testnetOnly in
  Permutation ranked found /\
  StronglySorted
    (fun a b => priorityOrder (priority b) <= priorityOrder (priority a)) ranked /\
  forall p,
    List.filter (fun rec => Level_eqb (priority rec) p) ranked
    = List.filter (fun rec => Level_eqb (priority rec) p) found.
Proof.
  intros found ranked.
  set (before := fun a b : StakingRecommendation =>
                   priorityOrder (priority b) - priorityOrder (priority a) <? 0).
  assert (Hranked : ranked = stable_sort before found) by reflexivity.
  rewrite Hranked. split; [apply stable_sort_perm|]. split.
  - apply (StronglySorted_weaken (fun a b => before b a = false)).
    + intros a b Hab. unfold before in Hab. lia.
    + apply stable_sort_sorted.
      * intros x y Hxy. unfold before in *. lia.
      * intros x y z Hyx Hzy. unfold before in *. lia.
  - intros p. apply stable_sort_filter. intros x y Hx Hy. unfold before.
    destruct (priority x), (priority y), p; try discriminate; reflexivity.
Qed.

Lemma filter_all {A : Type} (f : A -> bool) (l : list A) x :
  In x (List.filter f l) -> f x = true.
Proof. intros H. apply filter_In in H. tauto. Qed.

(** X10. Every recommendation lists at least one staking option, and all
    the options it lists suit the risk tolerance of the strategy: only LOW
    risk options for a conservative strategy, no HIGH risk option for a
    moderate one. *)
Theorem recommended_options_suit_tolerance (nativeBalances : NativeBalances)
    (tokenHoldings : list TokenHolding) (strategy : StakingStrategy)
    (riskProfile : WalletRiskProfile) (testnetOnly : bool)
    (rec : StakingRecommendation) :
  In rec (generateRealStakingRecommendations nativeBalances tokenHoldings strategy
            riskProfile testnetOnly) ->
  options rec <> [] /\
  forall o, In o (options rec) ->
    (ss_riskTolerance strategy = CONSERVATIVE -> riskLevel o = LOW) /\
    (ss_riskTolerance strategy = MODERATE -> riskLevel o <> HIGH).
Proof.
  intros Hin. unfold generateRealStakingRecommendations in Hin.
  apply In_stable_sort, in_app_or in Hin.
  assert (Hsuit : forall o, riskCompatible (ss_riskTolerance strategy) o = true ->
            (ss_riskTolerance strategy = CONSERVATIVE -> riskLevel o = LOW) /\
            (ss_riskTolerance strategy = MODERATE -> riskLevel o <> HIGH)).
  { intros o Ho. split; intros Htol; rewrite Htol in Ho; simpl in Ho;
      destruct (riskLevel o); done. }
  destruct Hin as [Hin|Hin]; apply in_flat_map in Hin.
  - destruct Hin as ([chain ethBalance] & _ & Hrec). unfold ethRecommendation in Hrec.
    destruct (testnetOnly && negb (isTestnetChain chain)); [destruct Hrec|].
    destruct (negb testnetOnly && isTestnetChain chain); [destruct Hrec|].
    destruct (Qgtb ethBalance _); [|destruct Hrec].
    destruct (Qgeb _ _); [|destruct Hrec].
    destruct (List.filter _ _) as [|o1 os] eqn:Hopts; [destruct Hrec|].
    destruct Hrec as [<-|[]]. cbn [options]. split; [done|].
    intros o Ho. apply Hsuit. rewrite <- Hopts in Ho. by apply filter_all in Ho.
  - destruct Hin as (holding & _ & Hrec). unfold tokenRecommendation in Hrec.
    destruct (_ && _); [|destruct Hrec].
    destruct (List.filter _ _) as [|o1 os] eqn:Hopts; [destruct Hrec|].
    destruct Hrec as [<-|[]]. cbn [options]. split; [done|].
    intros o Ho. apply Hsuit. rewrite <- Hopts in Ho. by apply filter_all in Ho.
Qed.

(** The single recommendation for a wallet of two mainnet ether under a
    moderate strategy. *)
Lemma recommended_options_suit_tolerance_witness :
  let strategy :=
    {| recommendedAllocation := 60; preferredProtocols := ["Lido"];
       ss_riskTolerance := MODERATE; liquidityBuffer := 0; stakingHorizon := 365;
       diversificationGoal := 2 |} in
  let profile := assessComprehensiveRisk 2 [] (analyzeTokenHoldings []) in
  match generateRealStakingRecommendations [("mainnet", 2%Q)] [] strategy profile false
  with
  | rec :: _ =>
      options rec <> [] /\
      forall o, In o (options rec) ->
        (MODERATE = CONSERVATIVE -> riskLevel o = LOW) /\
        (MODERATE = MODERATE -> riskLevel o <> HIGH)
  | [] => False
  end.
Proof.
  intros strategy profile.
  destruct (generateRealStakingRecommendations [("mainnet", 2%Q)] [] strategy profile
              false) as [|rec rest] eqn:E; [vm_compute in E; discriminate|].
  apply (recommended_options_suit_tolerance [("mainnet", 2%Q)] [] strategy profile
           false rec).
  rewrite E. by left.
Defined.






(** ** The private key setting *)

Lemma isHexDigit_not_space c : isHexDigit c = true -> isSpace c = false.
Proof.
  destruct c as [[] [] [] [] [] [] [] []]; vm_compute; congruence.
Qed.

Lemma dropSpaces_head c l : isSpace c = false -> dropSpaces (c :: l) = c :: l.
Proof. intros H. simpl. by rewrite H. Qed.

Lemma trim_hex_key hex :
  length hex = 64%nat -> forallb isHexDigit hex = true ->
  trim ("0x" +:+ string_of_list_ascii hex) = ("0" :: "x" :: hex)%char.
Proof.
  intros Hlen Hhex. unfold trim.
  change (list_ascii_of_string ("0x" +:+ string_of_list_ascii hex))
    with ("0"%char :: "x"%char :: list_ascii_of_string (string_of_list_ascii hex)).
  rewrite list_ascii_of_string_of_list_ascii.
  rewrite dropSpaces_head by reflexivity.
  destruct (rev hex) as [|c tail] eqn:Hrev.
  - apply (f_equal (@length ascii)) in Hrev. rewrite length_rev, Hlen in Hrev.
    discriminate.
  - simpl rev. rewrite Hrev. rewrite <- !app_assoc. simpl app.
    rewrite dropSpaces_head.
    + change (c :: tail ++ ["x"%char; "0"%char])
        with ((c :: tail) ++ ["x"%char; "0"%char])%list.
      rewrite <- Hrev, rev_app_distr, rev_involutive. reflexivity.
    + apply isHexDigit_not_space. rewrite forallb_forall in Hhex. apply Hhex.
      apply in_rev. rewrite Hrev. by left.
Qed.

Lemma length_string_of_list_ascii (l : list ascii) :
  String.length (string_of_list_ascii l) = length l.
Proof. induction l as [|c l IH]; simpl; [done|]. by rewrite IH. Qed.

(** X12. What [normalizePrivateKey] accepts it returns as ["0x"] followed
    by 64 hexadecimal digits, and a key in that form is a fixed point:
    normalising it again returns it unchanged. *)
Theorem normalizePrivateKey_canonical (privateKey fixedKey : string) :
  normalizePrivateKey privateKey = Some fixedKey ->
  (exists hex,
      fixedKey = "0x" +:+ string_of_list_ascii hex /\
      length hex = 64%nat /\ forallb isHexDigit hex = true) /\
  String.length fixedKey = 66%nat /\
  normalizePrivateKey fixedKey = Some fixedKey.
Proof.
  unfold normalizePrivateKey at 1.
  set (hex := match trim privateKey with
              | "0"%char :: "x"%char :: rest => rest
              | _ => trim privateKey
              end).
  destruct (Nat.eqb_spec (length hex) 64) as [Hlen|]; [|discriminate].
  destruct (forallb isHexDigit hex) eqn:Hhex; [|discriminate].
  cbn [negb]. intros [= <-].
  split; [by exists hex|]. split.
  - change (String.length ("0x" +:+ string_of_list_ascii hex))
      with (S (S (String.length (string_of_list_ascii hex)))).
    by rewrite length_string_of_list_ascii, Hlen.
  - unfold normalizePrivateKey. rewrite (trim_hex_key hex Hlen Hhex).
    rewrite Hlen, Hhex. reflexivity.
Qed.

(** A key given without prefix and with blanks around it. *)
Lemma normalizePrivateKey_canonical_witness :
  let fixedKey := demoKey in
  String.length fixedKey = 66%nat /\ normalizePrivateKey fixedKey = Some fixedKey.
Proof.
  intros fixedKey.
  destruct (normalizePrivateKey_canonical
              "  4c0883a69102937d6231471b5dbb6204fe5129617082792ae468d01a3f362318 "
              fixedKey) as (_ & Hlen & Hfix); [reflexivity|].
  by split.
Defined.

(** ** The retry loops *)

(** X13. The wallet provider is initialised by the earliest of the first
    three attempts that succeeds; no later attempt is made, and when the
    three fail the error reports the failure of the third. *)
Theorem provider_init_retries (init : nat -> result WalletProvider) :
  (forall provider,
      initWalletProviderWithRetry init = Ok provider <->
      exists k, (1 <= k <= 3)%nat /\ init k = Ok provider /\
                forall j, (1 <= j < k)%nat -> exists m, init j = Err m) /\
  (forall message,
      initWalletProviderWithRetry init = Err message <->
      exists m1 m2 m3,
        init 1%nat = Err m1 /\ init 2%nat = Err m2 /\ init 3%nat = Err m3 /\
        message = "Failed to initialize wallet provider after 3 attempts: " +:+ m3).
Proof.
  unfold initWalletProviderWithRetry. cbn [initAttempts].
  split.
  - intros provider. split.
    + destruct (init 1%nat) as [p1|m1] eqn:E1.
      { intros [= <-]. exists 1%nat. repeat split; [lia|lia|exact E1|]. intros j Hj. lia. }
      destruct (init 2%nat) as [p2|m2] eqn:E2.
      { intros [= <-]. exists 2%nat. repeat split; [lia|lia|exact E2|].
        intros j Hj. assert (j = 1%nat) as -> by lia. eauto. }
      destruct (init 3%nat) as [p3|m3] eqn:E3; [|discriminate].
      intros [= <-]. exists 3%nat. repeat split; [lia|lia|exact E3|].
      intros j Hj. assert (j = 1 \/ j = 2)%nat as [->| ->] by lia; eauto.
    + intros (k & Hk & Hok & Hbefore).
      assert (k = 1 \/ k = 2 \/ k = 3)%nat as [->|[->| ->]] by lia.
      * by rewrite Hok.
      * destruct (Hbefore 1%nat) as [m1 ->]; [lia|]. by rewrite Hok.
      * destruct (Hbefore 1%nat) as [m1 ->]; [lia|].
        destruct (Hbefore 2%nat) as [m2 ->]; [lia|]. by rewrite Hok.
  - intros message. split.
    + destruct (init 1%nat) as [p1|m1]; [discriminate|].
      destruct (init 2%nat) as [p2|m2]; [discriminate|].
      destruct (init 3%nat) as [p3|m3]; [discriminate|].
      intros [= <-]. by exists m1, m2, m3.
    + intros (m1 & m2 & m3 & -> & -> & -> & ->). reflexivity.
Qed.

Lemma fetchOnce_outcome now env walletProvider address testnetOnly attempt c :
  (fst (Cache.get now (balancesCacheKey address testnetOnly) c) = None /\
   fetchTimesOut env attempt = true /\
   fetchOnce now env walletProvider address testnetOnly attempt c
   = (Err "Token balance fetch timeout",
      snd (Cache.get now (balancesCacheKey address testnetOnly) c))) \/
  ((fst (Cache.get now (balancesCacheKey address testnetOnly) c) <> None \/
    fetchTimesOut env attempt = false) /\
   exists tokenBalances,
     fst (fetchOnce now env walletProvider address testnetOnly attempt c)
     = Ok tokenBalances).
Proof.
  unfold fetchOnce, getTokenBalances.
  destruct (Cache.get now (balancesCacheKey address testnetOnly) c)
    as [[cached|] c'] eqn:E; cbn [fst snd].
  - right. split; [by left | by exists cached].
  - destruct (fetchTimesOut env attempt) eqn:Hout.
    + by left.
    + right. split; [by right | eauto].
Qed.

Lemma fetchAttempts_step now env walletProvider address testnetOnly
    remaining attempt lastError c :
  fetchAttempts now env walletProvider address testnetOnly (S remaining) attempt
    lastError c
  = match fetchOnce now env walletProvider address testnetOnly attempt c with
    | (Ok tokenBalances, c') => (Ok tokenBalances, c')
    | (Err m, c') =>
        fetchAttempts now env walletProvider address testnetOnly remaining
          (S attempt) m c'
    end.
Proof. reflexivity. Qed.

Lemma fetchAttempts_failure now env walletProvider address testnetOnly
    remaining attempt lastError c :
  (exists m,
      fst (fetchAttempts now env walletProvider address testnetOnly (S remaining)
             attempt lastError c) = Err m) <->
  fst (Cache.get now (balancesCacheKey address testnetOnly) c) = None /\
  forall k, (attempt <= k < attempt + S remaining)%nat -> fetchTimesOut env k = true.
Proof.
  revert attempt lastError c.
  induction remaining as [|remaining IH]; intros attempt lastError c;
    rewrite fetchAttempts_step;
    destruct (fetchOnce_outcome now env walletProvider address testnetOnly attempt c)
      as [(Hmiss & Hout & ->)|(Hwhy & tokenBalances & Hok)].
  - split.
    + intros _. split; [exact Hmiss|]. intros k Hk.
      assert (k = attempt) as -> by lia. exact Hout.
    + intros _. cbn. eauto.
  - destruct (fetchOnce _ _ _ _ _ _ _) as [r c']. cbn in Hok. subst r. cbn. split.
    + intros [m Hm]. discriminate.
    + intros [Hmiss Hall]. destruct Hwhy as [Hhit|Hfast]; [done|].
      rewrite Hall in Hfast by lia. discriminate.
  - cbv beta iota. rewrite IH. rewrite get_miss_again by exact Hmiss. cbn [fst]. split.
    + intros [_ Hall]. split; [exact Hmiss|]. intros k Hk.
      destruct (decide (k = attempt)) as [->|Hne]; [exact Hout|]. apply Hall. lia.
    + intros [_ Hall]. split; [done|]. intros k Hk. apply Hall. lia.
  - destruct (fetchOnce _ _ _ _ _ _ _) as [r c']. cbn in Hok. subst r. cbn. split.
    + intros [m Hm]. discriminate.
    + intros [Hmiss Hall]. destruct Hwhy as [Hhit|Hfast]; [done|].
      rewrite Hall in Hfast by lia. discriminate.
Qed.

Lemma validate_ok_inv st st1 :
  validateEvmConfigurationStrict st = (Ok tt, st1) ->
  exists evmPrivateKey fixedKey,
    EVM_PRIVATE_KEY st = Some evmPrivateKey /\ evmPrivateKey <> "" /\
    normalizePrivateKey evmPrivateKey = Some fixedKey.
Proof.
  unfold validateEvmConfigurationStrict.
  destruct (EVM_PRIVATE_KEY st) as [[|ch key]|]; [discriminate| |discriminate].
  destruct (normalizePrivateKey (String ch key)) as [fixedKey|] eqn:E; [|discriminate].
  intros _. by exists (String ch key), fixedKey.
Qed.

(** X14. [analyzeWallet] fails in exactly two situations, both on a miss of
    the analysis cache: the run gets no wallet provider (plugin missing, key
    setting missing or malformed, or three failed initialisations), or the
    balance cache misses too and each of the three balance fetches loses
    against its timer.  Whatever the chains answer never makes it fail. *)
Theorem analyzeWallet_failure_causes (now : Z) (env : Env) (address : string)
    (testnetOnly : bool) (st : State) :
  (exists m, fst (analyzeWallet now env address testnetOnly st) = Err m) <->
  fst (Cache.get now (analysisCacheKey address testnetOnly) (analysisCache st)) = None /\
  ((forall walletProvider, ~ ready env st walletProvider) \/
   (fst (Cache.get now (balancesCacheKey address testnetOnly) (balanceCache st)) = None /\
    fetchTimesOut env 1 = true /\ fetchTimesOut env 2 = true /\
    fetchTimesOut env 3 = true)).
Proof.
  unfold analyzeWallet.
  destruct (Cache.get now (analysisCacheKey address testnetOnly) (analysisCache st))
    as [[cached|] c]; cbn [fst].
  { split; [intros [m Hm]; discriminate | intros [Hmiss _]; discriminate]. }
  assert (Hrun : (exists m,
                    fst (performComprehensiveAnalysisWithStaking now env address
                           testnetOnly (withAnalysisCache st c)) = Err m) <->
                 (forall walletProvider, ~ ready env st walletProvider) \/
                 (fst (Cache.get now (balancesCacheKey address testnetOnly)
                         (balanceCache st)) = None /\
                  fetchTimesOut env 1 = true /\ fetchTimesOut env 2 = true /\
                  fetchTimesOut env 3 = true)).
  { unfold performComprehensiveAnalysisWithStaking.
    destruct (initWalletProvider env) as [init|] eqn:Hplugin.
    2:{ split; [|by eauto]. intros _. left.
        intros walletProvider (init & _ & _ & Hinit & _). congruence. }
    pose proof (validate_caches (withAnalysisCache st c)) as [_ Hb].
    destruct (validateEvmConfigurationStrict (withAnalysisCache st c))
      as [[[]|m] st1] eqn:Hvalid.
    2:{ split; [|by eauto]. intros _. left.
        intros walletProvider Hready.
        destruct (validate_ready env (withAnalysisCache st c) walletProvider Hready)
          as [st2 Hok].
        congruence. }
    cbn in Hb.
    destruct (initWalletProviderWithRetry init) as [walletProvider|m] eqn:Hinit.
    2:{ split; [|by eauto]. intros _. left.
        intros walletProvider (init' & _ & _ & Hplugin' & Hinit' & _). congruence. }
    assert (Hready : ready env st walletProvider).
    { destruct (validate_ok_inv _ _ Hvalid) as (key & fixedKey & Hkey & Hne & Hnorm).
      by exists init, key, fixedKey. }
    unfold getTokenBalancesWithRetry.
    pose proof (fetchAttempts_failure now env walletProvider address testnetOnly 2 1 ""
                  (balanceCache st1)) as Hfetch.
    rewrite Hb in Hfetch. cbn [balanceCache withAnalysisCache] in Hfetch.
    rewrite Hb. cbn [balanceCache withAnalysisCache].
    destruct (fetchAttempts _ _ _ _ _ _ _ _ _) as [[tokenBalances|m] c'];
      cbn [fst] in *.
    - split; [intros [m Hm]; discriminate|].
      intros [Hnot|(Hmiss & H1 & H2 & H3)]; [by destruct (Hnot walletProvider)|].
      destruct Hfetch as [_ Hfetch]. destruct Hfetch as [m Hm]; [|discriminate].
      split; [exact Hmiss|]. intros k Hk.
      assert (k = 1 \/ k = 2 \/ k = 3)%nat as [->|[->| ->]] by lia; done.
    - split; [|by eauto]. intros _. right.
      destruct Hfetch as [Hfetch _]. destruct Hfetch as [Hmiss Hall]; [by eauto|].
      split; [exact Hmiss|]. repeat split; apply Hall; lia. }
  destruct (performComprehensiveAnalysisWithStaking now env address testnetOnly
              (withAnalysisCache st c)) as [[analysis|m] st'] eqn:Hperform;
    cbn [fst] in *.
  - split; [intros [m Hm]; discriminate|]. intros [_ Hwhy].
    apply Hrun in Hwhy. destruct Hwhy as [m Hm]. discriminate.
  - split; [|by eauto]. intros _. split; [done|]. apply Hrun. eauto.
Qed.

(** The plugin is missing: the call fails, and the cause is the first of
    the two. *)
Lemma analyzeWallet_failure_causes_witness :
  let env := {| initWalletProvider := None; rpc := fun _ => downClient;
                fetchTimesOut := fun _ => false |} in
  exists m,
    fst (analyzeWallet 0 env demoAddress true (initialState (Some demoKey))) = Err m.
Proof.
  intros env.
  apply (analyzeWallet_failure_causes 0 env demoAddress true (initialState (Some demoKey))).
  split; [reflexivity|]. left.
  intros walletProvider (init & _ & _ & Hplugin & _). discriminate.
Defined.

(** The first attempt fails, the second succeeds. *)
Lemma provider_init_retries_witness :
  let init := fun k : nat =>
    match k with
    | 2%nat => Ok sepoliaProvider
    | _ => Err "connection refused"
    end in
  initWalletProviderWithRetry init = Ok sepoliaProvider.
Proof.
  intros init. destruct (provider_init_retries init) as [Hok _].
  apply Hok. exists 2%nat. split; [lia|]. split; [reflexivity|].
  intros j Hj. assert (j = 1%nat) as -> by lia. by exists "connection refused".
Defined.

(** A testnet request and a mainnet request for one address. *)
Lemma cache_keys_injective_witness :
  analysisCacheKey demoAddress true <> analysisCacheKey demoAddress false.
Proof.
  intros Hsame.
  destruct (cache_keys_injective demoAddress demoAddress true false) as [[Hinj _] _].
  destruct (Hinj Hsame) as [_ Hmode]. discriminate.
Defined.

(** The empty wallet. *)
Lemma diversification_score_range_witness :
  calculateDiversificationScore [] [] = 0.
Proof.
  destruct (diversification_score_range [] []) as [_ [_ Hzero]]. by apply Hzero.
Defined.

(** ** What the analyzer serves *)

Lemma analysisCacheKey_inj address address' testnetOnly testnetOnly' :
  analysisCacheKey address testnetOnly = analysisCacheKey address' testnetOnly' ->
  address = address' /\ testnetOnly = testnetOnly'.
Proof.
  intros H. pose proof (analysisCacheKey_mode _ _ _ _ H) as <-.
  split; [|done]. unfold analysisCacheKey in H. by apply append_cancel_r in H.
Qed.

Lemma balancesCacheKey_inj address address' testnetOnly testnetOnly' :
  balancesCacheKey address testnetOnly = balancesCacheKey address' testnetOnly' ->
  address = address' /\ testnetOnly = testnetOnly'.
Proof.
  intros H. pose proof (balancesCacheKey_mode _ _ _ _ H) as <-.
  split; [|done]. unfold balancesCacheKey in H. by apply append_cancel_r in H.
Qed.

Lemma analyzeWallet_built now env address testnetOnly st :
  cache_all builtAt (analysisCache st) ->
  cache_all observedAt (balanceCache st) ->
  (cache_all builtAt (analysisCache (snd (analyzeWallet now env address testnetOnly st))) /\
   cache_all observedAt
     (balanceCache (snd (analyzeWallet now env address testnetOnly st)))) /\
  forall a,
    fst (analyzeWallet now env address testnetOnly st) = Ok a ->
    exists env' walletProvider,
      a = buildAnalysis address testnetOnly
            (aggregate env' walletProvider address testnetOnly).
Proof.
  intros Ha Hb. unfold analyzeWallet.
  pose proof (cache_all_get builtAt now (analysisCacheKey address testnetOnly)
                (analysisCache st) Ha) as Hget.
  pose proof (cache_all_hit builtAt now (analysisCacheKey address testnetOnly)
                (analysisCache st)) as Hhit.
  destruct (Cache.get now _ (analysisCache st)) as [[cached|] c]; simpl in Hget, Hhit.
  - split; [by split|]. intros a [= <-].
    destruct (Hhit cached Ha eq_refl) as (address' & mode' & env' & wp & Hkey & ->).
    apply analysisCacheKey_inj in Hkey. destruct Hkey as [<- <-]. by exists env', wp.
  - pose proof (perform_analysisCache now env address testnetOnly
                  (withAnalysisCache st c)) as Hsame.
    destruct (perform_post observedAt now env address testnetOnly (withAnalysisCache st c))
      as [Hb' Hrun]; [exact Hb | intros wp; by exists address, testnetOnly, env, wp |].
    destruct (performComprehensiveAnalysisWithStaking _ _ _ _ _) as [[analysis|m] st'];
      simpl in *.
    + destruct (Hrun analysis eq_refl)
        as (tokenBalances & -> & (address' & mode' & env' & wp & Hkey & ->)).
      apply balancesCacheKey_inj in Hkey. destruct Hkey as [<- <-].
      split; [|intros a [= <-]; by exists env', wp].
      split; [|exact Hb']. apply cache_all_set; [by rewrite Hsame|].
      by exists address, testnetOnly, env', wp.
    + split; [|discriminate]. split; [by rewrite Hsame | exact Hb'].
Qed.

Lemma reachable_built st :
  reachable st ->
  cache_all builtAt (analysisCache st) /\ cache_all observedAt (balanceCache st).
Proof.
  induction 1 as [key|st now env address testnetOnly _ [IHa IHb]].
  - split; apply cache_all_new.
  - by apply analyzeWallet_built.
Qed.

Lemma served_built st now env address testnetOnly a :
  reachable st ->
  fst (analyzeWallet now env address testnetOnly st) = Ok a ->
  exists env' walletProvider,
    a = buildAnalysis address testnetOnly
          (aggregate env' walletProvider address testnetOnly).
Proof.
  intros Hreach Hok. destruct (reachable_built st Hreach) as [Ha Hb].
  by apply (analyzeWallet_built now env address testnetOnly st Ha Hb).
Qed.



(** ** What a call leaves alone *)

Lemma set_other {T : Type} now k k' (v : T) (c : Cache.t T) :
  k <> k' -> Cache.cache (Cache.set now k v c) !! k' = Cache.cache c !! k'.
Proof. intros Hne. simpl. by rewrite lookup_insert_ne. Qed.

Lemma fetchOnce_frame now env walletProvider address testnetOnly attempt c k :
  (balancesCacheKey address testnetOnly <> k ->
   Cache.cache (snd (fetchOnce now env walletProvider address testnetOnly attempt c)) !! k
   = Cache.cache c !! k) /\
  Cache.ttl (snd (fetchOnce now env walletProvider address testnetOnly attempt c))
  = Cache.ttl c.
Proof.
  unfold fetchOnce, getTokenBalances.
  pose proof (get_other now (balancesCacheKey address testnetOnly) k c) as Hget.
  pose proof (get_ttl now (balancesCacheKey address testnetOnly) c) as Httl.
  destruct (Cache.get now (balancesCacheKey address testnetOnly) c) as [[cached|] c'];
    simpl in *; [done|].
  destruct (fetchTimesOut env attempt); simpl; [done|].
  split; [|done]. intros Hne. rewrite lookup_insert_ne by done. by apply Hget.
Qed.

Lemma fetchAttempts_frame now env walletProvider address testnetOnly remaining
    attempt lastError c k :
  (balancesCacheKey address testnetOnly <> k ->
   Cache.cache (snd (fetchAttempts now env walletProvider address testnetOnly remaining
                       attempt lastError c)) !! k
   = Cache.cache c !! k) /\
  Cache.ttl (snd (fetchAttempts now env walletProvider address testnetOnly remaining
                    attempt lastError c))
  = Cache.ttl c.
Proof.
  revert attempt lastError c.
  induction remaining as [|remaining IH]; intros attempt lastError c; [done|].
  rewrite fetchAttempts_step.
  destruct (fetchOnce_frame now env walletProvider address testnetOnly attempt c k)
    as [Hk Httl].
  destruct (fetchOnce now env walletProvider address testnetOnly attempt c)
    as [[tokenBalances|m] c']; simpl in *; [done|].
  destruct (IH (S attempt) m c') as [Hk' Httl']. split.
  - intros Hne. by rewrite Hk', Hk.
  - by rewrite Httl'.
Qed.

Lemma perform_frame now env address testnetOnly st k :
  (balancesCacheKey address testnetOnly <> k ->
   Cache.cache
     (balanceCache (snd (performComprehensiveAnalysisWithStaking now env address
                           testnetOnly st))) !! k
   = Cache.cache (balanceCache st) !! k) /\
  Cache.ttl
    (balanceCache (snd (performComprehensiveAnalysisWithStaking now env address
                          testnetOnly st)))
  = Cache.ttl (balanceCache st).
Proof.
  unfold performComprehensiveAnalysisWithStaking.
  destruct (initWalletProvider env) as [init|]; [|done].
  pose proof (validate_caches st) as [_ Hb].
  destruct (validateEvmConfigurationStrict st) as [[[]|m] st1]; simpl in Hb;
    [|cbn [fst snd]; by rewrite Hb].
  destruct (initWalletProviderWithRetry init) as [walletProvider|m];
    [|cbn [fst snd]; by rewrite Hb].
  unfold getTokenBalancesWithRetry.
  destruct (fetchAttempts_frame now env walletProvider address testnetOnly 3 1 ""
              (balanceCache st1) k) as [Hk Httl].
  rewrite <- Hb.
  by destruct (fetchAttempts _ _ _ _ _ _ _ _ _) as [[tokenBalances|m] c].
Qed.

(** X16. A call of [analyzeWallet] for one address and mode leaves the
    cache entries of every other request as they were: in the analysis
    cache only the entry under the key of this request can change, in the
    balance cache only the entry under its balance key, and the TTL of
    neither cache changes. *)
Theorem analyzeWallet_frame (now : Z) (env : Env) (address : string)
    (testnetOnly : bool) (st : State) (k : string) :
  let st' := snd (analyzeWallet now env address testnetOnly st) in
  (k <> analysisCacheKey address testnetOnly ->
   Cache.cache (analysisCache st') !! k = Cache.cache (analysisCache st) !! k) /\
  (k <> balancesCacheKey address testnetOnly ->
   Cache.cache (balanceCache st') !! k = Cache.cache (balanceCache st) !! k) /\
  Cache.ttl (analysisCache st') = Cache.ttl (analysisCache st) /\
  Cache.ttl (balanceCache st') = Cache.ttl (balanceCache st).
Proof.
  intros st'. subst st'. split; [|split; [|split]].
  - intros Hne. apply not_eq_sym in Hne. unfold analyzeWallet.
    pose proof (get_other now (analysisCacheKey address testnetOnly) k
                  (analysisCache st) Hne) as Hget.
    destruct (Cache.get now _ (analysisCache st)) as [[cached|] c]; simpl in Hget;
      [done|].
    pose proof (perform_analysisCache now env address testnetOnly
                  (withAnalysisCache st c)) as Hsame.
    destruct (performComprehensiveAnalysisWithStaking _ _ _ _ _) as [[analysis|m] st'];
      simpl in *.
    + rewrite lookup_insert_ne by done. by rewrite Hsame.
    + by rewrite Hsame.
  - intros Hne. apply not_eq_sym in Hne. unfold analyzeWallet.
    destruct (Cache.get now _ (analysisCache st)) as [[cached|] c]; [done|].
    destruct (perform_frame now env address testnetOnly (withAnalysisCache st c) k)
      as [Hk _]. specialize (Hk Hne).
    by destruct (performComprehensiveAnalysisWithStaking _ _ _ _ _)
      as [[analysis|m] st'].
  - apply analyzeWallet_ttl.
  - unfold analyzeWallet.
    destruct (Cache.get now _ (analysisCache st)) as [[cached|] c]; [done|].
    destruct (perform_frame now env address testnetOnly (withAnalysisCache st c) k)
      as [_ Httl].
    by destruct (performComprehensiveAnalysisWithStaking _ _ _ _ _)
      as [[analysis|m] st'].
Qed.

(** A testnet request for an address leaves the cached mainnet analysis of
    that address in place. *)
Lemma analyzeWallet_frame_witness :
  let st := snd (analyzeWallet 0 idleWorld demoAddress false
                   (initialState (Some demoKey))) in
  let st' := snd (analyzeWallet 5 sepoliaWorld demoAddress true st) in
  Cache.cache (analysisCache st') !! analysisCacheKey demoAddress false
  = Cache.cache (analysisCache st) !! analysisCacheKey demoAddress false.
Proof.
  intros st st'.
  destruct (analyzeWallet_frame 5 sepoliaWorld demoAddress true st
              (analysisCacheKey demoAddress false)) as [Hframe _].
  apply Hframe. intros Hsame. apply analysisCacheKey_mode in Hsame. discriminate.
Defined.

(** ** The key setting *)

Lemma normalizePrivateKey_fixed privateKey fixedKey :
  normalizePrivateKey privateKey = Some fixedKey ->
  fixedKey <> "" /\ normalizePrivateKey fixedKey = Some fixedKey.
Proof.
  unfold normalizePrivateKey at 1.
  set (hex := match trim privateKey with
              | "0"%char :: "x"%char :: rest => rest
              | _ => trim privateKey
              end).
  destruct (Nat.eqb_spec (length hex) 64) as [Hlen|]; [|discriminate].
  destruct (forallb isHexDigit hex) eqn:Hhex; [|discriminate].
  cbn [negb]. intros [= <-]. split; [discriminate|].
  unfold normalizePrivateKey. rewrite (trim_hex_key hex Hlen Hhex).
  rewrite Hlen, Hhex. reflexivity.
Qed.

(** X17. [validateEvmConfigurationStrict] either fails and leaves the
    runtime as it was (the key setting is missing, empty or not a key), or
    succeeds and replaces the key setting by its normal form without
    touching the caches; validating again then succeeds and changes
    nothing. *)
Theorem evm_configuration_normalised_once (st : State) :
  match validateEvmConfigurationStrict st with
  | (Ok _, st1) =>
      (exists key,
          EVM_PRIVATE_KEY st = Some key /\
          EVM_PRIVATE_KEY st1 = normalizePrivateKey key) /\
      analysisCache st1 = analysisCache st /\
      balanceCache st1 = balanceCache st /\
      validateEvmConfigurationStrict st1 = (Ok tt, st1)
  | (Err _, st1) =>
      st1 = st /\
      (EVM_PRIVATE_KEY st = None \/ EVM_PRIVATE_KEY st = Some "" \/
       exists key, EVM_PRIVATE_KEY st = Some key /\ normalizePrivateKey key = None)
  end.
Proof.
  unfold validateEvmConfigurationStrict at 1.
  destruct (EVM_PRIVATE_KEY st) as [[|ch key]|] eqn:Hkey; [tauto| |tauto].
  destruct (normalizePrivateKey (String ch key)) as [fixedKey|] eqn:Hnorm.
  - split; [by exists (String ch key)|]. split; [done|]. split; [done|].
    destruct (normalizePrivateKey_fixed _ _ Hnorm) as [Hne Hfix].
    unfold validateEvmConfigurationStrict. cbn [EVM_PRIVATE_KEY analysisCache balanceCache].
    destruct fixedKey as [|ch' fixedKey]; [done|]. by rewrite Hfix.
  - split; [done|]. right. right. by exists (String ch key).
Qed.

(** ** The snapshot of one chain *)


Lemma tokenHoldingOf_catalog client address chain isTestnetFlag tokenConfig h :
  In h (tokenHoldingOf client address chain isTestnetFlag tokenConfig) ->
  symbol h = tc_symbol tokenConfig /\
  th_address h = tc_address tokenConfig /\
  isStakeable h = tc_isStakeable tokenConfig /\
  stakingOptions h = tc_stakingOptions tokenConfig /\
  exists raw,
    readContract client (tc_address tokenConfig) address = Some raw /\
    balance h = formatUnits raw (tc_decimals tokenConfig).
Proof.
  unfold tokenHoldingOf.
  destruct (readContract client (tc_address tokenConfig) address) as [raw|]; [|intros []].
  destruct (raw >? 0); [|intros []].
  destruct (Qgtb _ _); [|intros []].
  intros [<-|[]]. cbn. repeat split. by exists raw.
Qed.



(** ** The major holdings *)

Lemma StronglySorted_app_inv {A : Type} (R : A -> A -> Prop) (l1 l2 : list A) :
  StronglySorted R (l1 ++ l2) ->
  StronglySorted R l1 /\ forall a b, In a l1 -> In b l2 -> R a b.
Proof.
  induction l1 as [|x l1 IH]; simpl.
  - intros _. split; [constructor | intros a b []].
  - intros H. apply StronglySorted_inv in H. destruct H as [Hs Hall].
    destruct (IH Hs) as [Hs1 Hcross]. rewrite List.Forall_forall in Hall. split.
    + constructor; [exact Hs1|]. apply List.Forall_forall. intros y Hy.
      apply Hall. apply in_or_app. by left.
    + intros a b [<-|Ha] Hb.
      * apply Hall. apply in_or_app. by right.
      * by apply Hcross.
Qed.

(** X19. The major holdings are the five largest: there are
    [min 5 n] of them, listed by decreasing balance, and they are taken out
    of the holdings so that no holding left over has a larger balance than
    any of them. *)
Theorem major_holdings_are_largest (tokenHoldings : list TokenHolding) :
  let major := majorHoldings (analyzeTokenHoldings tokenHoldings) in
  length major = Nat.min 5 (length tokenHoldings) /\
  StronglySorted (fun a b => (balance b <= balance a)%Q) major /\
  exists others,
    Permutation tokenHoldings (major ++ others) /\
    forall m o, In m major -> In o others -> (balance o <= balance m)%Q.
Proof.
  intros major.
  set (before := fun a b : TokenHolding => Qgtb (balance a) (balance b)).
  set (sorted := stable_sort before tokenHoldings).
  assert (Hmajor : major = firstn 5 sorted) by reflexivity.
  assert (Hperm : Permutation sorted tokenHoldings) by apply stable_sort_perm.
  assert (Hsorted : StronglySorted (fun a b => (balance b <= balance a)%Q) sorted).
  { apply (StronglySorted_weaken (fun a b => before b a = false)).
    - intros a b Hab. by apply Qgtb_false in Hab.
    - apply stable_sort_sorted.
      + intros x y Hxy. unfold before in *. apply Qgtb_true in Hxy.
        apply Qgtb_false. lra.
      + intros x y z Hyx Hzy. unfold before in *.
        apply Qgtb_false in Hyx, Hzy. apply Qgtb_false. lra. }
  assert (Hlen : length major = Nat.min 5 (length tokenHoldings)).
  { rewrite Hmajor, length_firstn. by rewrite (Permutation_length Hperm). }
  rewrite <- (firstn_skipn 5 sorted) in Hsorted, Hperm.
  rewrite <- Hmajor in Hsorted, Hperm.
  apply StronglySorted_app_inv in Hsorted. destruct Hsorted as [Hs Hcross].
  split; [exact Hlen|]. split; [exact Hs|].
  exists (skipn 5 sorted). split; [by symmetry|].
  intros m o Hm Ho. by apply Hcross.
Qed.

(** Six holdings: the smallest one is left out. *)
Lemma major_holdings_are_largest_witness :
  let h (b : Q) :=
    {| symbol := "USDC"; th_address := "USDC"; balance := b; decimals := 6;
       chainName := "mainnet"; isStakeable := true; stakingOptions := [];
       isTestnet := false |} in
  let held := [h 1%Q; h 7%Q; h 3%Q; h 9%Q; h 2%Q; h 8%Q] in
  forallb (fun m => Qle_bool (balance (h 1%Q)) (balance m))
    (majorHoldings (analyzeTokenHoldings held)) = true.
Proof.
  intros h held.
  destruct (major_holdings_are_largest held) as (_ & _ & others & Hsplit & Hlargest).
  apply forallb_forall. intros m Hm. apply Qle_bool_iff, Hlargest; [exact Hm|].
  assert (Hin : In (h 1%Q) (majorHoldings (analyzeTokenHoldings held) ++ others)).
  { apply (Permutation_in _ Hsplit). by left. }
  apply in_app_or in Hin. destruct Hin as [Hin|Hin]; [|exact Hin].
  vm_compute in Hin. repeat (destruct Hin as [Hin|Hin]; [discriminate Hin|]).
  destruct Hin.
Defined.

(** ** Addresses in a message *)

Lemma addressAtHead_spec l :
  addressAtHead l = true <->
  exists hex post,
    l = ("0" :: "x" :: hex ++ post)%char /\
    length hex = 40%nat /\ forallb isHexDigit hex = true.
Proof.
  unfold addressAtHead. split.
  - destruct l as [|c0 [|c1 rest]]; try (simpl; by rewrite ?andb_false_r).
    change (skipn 2 (c0 :: c1 :: rest)) with rest. cbn [startsWith].
    rewrite andb_true_r, !andb_true_iff. intros [[[H0 H1] Hlen] Hhex].
    apply Ascii.eqb_eq in H0, H1. subst c0 c1.
    apply Nat.leb_le in Hlen. simpl in Hlen.
    exists (firstn 40 rest), (skipn 40 rest).
    rewrite firstn_skipn. split; [done|]. split; [|done].
    rewrite length_firstn. lia.
  - intros (hex & post & -> & Hlen & Hhex).
    change (skipn 2 ("0"%char :: "x"%char :: hex ++ post)%list)
      with (hex ++ post)%list.
    cbn [startsWith]. rewrite !Ascii.eqb_refl. cbn [andb].
    rewrite firstn_app, Hlen, Nat.sub_diag, firstn_O, app_nil_r.
    rewrite <- Hlen at 2. rewrite firstn_all, Hhex, andb_true_r.
    apply Nat.leb_le. simpl. rewrite length_app. lia.
Qed.

Lemma isValidAddress_spec address :
  Validator.isValidAddress address = true <->
  exists hex,
    list_ascii_of_string address = ("0" :: "x" :: hex)%char /\
    length hex = 40%nat /\ forallb isHexDigit hex = true.
Proof.
  unfold Validator.isValidAddress. cbv zeta. rewrite andb_true_iff, addressAtHead_spec.
  split.
  - intros [(hex & post & Hl & Hlen & Hhex) Hall].
    apply Nat.eqb_eq in Hall. rewrite Hl in Hall. simpl in Hall.
    rewrite length_app in Hall.
    assert (post = []) as -> by (destruct post; [done | simpl in Hall; lia]).
    rewrite app_nil_r in Hl. by exists hex.
  - intros (hex & Hl & Hlen & Hhex). split.
    + exists hex, []. by rewrite app_nil_r.
    + apply Nat.eqb_eq. rewrite Hl. simpl. by rewrite Hlen.
Qed.

Lemma addressAtHead_here a post :
  Validator.isValidAddress (string_of_list_ascii a) = true ->
  addressAtHead (a ++ post)%list = true /\ firstn 42 (a ++ post)%list = a.
Proof.
  intros Hvalid. apply isValidAddress_spec in Hvalid.
  destruct Hvalid as (hex & Hl & Hlen & Hhex).
  rewrite list_ascii_of_string_of_list_ascii in Hl. subst a. split.
  - apply addressAtHead_spec. by exists hex, post.
  - change 42%nat with (2 + 40)%nat. cbn [firstn app Nat.add]. do 2 f_equal.
    rewrite firstn_app, Hlen, Nat.sub_diag, firstn_O, app_nil_r.
    rewrite <- Hlen. apply firstn_all.
Qed.

Lemma firstn_valid l :
  addressAtHead l = true ->
  Validator.isValidAddress (string_of_list_ascii (firstn 42 l)) = true.
Proof.
  intros Hhead. apply addressAtHead_spec in Hhead.
  destruct Hhead as (hex & post & -> & Hlen & Hhex).
  apply isValidAddress_spec. exists hex.
  rewrite list_ascii_of_string_of_list_ascii. split; [|done].
  change 42%nat with (2 + 40)%nat. cbn [firstn app Nat.add]. do 2 f_equal.
  rewrite firstn_app, Hlen, Nat.sub_diag, firstn_O, app_nil_r.
  rewrite <- Hlen. apply firstn_all.
Qed.

Lemma matchAddress_some l a :
  matchAddress l = Some a ->
  Validator.isValidAddress (string_of_list_ascii a) = true /\
  exists pre post,
    l = (pre ++ a ++ post)%list /\
    forall pre' a' post',
      l = (pre' ++ a' ++ post')%list ->
      Validator.isValidAddress (string_of_list_ascii a') = true ->
      (length pre <= length pre')%nat.
Proof.
  revert a. induction l as [|c rest IH]; intros a; [discriminate|].
  cbn [matchAddress]. destruct (addressAtHead (c :: rest)) eqn:Hhead.
  - intros [= <-]. split; [by apply (firstn_valid (c :: rest))|].
    exists [], (skipn 42 (c :: rest)). split.
    + symmetry. apply (firstn_skipn 42 (c :: rest)).
    + intros. simpl. lia.
  - intros Hrest. destruct (IH a Hrest) as (Hvalid & pre & post & -> & Hleft).
    split; [exact Hvalid|]. exists (c :: pre), post. split; [done|].
    intros pre' a' post' Hsplit Hvalid'. destruct pre' as [|c' pre'].
    + rewrite app_nil_l in Hsplit.
      destruct (addressAtHead_here a' post' Hvalid') as [Hhere _].
      rewrite <- Hsplit in Hhere. congruence.
    + injection Hsplit as <- Hsplit. simpl.
      specialize (Hleft pre' a' post' Hsplit Hvalid'). lia.
Qed.

Lemma matchAddress_none l :
  matchAddress l = None ->
  forall pre a post,
    l = (pre ++ a ++ post)%list ->
    Validator.isValidAddress (string_of_list_ascii a) = false.
Proof.
  induction l as [|c rest IH]; intros Hnone pre a post Hsplit.
  - destruct pre; [|discriminate]. destruct a; [reflexivity | discriminate].
  - cbn [matchAddress] in Hnone.
    destruct (addressAtHead (c :: rest)) eqn:Hhead; [discriminate|].
    destruct (Validator.isValidAddress (string_of_list_ascii a)) eqn:Hvalid; [|done].
    destruct pre as [|c' pre].
    + rewrite app_nil_l in Hsplit.
      destruct (addressAtHead_here a post Hvalid) as [Hhere _].
      rewrite <- Hsplit in Hhere. congruence.
    + injection Hsplit as <- Hsplit. rewrite <- Hvalid. by apply (IH Hnone pre a post).
Qed.

Lemma extract_valid text a :
  Validator.extractWalletAddress text = Some a -> Validator.isValidAddress a = true.
Proof.
  unfold Validator.extractWalletAddress.
  destruct (matchAddress (list_ascii_of_string text)) as [l|] eqn:E; [|discriminate].
  intros [= <-]. by destruct (matchAddress_some _ _ E).
Qed.

Lemma extract_here a post :
  Validator.isValidAddress a = true ->
  Validator.extractWalletAddress (a +:+ post) = Some a.
Proof.
  intros Hvalid. unfold Validator.extractWalletAddress.
  rewrite list_ascii_of_append.
  rewrite <- (string_of_list_ascii_of_string a) in Hvalid.
  destruct (addressAtHead_here _ (list_ascii_of_string post) Hvalid) as [Hhead Hfirst].
  destruct (list_ascii_of_string a ++ list_ascii_of_string post)%list
    as [|c rest] eqn:E.
  - simpl in Hhead. discriminate.
  - cbn [matchAddress]. rewrite Hhead, Hfirst. simpl.
    by rewrite string_of_list_ascii_of_string.
Qed.

Lemma string_split text pre a post :
  text = pre +:+ a +:+ post <->
  list_ascii_of_string text
  = (list_ascii_of_string pre ++ list_ascii_of_string a
     ++ list_ascii_of_string post)%list.
Proof.
  rewrite <- !list_ascii_of_append. split; [by intros ->|].
  apply list_ascii_of_string_inj.
Qed.

Lemma length_list_ascii_of_string s :
  length (list_ascii_of_string s) = String.length s.
Proof. induction s as [|c s IH]; simpl; [done|]. by rewrite IH. Qed.

(** X20. [extractWalletAddress] returns the leftmost piece of the text
    that is a valid address, and [null] exactly when the text contains no
    such piece.  So what it returns always passes [isValidAddress], and a
    valid address is extracted from any text that starts with it, whatever
    follows (further hexadecimal digits included). *)
Theorem extracted_address_is_leftmost_valid (text : string) :
  match Validator.extractWalletAddress text with
  | Some a =>
      Validator.isValidAddress a = true /\
      exists pre post,
        text = pre +:+ a +:+ post /\
        forall pre' a' post',
          text = pre' +:+ a' +:+ post' ->
          Validator.isValidAddress a' = true ->
          (String.length pre <= String.length pre')%nat
  | None =>
      forall pre a post,
        text = pre +:+ a +:+ post -> Validator.isValidAddress a = false
  end /\
  forall post,
    Validator.isValidAddress text = true ->
    Validator.extractWalletAddress (text +:+ post) = Some text.
Proof.
  split; [|intros post; apply extract_here].
  unfold Validator.extractWalletAddress.
  destruct (matchAddress (list_ascii_of_string text)) as [l|] eqn:E; simpl.
  - destruct (matchAddress_some _ _ E) as (Hvalid & pre & post & Hsplit & Hleft).
    split; [exact Hvalid|].
    exists (string_of_list_ascii pre), (string_of_list_ascii post). split.
    + apply string_split. by rewrite !list_ascii_of_string_of_list_ascii.
    + intros pre' a' post' Hsplit' Hvalid'. apply string_split in Hsplit'.
      rewrite <- (string_of_list_ascii_of_string a') in Hvalid'.
      specialize (Hleft _ _ _ Hsplit' Hvalid').
      by rewrite length_string_of_list_ascii, <- length_list_ascii_of_string.
  - intros pre a post Hsplit. apply string_split in Hsplit.
    rewrite <- (string_of_list_ascii_of_string a).
    by apply (matchAddress_none _ E _ _ _ Hsplit).
Qed.

(** The hash of a transaction starts like an address: its first 42
    characters are extracted. *)
Lemma extracted_address_is_leftmost_valid_witness :
  Validator.extractWalletAddress (demoAddress +:+ "a3f362318fe5129617082792") = Some demoAddress.
Proof.
  destruct (extracted_address_is_leftmost_valid demoAddress) as [_ Hhere].
  apply Hhere. reflexivity.
Defined.

(** ** The provider entry point *)

Lemma occursIn_head c p l : occursIn (c :: p) l = true -> In c l.
Proof.
  induction l as [|d l IH]; [discriminate|].
  cbn [occursIn startsWith]. intros H. apply orb_true_iff in H.
  destruct H as [H|H].
  - apply andb_true_iff in H. destruct H as [H _]. apply Ascii.eqb_eq in H. by left.
  - right. by apply IH.
Qed.

Lemma toLowerChar_hex c :
  isHexDigit c = true -> isHexDigit (toLowerChar c) = true.
Proof.
  destruct c as [[] [] [] [] [] [] [] []]; vm_compute; congruence.
Qed.

Lemma lowered_address_chars hex c :
  forallb isHexDigit hex = true ->
  In c (map toLowerChar ("0" :: "x" :: hex)%char) ->
  c = "x"%char \/ isHexDigit c = true.
Proof.
  intros Hhex [<-|[<-|Hc]]; [by right | by left|]. right.
  apply in_map_iff in Hc. destruct Hc as (h & <- & Hh).
  apply toLowerChar_hex. rewrite forallb_forall in Hhex. by apply Hhex.
Qed.

Lemma valid_address_not_testnet address :
  Validator.isValidAddress address = true -> Validator.isTestnetRequest address = false.
Proof.
  intros Hvalid. apply isValidAddress_spec in Hvalid.
  destruct Hvalid as (hex & Hl & _ & Hhex).
  unfold Validator.isTestnetRequest, textIncludes, toLowerCase. cbv zeta.
  rewrite list_ascii_of_string_of_list_ascii, Hl.
  assert (Hnone : forall c p,
             c <> "x"%char -> isHexDigit c = false ->
             occursIn (c :: p) (map toLowerChar ("0" :: "x" :: hex)%char) = false).
  { intros c p Hx Hc.
    destruct (occursIn (c :: p) _) eqn:E; [|done].
    apply occursIn_head in E.
    destruct (lowered_address_chars hex c Hhex E); congruence. }
  cbn [list_ascii_of_string]. by rewrite !Hnone.
Qed.

(** X21. The provider fails with [Invalid wallet address provided], and
    touches nothing, exactly when the text of the message holds no address;
    otherwise it runs [analyzeWallet] on the leftmost address of the text,
    in the mode the text asks for (the validity check on what was extracted
    never fails).  A message that is just an address is analysed in mainnet
    mode. *)
Theorem provider_get_entry (now : Z) (env : Env) (text : string) (st : State) :
  match Validator.extractWalletAddress text with
  | None =>
      WalletAnalyzer.get now env (Some text) st
      = (Err "Invalid wallet address provided", st)
  | Some walletAddress =>
      WalletAnalyzer.get now env (Some text) st
      = analyzeWallet now env walletAddress (Validator.isTestnetRequest text) st
  end /\
  WalletAnalyzer.get now env None st = (Err "Invalid wallet address provided", st) /\
  (Validator.isValidAddress text = true ->
   WalletAnalyzer.get now env (Some text) st = analyzeWallet now env text false st).
Proof.
  split; [|split].
  - unfold WalletAnalyzer.get.
    destruct (Validator.extractWalletAddress text) as [a|] eqn:E; [|done].
    by rewrite (extract_valid text a E).
  - reflexivity.
  - intros Hvalid. unfold WalletAnalyzer.get.
    pose proof (extract_here text "" Hvalid) as Hself.
    assert (text +:+ "" = text) as Hnil.
    { apply list_ascii_of_string_inj. by rewrite list_ascii_of_append, app_nil_r. }
    rewrite Hnil in Hself. rewrite Hself, Hvalid. cbn [negb].
    by rewrite (valid_address_not_testnet text Hvalid).
Qed.

(** A message that is just an address. *)
Lemma provider_get_entry_witness :
  WalletAnalyzer.get 0 idleWorld (Some demoAddress) (initialState (Some demoKey))
  = analyzeWallet 0 idleWorld demoAddress false (initialState (Some demoKey)).
Proof.
  destruct (provider_get_entry 0 idleWorld demoAddress (initialState (Some demoKey)))
    as (_ & _ & Hself).
  apply Hself. reflexivity.
Defined.

(** ** The asset preferences *)







(** ** The personalised scores of the analysis action *)

Section Scores.
Local Open Scope Q_scope.

Lemma getRiskAlignment_range rec riskProfile :
  0.3 <= Action.getRiskAlignment rec riskProfile <= 1.
Proof.
  unfold Action.getRiskAlignment.
  destruct (Level_eqb _ _); [lra|].
  destruct (match options rec with o :: _ => riskLevel o | [] => MEDIUM end),
    (stakingRiskTolerance riskProfile); lra.
Qed.

Lemma getAssetPreferenceMatch_range rec analysis :
  0 <= Action.getAssetPreferenceMatch rec analysis <= 1.
Proof.
  unfold Action.getAssetPreferenceMatch.
  destruct (negb _); [lra|].
  destruct (List.find _ _) as [holding|]; [|lra].
  destruct (Qgtb _ _); lra.
Qed.

Lemma getLiquidityMatch_range rec analysis :
  0.1 <= Action.getLiquidityMatch rec analysis <= 1.
Proof.
  unfold Action.getLiquidityMatch.
  destruct (_ =? 0)%Z; [lra|].
  destruct (_ <=? _)%Z; [lra|].
  destruct (_ <=? _)%Z; lra.
Qed.

Lemma score_floor rec analysis :
  0 <= expectedReturn rec -> 57.5 <= Action.calculatePersonalizedScore rec analysis.
Proof.
  intros Hreturn. unfold Action.calculatePersonalizedScore.
  pose proof (getRiskAlignment_range rec (riskProfile analysis)) as Hr.
  pose proof (getAssetPreferenceMatch_range rec analysis) as Hm.
  pose proof (getLiquidityMatch_range rec analysis) as Hl.
  assert (Hret : 0 <= Qmin (expectedReturn rec * 2) 10) by (apply Qmin_glb; lra).
  revert Hr Hm Hl Hret.
  generalize (Action.getRiskAlignment rec (riskProfile analysis)),
    (Action.getAssetPreferenceMatch rec analysis),
    (Action.getLiquidityMatch rec analysis),
    (Qmin (expectedReturn rec * 2) 10).
  intros r m l ret Hr Hm Hl Hret.
  apply Qmin_glb; [|lra].
  eapply Qle_trans; [|apply Qmax_ge_l].
  destruct (sr_isTestnet rec); lra.
Qed.

End Scores.

(** X23. A personalised score lies between 0 and 100, and is at least
    57.5 for a recommendation whose expected return is not negative: the
    base of 50, at least 6 for the risk alignment and at least 1.5 for the
    liquidity match. *)
Theorem personalized_score_range (rec : StakingRecommendation)
    (analysis : WalletAnalysis) :
  let score := Action.calculatePersonalizedScore rec analysis in
  (0 <= score <= 100)%Q /\
  ((0 <= expectedReturn rec)%Q -> (57.5 <= score)%Q).
Proof.
  intros score. split; [split|].
  - apply Qmin_glb; [apply Qmax_ge_r | lra].
  - apply Qmin_le_r.
  - apply score_floor.
Qed.

(** A recommendation without options and without return: the score is
    50 + 20 + 0 + 15 + 0. *)
Lemma personalized_score_range_witness :
  let rec := {| recommendedAmount := 1; token := "ETH"; options := [];
                expectedReturn := 0; priority := LOW; sr_isTestnet := false |} in
  (57.5 <= Action.calculatePersonalizedScore rec
             (buildAnalysis demoAddress false []))%Q.
Proof.
  intros rec.
  destruct (personalized_score_range rec (buildAnalysis demoAddress false []))
    as [_ Hfloor].
  apply Hfloor. simpl. lra.
Defined.

(** X24. The enhanced recommendations of the handler are the
    recommendations of the analysis, each with its personalised score,
    listed by decreasing score; the urgency is HIGH above 80, MEDIUM above
    60 up to 80 and LOW up to 60, and never CRITICAL. *)
Theorem enhanced_recommendations_ranked (analysis : WalletAnalysis) :
  let enhanced := Action.enhancedRecommendations analysis in
  Permutation (map Action.recommendation enhanced) (stakingRecommendations analysis) /\
  StronglySorted
    (fun a b => (Action.personalizedScore b <= Action.personalizedScore a)%Q) enhanced /\
  forall e, In e enhanced ->
    Action.personalizedScore e
    = Action.calculatePersonalizedScore (Action.recommendation e) analysis /\
    match Action.urgencyLevel e with
    | Action.Urgency_HIGH => (80 < Action.personalizedScore e)%Q
    | Action.Urgency_MEDIUM =>
        (60 < Action.personalizedScore e)%Q /\ (Action.personalizedScore e <= 80)%Q
    | Action.Urgency_LOW => (Action.personalizedScore e <= 60)%Q
    | Action.Urgency_CRITICAL => False
    end.
Proof.
  intros enhanced.
  set (before := fun a b : Action.EnhancedStakingRecommendation =>
                   Qltb (Action.personalizedScore b - Action.personalizedScore a) 0).
  set (scored := map (Action.enhance analysis) (stakingRecommendations analysis)).
  assert (Henhanced : enhanced = stable_sort before scored) by reflexivity.
  rewrite Henhanced. split; [|split].
  - rewrite (Permutation_map Action.recommendation (stable_sort_perm before scored)).
    unfold scored. rewrite map_map. cbn [Action.enhance Action.recommendation].
    by rewrite map_id.
  - apply (StronglySorted_weaken (fun a b => before b a = false)).
    + intros a b Hab. unfold before in Hab.
      destruct (Qlt_le_dec (Action.personalizedScore a) (Action.personalizedScore b))
        as [Hlt|Hle]; [|exact Hle].
      assert (Qltb (Action.personalizedScore a - Action.personalizedScore b) 0 = true)
        by (apply Qltb_true; lra).
      congruence.
    + apply stable_sort_sorted.
      * intros x y Hxy. unfold before in *. apply Qltb_true in Hxy.
        destruct (Qltb (Action.personalizedScore x - Action.personalizedScore y) 0)
          eqn:E; [|done].
        apply Qltb_true in E. lra.
      * intros x y z Hyx Hzy. unfold before in *.
        destruct (Qltb (Action.personalizedScore x - Action.personalizedScore z) 0)
          eqn:E; [|done].
        apply Qltb_true in E.
        destruct (Qlt_le_dec (Action.personalizedScore x) (Action.personalizedScore y))
          as [Hlt|Hle].
        -- assert (Qltb (Action.personalizedScore x - Action.personalizedScore y) 0
                   = true) by (apply Qltb_true; lra).
           congruence.
        -- assert (Qltb (Action.personalizedScore y - Action.personalizedScore z) 0
                   = true) by (apply Qltb_true; lra).
           congruence.
  - intros e He. apply In_stable_sort in He. unfold scored in He.
    apply in_map_iff in He. destruct He as (rec & <- & _).
    cbn [Action.enhance Action.personalizedScore Action.recommendation
         Action.urgencyLevel].
    split; [reflexivity|].
    destruct (Qgtb (Action.calculatePersonalizedScore rec analysis) 80) eqn:H80.
    + by apply Qgtb_true in H80.
    + apply Qgtb_false in H80.
      destruct (Qgtb (Action.calculatePersonalizedScore rec analysis) 60) eqn:H60.
      * apply Qgtb_true in H60. by split.
      * by apply Qgtb_false in H60.
Qed.

(** The one recommendation of a wallet that holds a Sepolia ether. *)
Lemma enhanced_recommendations_ranked_witness :
  match Action.enhancedRecommendations
          (buildAnalysis demoAddress true
             (aggregate sepoliaWorld sepoliaProvider demoAddress true)) with
  | e :: _ => Action.urgencyLevel e <> Action.Urgency_CRITICAL
  | [] => False
  end.
Proof.
  destruct (enhanced_recommendations_ranked
              (buildAnalysis demoAddress true
                 (aggregate sepoliaWorld sepoliaProvider demoAddress true)))
    as (_ & _ & Hurgency).
  destruct (Action.enhancedRecommendations _) as [|e rest] eqn:E;
    [vm_compute in E; discriminate|].
  destruct (Hurgency e) as [_ Hlevel]; [by left|].
  intros Hcritical. by rewrite Hcritical in Hlevel.
Defined.

(** ** What the action never says about a served analysis *)

Lemma buildAnalysis_riskScore address testnetOnly tokenBalances :
  25 <= riskScore (riskProfile (buildAnalysis address testnetOnly tokenBalances)).
Proof. unfold buildAnalysis. cbn [riskProfile]. apply riskScore_lower. Qed.

Lemma calculateLockPeriodTolerance_floor score :
  25 <= score -> 30 <= calculateLockPeriodTolerance score.
Proof.
  intros Hscore. unfold calculateLockPeriodTolerance.
  destruct (Z.ltb_spec score 25); [lia|].
  destruct (score <? 50); [lia|]. destruct (score <? 75); lia.
Qed.

Lemma built_lock_tolerance address testnetOnly tokenBalances :
  30 <= lockPeriodTolerance
          (riskProfile (buildAnalysis address testnetOnly tokenBalances)).
Proof.
  apply (calculateLockPeriodTolerance_floor
           (riskScore (riskProfile (buildAnalysis address testnetOnly tokenBalances)))).
  apply buildAnalysis_riskScore.
Qed.

Lemma built_not_conservative address testnetOnly tokenBalances :
  riskTolerance (riskProfile (buildAnalysis address testnetOnly tokenBalances))
  <> CONSERVATIVE.
Proof.
  intros Htier.
  pose proof (buildAnalysis_riskScore address testnetOnly tokenBalances) as Hscore.
  apply (mapRiskScoreToTolerance_conservative
           (riskScore (riskProfile (buildAnalysis address testnetOnly tokenBalances))))
    in Htier.
  lia.
Qed.

Ltac absent_from_branches H :=
  repeat (apply in_app_or in H; destruct H as [H|H]);
  repeat match type of H with
         | In _ (if ?c then _ else _) => destruct c eqn:?
         | In _ (match ?c with _ => _ end) => destruct c eqn:?
         end;
  repeat (destruct H as [H|H]; [try discriminate H|]);
  try (destruct H).

(** X25. Two branches of the action are never taken for an analysis that
    an analyzer served: the warning about a low lock period tolerance is
    never raised, because the lock period tolerance of a computed risk
    profile is at least 30 days, and the insight for conservative wallets
    is never given, because a computed risk profile is never in the
    conservative tier. *)
Theorem served_analysis_silent_branches (st : State) (now : Z) (env : Env)
    (address : string) (testnetOnly : bool) (a : WalletAnalysis) :
  reachable st ->
  fst (analyzeWallet now env address testnetOnly st) = Ok a ->
  ~ In Action.LowLockTolerance (Action.generateRiskWarnings a) /\
  ~ In Action.BlueChipFocus (Action.generateActionableInsights a).
Proof.
  intros Hreach Hok.
  destruct (served_built st now env address testnetOnly a Hreach Hok)
    as (env' & wp & ->).
  set (tokenBalances := aggregate env' wp address testnetOnly).
  pose proof (built_lock_tolerance address testnetOnly tokenBalances) as Hlock.
  pose proof (built_not_conservative address testnetOnly tokenBalances) as Htier.
  split; intros H.
  - unfold Action.generateRiskWarnings in H. cbv zeta in H.
    absent_from_branches H.
    match goal with E : (_ <? 30) = true |- _ => apply Z.ltb_lt in E; lia end.
  - unfold Action.generateActionableInsights in H. cbv zeta in H.
    absent_from_branches H. congruence.
Qed.

(** The wallet that holds a Sepolia ether, analysed in testnet mode. *)
Lemma served_analysis_silent_branches_witness :
  match fst (analyzeWallet 0 sepoliaWorld demoAddress true (initialState (Some demoKey)))
  with
  | Ok a => ~ In Action.LowLockTolerance (Action.generateRiskWarnings a)
  | Err _ => False
  end.
Proof.
  destruct (fst (analyzeWallet 0 sepoliaWorld demoAddress true
                   (initialState (Some demoKey)))) as [a|m] eqn:E;
    [|vm_compute in E; discriminate].
  by destruct (served_analysis_silent_branches (initialState (Some demoKey)) 0
                 sepoliaWorld demoAddress true a (reach_new _) E).
Defined.

(** ** The returns and the scores of served recommendations *)

Section Returns.
Local Open Scope Q_scope.

Lemma toFixed6_nonneg x : 0 <= x -> 0 <= toFixed6 x.
Proof.
  intros Hx. apply Qle_trans with (0 # 1000000); [done|].
  apply toFixed6_grid. change (inject_Z 0) with 0. lra.
Qed.

Lemma scaled_return_nonneg amount apr :
  0 <= amount -> 0 <= apr -> 0 <= amount * apr / 100.
Proof.
  intros Ha Hr. apply Qle_shift_div_l; [reflexivity|].
  rewrite Qmult_0_l. by apply Qmult_le_0_compat.
Qed.

Lemma firstAprOr_nonneg options :
  (forall o, In o options -> 0 <= expectedApr o) -> 0 <= firstAprOr options.
Proof.
  intros Hall. unfold firstAprOr. destruct options as [|o rest]; [lra|].
  destruct (Qeq_bool (expectedApr o) 0); [lra|]. apply Hall. by left.
Qed.

Lemma eth_options_apr (isTestnetFlag : bool) o :
  In o (if isTestnetFlag then TESTNET_ETH_STAKING_OPTIONS else ETH_STAKING_OPTIONS) ->
  0 <= expectedApr o.
Proof.
  assert (Hall : forallb (fun o => Qle_bool 0 (expectedApr o))
                   (TESTNET_ETH_STAKING_OPTIONS ++ ETH_STAKING_OPTIONS) = true)
    by reflexivity.
  rewrite forallb_forall in Hall. intros Ho. apply Qle_bool_iff, Hall.
  apply in_or_app. destruct isTestnetFlag; [by left | by right].
Qed.

Lemma record_get_In {V : Type} key (v : V) o :
  record_get key o = Some v -> exists k, In (k, v) o.
Proof.
  induction o as [|[k w] o IH]; [discriminate|]. simpl.
  destruct (String.eqb k key).
  - intros [= <-]. exists k. by left.
  - intros H. destruct (IH H) as [k' Hin]. exists k'. by right.
Qed.

Lemma catalog_apr chain (isTestnetFlag : bool) tokenConfig o :
  In tokenConfig (catalogFor chain isTestnetFlag) ->
  In o (tc_stakingOptions tokenConfig) ->
  0 <= expectedApr o.
Proof.
  assert (Hall : forallb
                   (fun entry : string * list TokenConfig =>
                      forallb (fun tokenConfig =>
                                 forallb (fun o => Qle_bool 0 (expectedApr o))
                                   (tc_stakingOptions tokenConfig)) (snd entry))
                   (TESTNET_TOKEN_DATABASE ++ TOKEN_DATABASE) = true)
    by reflexivity.
  rewrite forallb_forall in Hall. unfold catalogFor.
  destruct (record_get chain _) as [tokens|] eqn:Hget; [|intros []].
  apply record_get_In in Hget. destruct Hget as [k Hk].
  intros Htc Ho.
  assert (Hentry : In (k, tokens) (TESTNET_TOKEN_DATABASE ++ TOKEN_DATABASE)).
  { apply in_or_app. destruct isTestnetFlag; [by left | by right]. }
  specialize (Hall _ Hentry). cbn [snd] in Hall.
  rewrite forallb_forall in Hall. specialize (Hall _ Htc).
  rewrite forallb_forall in Hall. by apply Qle_bool_iff, Hall.
Qed.

Lemma ethRecommendation_return strategy testnetOnly entry rec :
  In rec (ethRecommendation strategy testnetOnly entry) -> 0 <= expectedReturn rec.
Proof.
  destruct entry as [chain ethBalance]. unfold ethRecommendation.
  destruct (testnetOnly && negb (isTestnetChain chain))%bool; [intros []|].
  destruct (negb testnetOnly && isTestnetChain chain)%bool; [intros []|].
  destruct (Qgtb ethBalance _); [|intros []].
  destruct (Qgeb _ _) eqn:Hfloor; [|intros []].
  destruct (0 <? length _)%nat; [|intros []].
  intros [<-|[]]. cbn [expectedReturn].
  apply Qgeb_true in Hfloor.
  apply toFixed6_nonneg, scaled_return_nonneg.
  - eapply Qle_trans; [|exact Hfloor]. by destruct (isTestnetChain chain).
  - apply firstAprOr_nonneg. intros o Ho. apply filter_In in Ho.
    destruct Ho as [Ho _]. by apply (eth_options_apr (isTestnetChain chain)).
Qed.

Lemma tokenRecommendation_return strategy holding rec :
  (forall o, In o (stakingOptions holding) -> 0 <= expectedApr o) ->
  In rec (tokenRecommendation strategy holding) -> 0 <= expectedReturn rec.
Proof.
  intros Hall. unfold tokenRecommendation.
  destruct (Qgtb (balance holding) _) eqn:Hmin; cbn [andb]; [|intros []].
  destruct (Qgeb (balance holding) _); [|intros []].
  destruct (List.filter _ _) as [|first rest] eqn:Hsuitable; [intros []|].
  intros [<-|[]]. cbn [expectedReturn].
  apply Qgtb_true in Hmin.
  assert (0.1 <= Qmax (match stakingOptions holding with
                       | o :: _ => minAmount o
                       | [] => 0
                       end) 0.1) by apply Qmax_ge_r.
  assert (Hfirst : In first (stakingOptions holding)).
  { assert (Hin : In first (first :: rest)) by (by left).
    rewrite <- Hsuitable in Hin. apply filter_In in Hin. tauto. }
  apply toFixed6_nonneg, Qmult_le_0_compat; [lra|].
  apply Qle_shift_div_l; [reflexivity|]. rewrite Qmult_0_l. by apply Hall.
Qed.

Lemma aggregate_holding_options env walletProvider address testnetOnly h o :
  In h (flat_map tokenHoldings (aggregate env walletProvider address testnetOnly)) ->
  In o (stakingOptions h) -> 0 <= expectedApr o.
Proof.
  intros Hh Ho. apply in_flat_map in Hh. destruct Hh as (d & Hd & Hh).
  apply In_aggregate in Hd. destruct Hd as (chain & _ & Hok & _).
  apply getTokenBalancesForChain_ok in Hok.
  destruct Hok as (_ & (client & _ & _ & Hholdings) & _).
  rewrite Hholdings in Hh. apply in_flat_map in Hh.
  destruct Hh as (tokenConfig & Hcatalog & Hh).
  apply tokenHoldingOf_catalog in Hh. destruct Hh as (_ & _ & _ & Hopts & _).
  rewrite Hopts in Ho. by apply (catalog_apr chain (isTestnetChain chain) tokenConfig).
Qed.

Lemma built_returns env walletProvider address testnetOnly rec :
  In rec (stakingRecommendations
            (buildAnalysis address testnetOnly
               (aggregate env walletProvider address testnetOnly))) ->
  0 <= expectedReturn rec.
Proof.
  unfold buildAnalysis. cbn [stakingRecommendations].
  unfold generateRealStakingRecommendations. intros Hrec.
  apply In_stable_sort, in_app_or in Hrec. destruct Hrec as [Hrec|Hrec].
  - apply in_flat_map in Hrec. destruct Hrec as (entry & _ & Hrec).
    by apply ethRecommendation_return in Hrec.
  - apply in_flat_map in Hrec. destruct Hrec as (holding & Hheld & Hrec).
    apply filter_In in Hheld. destruct Hheld as [Hheld _].
    eapply tokenRecommendation_return; [|exact Hrec].
    intros o Ho. by apply (aggregate_holding_options env walletProvider address
                             testnetOnly holding).
Qed.

End Returns.

(** X26. Every recommendation of a served analysis has an expected return
    that is not negative (the staking options come from the catalogs, whose
    rates are not negative), so every enhanced recommendation of the action
    has a personalised score of at least 57.5: the lower clamp of the score
    is never needed. *)
Theorem served_recommendations_score_floor (st : State) (now : Z) (env : Env)
    (address : string) (testnetOnly : bool) (a : WalletAnalysis) :
  reachable st ->
  fst (analyzeWallet now env address testnetOnly st) = Ok a ->
  (forall rec, In rec (stakingRecommendations a) -> (0 <= expectedReturn rec)%Q) /\
  (forall e, In e (Action.enhancedRecommendations a) ->
             (57.5 <= Action.personalizedScore e)%Q).
Proof.
  intros Hreach Hok.
  destruct (served_built st now env address testnetOnly a Hreach Hok)
    as (env' & wp & ->).
  split; [intros rec; apply built_returns|].
  intros e He. unfold Action.enhancedRecommendations in He.
  apply In_stable_sort, in_map_iff in He. destruct He as (rec & <- & Hrec).
  cbn [Action.enhance Action.personalizedScore].
  apply score_floor. by apply (built_returns env' wp address testnetOnly).
Qed.

(** The wallet that holds a Sepolia ether, analysed in testnet mode. *)
Lemma served_recommendations_score_floor_witness :
  match fst (analyzeWallet 0 sepoliaWorld demoAddress true (initialState (Some demoKey)))
  with
  | Ok a =>
      match Action.enhancedRecommendations a with
      | e :: _ => (57.5 <= Action.personalizedScore e)%Q
      | [] => False
      end
  | Err _ => False
  end.
Proof.
  destruct (fst (analyzeWallet 0 sepoliaWorld demoAddress true
                   (initialState (Some demoKey)))) as [a|m] eqn:E;
    [|vm_compute in E; discriminate].
  destruct (served_recommendations_score_floor (initialState (Some demoKey)) 0
              sepoliaWorld demoAddress true a (reach_new _) E) as [_ Hfloor].
  assert (Ha : a = buildAnalysis demoAddress true
                     (aggregate sepoliaWorld sepoliaProvider demoAddress true)).
  { vm_compute in E. injection E as <-. reflexivity. }
  destruct (Action.enhancedRecommendations a) as [|e rest] eqn:Hrecs.
  - rewrite Ha in Hrecs. vm_compute in Hrecs. discriminate.
  - apply Hfloor. by left.
Defined.
